(** * copilot_session_restorer: needle building, hash discovery and ranking,
      session inventory and reconciliation

    A shallow embedding of [copilot_session_restorer.py].  Python [str] values
    are Rocq strings whose characters stand for the code points below 256;
    [datetime] values are integers (microseconds counted from
    [datetime.min]); the chat-session dictionary is a [gmap]; functions that
    touch the file system or may raise live in the small monad [IO], which
    records every file-system operation performed and carries exceptions. *)

From Stdlib Require Import ZArith List Bool Ascii String Lia Permutation Sorted.
From stdpp Require Import gmap strings.
Import ListNotations.

Local Open Scope string_scope.
Local Open Scope Z_scope.

(** ** Python strings *)

Module Str.

(** [c in "..."] on single characters. *)
Definition code (c : ascii) : N := N_of_ascii c.

Definition in_range (lo hi : N) (c : ascii) : bool :=
  (N.leb lo (code c) && N.leb (code c) hi)%bool.

(** [str.isspace] on one character (code points below 256). *)
Definition isspace (c : ascii) : bool :=
  (in_range 9 13 c || in_range 28 32 c
   || N.eqb (code c) 133 || N.eqb (code c) 160)%bool.

(** [str.lower] on one character: A-Z, and the Latin-1 capitals. *)
Definition lower_char (c : ascii) : ascii :=
  if (in_range 65 90 c
      || (in_range 192 222 c && negb (N.eqb (code c) 215)))%bool
  then ascii_of_N (code c + 32) else c.

Fixpoint lower (s : string) : string :=
  match s with
  | EmptyString => EmptyString
  | String c r => String (lower_char c) (lower r)
  end.

(** [s.replace(a, b)] for one-character [a] and [b]. *)
Fixpoint replace (a b : ascii) (s : string) : string :=
  match s with
  | EmptyString => EmptyString
  | String c r => String (if Ascii.eqb c a then b else c) (replace a b r)
  end.

Fixpoint lstrip (s : string) : string :=
  match s with
  | EmptyString => EmptyString
  | String c r => if isspace c then lstrip r else s
  end.

(** Right strip: a character is dropped when it is blank and everything
    after it has been dropped. *)
Fixpoint rstrip (s : string) : string :=
  match s with
  | EmptyString => EmptyString
  | String c r =>
      match rstrip r with
      | EmptyString => if isspace c then EmptyString else String c EmptyString
      | r' => String c r'
      end
  end.

Definition strip (s : string) : string := rstrip (lstrip s).

(** Truth value of a [str]: non-empty. *)
Definition truthy (s : string) : bool :=
  match s with EmptyString => false | _ => true end.

Fixpoint startswith (p s : string) : bool :=
  match p, s with
  | EmptyString, _ => true
  | String a p', String b s' => (Ascii.eqb a b && startswith p' s')%bool
  | String _ _, EmptyString => false
  end.

(** [needle in hay]. *)
Fixpoint contains (needle hay : string) : bool :=
  (startswith needle hay ||
   match hay with
   | EmptyString => false
   | String _ r => contains needle r
   end)%bool.

Fixpoint join (sep : string) (l : list string) : string :=
  match l with
  | [] => ""
  | [x] => x
  | x :: r => x ++ sep ++ join sep r
  end.

(** [s.split(sep)] for a one-character separator. *)
Fixpoint split (sep : ascii) (s : string) : list string :=
  match s with
  | EmptyString => [""]
  | String c r =>
      if Ascii.eqb c sep then "" :: split sep r
      else match split sep r with
           | [] => [String c ""]
           | x :: xs => String c x :: xs
           end
  end.

(** [x in l] for a list (or set) of strings. *)
Fixpoint mem (x : string) (l : list string) : bool :=
  match l with
  | [] => false
  | y :: r => (String.eqb x y || mem x r)%bool
  end.

End Str.

(** The idiom "unique, preserving order" that the source writes out twice:
    [for v in xs: if v and v not in seen: seen.add(v); out.append(v)]. *)
Fixpoint unique_from (seen : list string) (xs : list string) : list string :=
  match xs with
  | [] => []
  | v :: r =>
      if (Str.truthy v && negb (Str.mem v seen))%bool
      then v :: unique_from (v :: seen) r
      else unique_from seen r
  end.

Definition unique (xs : list string) : list string := unique_from [] xs.

(** ** Time *)

(** A naive [datetime]: microseconds since 0001-01-01T00:00:00. *)
Definition datetime := Z.
Definition datetime_min : datetime := 0.

(** [Optional[datetime] or datetime.min]: every [datetime] is truthy. *)
Definition or_min (o : option datetime) : datetime :=
  match o with Some t => t | None => datetime_min end.

(** ** Exceptions and file-system effects *)

Inductive exn :=
| ValueError (msg : string)
| OSError (msg : string)
| OverflowError (msg : string)
| RuntimeError (msg : string).

(** One entry per file-system call, with the path it was made on. *)
Inductive fs_op :=
| OpIterdir (p : string)
| OpIsDir (p : string)
| OpIsFile (p : string)
| OpExists (p : string)
| OpReadText (p : string)
| OpStat (p : string)
| OpResolve (p : string).

Definition IO (A : Type) : Type := (list fs_op * (exn + A))%type.

Definition io_ret {A} (a : A) : IO A := ([], inr a).
Definition io_raise {A} (e : exn) : IO A := ([], inl e).
Definition io_log {A} (o : fs_op) (a : A) : IO A := ([o], inr a).

Definition io_bind {A B} (m : IO A) (f : A -> IO B) : IO B :=
  match m with
  | (t, inl e) => (t, inl e)
  | (t, inr a) => let '(t', r) := f a in ((t ++ t')%list, r)
  end.

(** [try: m  except Exception: h]. *)
Definition io_try {A} (m : IO A) (h : exn -> IO A) : IO A :=
  match m with
  | (t, inl e) => let '(t', r) := h e in ((t ++ t')%list, r)
  | (t, inr a) => (t, inr a)
  end.

Definition trace {A} (m : IO A) : list fs_op := fst m.
Definition outcome {A} (m : IO A) : exn + A := snd m.

Declare Scope io_scope.
Delimit Scope io_scope with io.
Notation "x <- m ;; k" := (io_bind m (fun x => k))
  (at level 100, m at next level, right associativity) : io_scope.

(** ** [pathlib] paths (POSIX flavour) *)

Module Path.

(** A parsed path: [root] is [""], ["/"] or ["//"]; [parts] are the
    components after the root. *)
Record t := mk { root : string; parts : list string }.

Fixpoint count_slashes (s : string) : nat :=
  match s with
  | String "/" r => S (count_slashes r)
  | _ => O
  end.

(** [Path(s)]: exactly two leading slashes are kept, any other number of
    them is one root; empty and ["."] components are dropped. *)
Definition of_str (s : string) : t :=
  let n := count_slashes s in
  mk (match n with O => "" | 2%nat => "//" | _ => "/" end)
     (List.filter
        (fun x => (Str.truthy x && negb (String.eqb x "."))%bool)
        (Str.split "/" s)).

(** [str(p)] *)
Definition str (p : t) : string :=
  match root p, parts p with
  | "", [] => "."
  | r, ps => r ++ Str.join "/" ps
  end.

Definition is_absolute (p : t) : bool := Str.truthy (root p).

(** [p.parent] *)
Definition parent (p : t) : t := mk (root p) (List.removelast (parts p)).

(** [p / q] for a path [q]: an absolute right operand wins. *)
Definition joinpath (p q : t) : t :=
  if is_absolute q then q else mk (root p) (parts p ++ parts q).

(** [p / s] for a string [s]. *)
Definition div (p : t) (s : string) : t := joinpath p (of_str s).

(** The paths [iterdir] yields: the directory with one more component. *)
Definition child (p : t) (entry : string) : t :=
  mk (root p) (parts p ++ [entry]).

(** [p.name] *)
Definition name (p : t) : string := List.last (parts p) "".

(** Split at the last dot: [(name[:i], name[i:])] for [i = name.rfind(".")]. *)
Fixpoint rsplit_dot (s : string) : option (string * string) :=
  match s with
  | EmptyString => None
  | String c r =>
      match rsplit_dot r with
      | Some (a, b) => Some (String c a, b)
      | None => if Ascii.eqb c "." then Some ("", s) else None
      end
  end.

(** [0 < i < len(name) - 1] decides whether the name has a suffix. *)
Definition split_suffix (n : string) : string * string :=
  match rsplit_dot n with
  | Some (a, b) =>
      if (Str.truthy a && Nat.ltb 1 (String.length b))%bool
      then (a, b) else (n, "")
  | None => (n, "")
  end.

Definition suffix (p : t) : string := snd (split_suffix (name p)).
Definition stem (p : t) : string := fst (split_suffix (name p)).

Definition hex_digit (n : N) : ascii :=
  if N.ltb n 10 then ascii_of_N (48 + n) else ascii_of_N (55 + n).

Definition percent (b : N) : string :=
  String "%" (String (hex_digit (N.div b 16))
                     (String (hex_digit (N.modulo b 16)) "")).

(** Characters [urllib.parse.quote_from_bytes] leaves alone (safe = "/"). *)
Definition uri_safe (c : ascii) : bool :=
  (Str.in_range 48 57 c || Str.in_range 65 90 c || Str.in_range 97 122 c
   || Str.mem (String c "") ["_"; "."; "-"; "~"; "/"])%bool.

(** Percent-encoding of the UTF-8 bytes of one code point below 256. *)
Definition quote_char (c : ascii) : string :=
  let n := Str.code c in
  if uri_safe c then String c ""
  else if N.ltb n 128 then percent n
  else percent (192 + N.div n 64) ++ percent (128 + N.modulo n 64).

Fixpoint quote (s : string) : string :=
  match s with
  | EmptyString => ""
  | String c r => quote_char c ++ quote r
  end.

(** [p.as_uri()] *)
Definition as_uri (p : t) : IO string :=
  if is_absolute p then io_ret ("file://" ++ quote (str p))
  else io_raise (ValueError "relative path can't be expressed as a file URI").

(** Collapse [".."] components; [acc] holds the components kept so far,
    innermost first. *)
Fixpoint collapse (acc : list string) (ps : list string) : list string :=
  match ps with
  | [] => List.rev acc
  | ".." :: r => collapse (List.tl acc) r
  | x :: r => collapse (x :: acc) r
  end.

(** [p.resolve()] on a file system without symbolic links, with current
    directory [cwd]; as [os.path.realpath] does, it raises [ValueError] for
    a component holding the NUL character. *)
Definition resolve_lexical (cwd : t) (p : t) : exn + t :=
  let q := joinpath cwd p in
  if List.existsb (Str.contains (String (ascii_of_N 0) "")) (parts q)
  then inl (ValueError "embedded null byte")
  else inr (mk (root q) (collapse [] (parts q))).

End Path.

(** ** JSON documents as [json.loads] returns them *)

(** A Python [float]: not-a-number, an infinity, or [m * 2^e]. *)
Inductive pyfloat :=
| FNan
| FInf (negative : bool)
| FFinite (m e : Z).

(** [JDict] holds the items of the parsed [dict], each key once. *)
#[local] Set Warnings "-register-all".
Inductive json :=
| JNull
| JBool (b : bool)
| JInt (n : Z)
| JFloat (f : pyfloat)
| JStr (s : string)
| JList (l : list json)
| JDict (d : list (string * json)).

(** [d.get(k)], [None] being [JNull]. *)
Fixpoint dict_get (d : list (string * json)) (k : string) : json :=
  match d with
  | [] => JNull
  | (k', v) :: r => if String.eqb k' k then v else dict_get r k
  end.

(** The integer part of [m * 2^e], rounding towards zero. *)
Definition trunc (m e : Z) : Z :=
  if 0 <=? e then m * 2 ^ e else Z.quot m (2 ^ (- e)).

(** [int(x)] for a [float]. *)
Definition int_of_float (f : pyfloat) : IO Z :=
  match f with
  | FNan => io_raise (ValueError "cannot convert float NaN to integer")
  | FInf _ => io_raise (OverflowError "cannot convert float infinity to integer")
  | FFinite m e => io_ret (trunc m e)
  end.

(** ** [list.sort(key=..., reverse=True)]: stable, largest key first *)

Fixpoint insert_reverse {A} (key : A -> Z) (x : A) (l : list A) : list A :=
  match l with
  | [] => [x]
  | y :: r => if key x <? key y then y :: insert_reverse key x r else x :: l
  end.

Fixpoint sort_reverse {A} (key : A -> Z) (l : list A) : list A :=
  match l with
  | [] => []
  | x :: r => insert_reverse key x (sort_reverse key r)
  end.

(** The order the sort establishes between neighbours: [a] may stand
    before [b]. *)
Definition ge_key {A} (key : A -> Z) (a b : A) : Prop := key b <= key a.

(** [a] occurs in [l] somewhere before an occurrence of [b]. *)
Definition precedes {A} (a b : A) (l : list A) : Prop :=
  exists l1 l2 l3, l = (l1 ++ a :: l2 ++ b :: l3)%list.

(** ** Needle Builder *)

(** What the file system answers for the paths the needle builder asks
    about, keyed by [str(path)].  [fs_read_utf8] is
    [read_text(encoding="utf-8")], [fs_read_ignore] is
    [read_text(errors="ignore")]; both may raise.  [fs_resolve] is
    [Path.resolve()], which raises [RuntimeError] on a loop of symbolic
    links and [ValueError] on an embedded NUL. *)
Record FS := {
  fs_is_file : string -> bool;
  fs_is_dir : string -> bool;
  fs_read_utf8 : string -> exn + string;
  fs_read_ignore : string -> exn + string;
  fs_resolve : Path.t -> exn + Path.t
}.

Definition is_file (fs : FS) (p : Path.t) : IO bool :=
  io_log (OpIsFile (Path.str p)) (fs_is_file fs (Path.str p)).

Definition is_dir (fs : FS) (p : Path.t) : IO bool :=
  io_log (OpIsDir (Path.str p)) (fs_is_dir fs (Path.str p)).

Definition read_text_utf8 (fs : FS) (p : Path.t) : IO string :=
  ([OpReadText (Path.str p)], fs_read_utf8 fs (Path.str p)).

Definition read_text_ignore (fs : FS) (p : Path.t) : IO string :=
  ([OpReadText (Path.str p)], fs_read_ignore fs (Path.str p)).

Definition resolve (fs : FS) (p : Path.t) : IO Path.t :=
  ([OpResolve (Path.str p)], fs_resolve fs p).

(** Path resolution succeeds on every path. *)
Definition resolve_total (fs : FS) : Prop :=
  forall q, exists r, fs_resolve fs q = inr r.

Definition to_file_uri (p : Path.t) : IO string := Path.as_uri p.

(** [drive = s[0]; rest = s[2:]] when [len(s) >= 2 and s[1] == ":"];
    otherwise [drive = ""; rest = s]. *)
Definition split_drive (s : string) : string * string :=
  match s with
  | String c0 (String ":" r) => (String c0 "", r)
  | _ => ("", s)
  end.

(** [str(p)] cannot raise, so the first [try] of the source always takes
    its normal exit; [p.as_uri()] raises for a relative path. *)
Definition win_uri_variants (p : Path.t) : IO (list string) :=
  (let s := Path.str p in
   variants <- io_try (u <- Path.as_uri p ;; io_ret [u])
                      (fun _ => io_ret []) ;;
   let '(drive, rest) := split_drive s in
   let rest_slash := Str.replace "\" "/" rest in
   let variants :=
     if Str.truthy drive then
       List.app variants
        [ "file:///" ++ drive ++ ":" ++ rest_slash;
          "file:///" ++ Str.lower drive ++ ":" ++ rest_slash;
          "file:///" ++ Str.lower drive ++ "%3A" ++ rest_slash;
          "file:///" ++ Str.lower drive ++ "%3a" ++ rest_slash ]
     else variants in
   io_ret (unique variants))%io.

Section NeedleBuilder.

Variable fs : FS.
(** [json.loads]: the parsed document, or the exception it raises. *)
Variable json_loads : string -> exn + json.

Definition loads (text : string) : IO json := ([], json_loads text).

(** The tail of a turn of [for f in folders], after the [uri] test fell
    through: the needles a [path] field appends. *)
Definition folder_path (workspace_file : Path.t) (f : list (string * json))
  : IO (list string) :=
  match dict_get f "path" with
  | JStr path =>
      if Str.truthy (Str.strip path) then
        (let p := Path.of_str path in
         p <- (if negb (Path.is_absolute p)
               then resolve fs (Path.joinpath (Path.parent workspace_file) p)
               else io_ret p) ;;
         vs <- win_uri_variants p ;;
         io_ret (List.app
                   [Path.str p; Str.replace "\" "/" (Path.str p)] vs))%io
      else io_ret []
  | _ => io_ret []
  end.

(** One turn of [for f in folders]: the needles this entry appends
    (none when the turn ends in [continue] or falls through). *)
Definition folder_entry (workspace_file : Path.t) (f : json)
  : IO (list string) :=
  match f with
  | JDict f =>
      match dict_get f "uri" with
      | JStr uri =>
          if Str.truthy (Str.strip uri) then io_ret [Str.strip uri]
          else folder_path workspace_file f
      | _ => folder_path workspace_file f
      end
  | _ => io_ret []
  end.

Fixpoint folders_loop (workspace_file : Path.t) (folders : list json)
    (needles : list string) : IO (list string) :=
  match folders with
  | [] => io_ret needles
  | f :: rest =>
      (new <- folder_entry workspace_file f ;;
       folders_loop workspace_file rest (List.app needles new))%io
  end.

(** The two nested [try] blocks that read and parse the descriptor;
    [None] stands for the inner [except: return needles]. *)
Definition read_descriptor (workspace_file : Path.t) : IO (option json) :=
  io_try
    (text <- read_text_utf8 fs workspace_file ;;
     obj <- loads text ;;
     io_ret (Some obj))%io
    (fun _ =>
       io_try
         (text <- read_text_ignore fs workspace_file ;;
          obj <- loads text ;;
          io_ret (Some obj))%io
         (fun _ => io_ret None)).

Definition load_code_workspace_folders (workspace_file : Path.t)
  : IO (list string) :=
  let needles : list string := [] in
  (parsed <- read_descriptor workspace_file ;;
   match parsed with
   | None => io_ret needles
   | Some (JDict obj) =>
       match dict_get obj "folders" with
       | JList folders =>
           needles <- folders_loop workspace_file folders needles ;;
           io_ret (unique needles)
       | _ => io_ret needles
       end
   | Some _ => io_ret needles
   end)%io.

Definition is_code_workspace_file (p : Path.t) : IO bool :=
  (b <- is_file fs p ;;
   io_ret (b && String.eqb (Str.lower (Path.suffix p)) ".code-workspace")%bool)%io.

Definition build_needles_for_workspace_input (workspace_or_folder : Path.t)
  : IO (string * list string) :=
  (is_ws <- is_code_workspace_file workspace_or_folder ;;
   if is_ws then
     let ws_full := Path.str workspace_or_folder in
     ws_uri <- to_file_uri workspace_or_folder ;;
     let needles :=
       [ws_full; Str.replace "\" "/" ws_full; ws_uri; Str.lower ws_uri] in
     folders <- load_code_workspace_folders workspace_or_folder ;;
     io_ret ("WorkspaceFile: " ++ ws_full, List.app needles folders)
   else
     d <- is_dir fs workspace_or_folder ;;
     if d then
       let folder_full := Path.str workspace_or_folder in
       folder_uri <- to_file_uri workspace_or_folder ;;
       let needles :=
         [folder_full; Str.replace "\" "/" folder_full;
          folder_uri; Str.lower folder_uri] in
       vs <- win_uri_variants workspace_or_folder ;;
       io_ret ("WorkspaceFolder: " ++ folder_full, List.app needles vs)
     else
       let raw := Path.str workspace_or_folder in
       io_ret ("Path: " ++ raw, [raw; Str.replace "\" "/" raw; Str.lower raw]))%io.

End NeedleBuilder.

(** ** Workspace storage as the scanner observes it *)

(** The storage is described by what the scanner finds in it.  It is a
    storage in good order: every directory that exists can be listed, and
    a file that is listed can be [stat]-ed and read with [errors="ignore"].
    The calls the code leaves outside any [try] ([iterdir], [stat], the
    fallback read of [read_text_best_effort]) therefore succeed here; what
    the theorems say of a result is said of a run in which they did.

    A regular file: its text under strict UTF-8 decoding ([None] when the
    bytes do not decode), its text under [errors="ignore"], and the two
    [stat] times, in microseconds since the epoch (taken to lie in the
    range a [datetime] can hold). *)
Record File := {
  utf8 : option string;
  lossy : string;
  st_ctime : Z;
  st_mtime : Z
}.

(** An entry of a [chatSessions] folder; [ce_file = None] when it is not a
    regular file. *)
Record ChatEntry := { ce_name : string; ce_file : option File }.

Inductive ChatDir :=
| ChatAbsent
| ChatNotDir
| ChatEntries (entries : list ChatEntry).

(** The layout [<root>/<hash>/workspace.json], [<root>/<hash>/state.vscdb]
    (its [st_mtime] when it exists), [<root>/<hash>/chatSessions]. *)
Record HashDir := {
  hd_workspace_json : option File;
  hd_state_vscdb : option Z;
  hd_chatSessions : ChatDir
}.

(** An entry of the storage root, in [iterdir] order; [re_dir = None] when
    it is not a directory. *)
Record RootEntry := { re_name : string; re_dir : option HashDir }.

Record Storage := { st_root : Path.t; st_entries : list RootEntry }.

Definition EPOCH : Z := 62135596800 * 1000000.
Definition datetime_max : datetime := 315537897599999999.

(** [datetime.fromtimestamp(ts)], [ts] in microseconds, for a time stamp
    inside the range of [datetime] and a local zone at a fixed offset of
    zero: the naive local time is then the shifted stamp.  Orderings are
    stated on the converted values, which are what the code compares. *)
Definition dt_from_ts (ts : Z) : datetime := EPOCH + ts.

(** [datetime.fromtimestamp(ms / 1000)], the division taken as exact and
    the zone as for [dt_from_ts]: out-of-range years raise. *)
Definition fromtimestamp_ms (ms : Z) : IO datetime :=
  let t := EPOCH + ms * 1000 in
  if ((datetime_min <=? t) && (t <=? datetime_max))%bool then io_ret t
  else io_raise (ValueError "year is out of range").

Definition file_read_utf8 (p : Path.t) (f : File) : IO string :=
  ([OpReadText (Path.str p)],
   match utf8 f with
   | Some s => inr s
   | None => inl (ValueError "'utf-8' codec can't decode")
   end).

Definition file_read_ignore (p : Path.t) (f : File) : IO string :=
  io_log (OpReadText (Path.str p)) (lossy f).

Definition read_text_best_effort (p : Path.t) (f : File) : IO string :=
  io_try (file_read_utf8 p f) (fun _ => file_read_ignore p f).

(** ** Hash Scanner and Hash Ranker *)

Module HashInfo.
Record t := mk {
  hash : string;
  path : Path.t;
  workspace_json : Path.t;
  state_db : Path.t;
  state_db_mtime : option datetime;
  chat_dir : Path.t;
  chat_files : Z
}.
End HashInfo.

(** [lambda x: (x.state_db_mtime or datetime.min)], the key [hits.sort]
    orders by. *)
Definition rank_key (x : HashInfo.t) : Z := or_min (HashInfo.state_db_mtime x).

(** [n and n.strip()] as a condition. *)
Definition nonblank (n : string) : bool :=
  (Str.truthy n && Str.truthy (Str.strip n))%bool.

(** [for n in needles2: if n.lower() in content_low: ok = True; break]. *)
Fixpoint needle_loop (needles2 : list string) (content_low : string) : bool :=
  match needles2 with
  | [] => false
  | n :: rest =>
      if Str.contains (Str.lower n) content_low then true
      else needle_loop rest content_low
  end.

(** [sum(1 for _ in chat_dir.iterdir() if _.is_file())]. *)
Fixpoint count_files (chat_dir : Path.t) (es : list ChatEntry) : IO Z :=
  match es with
  | [] => io_ret 0
  | e :: rest =>
      (b <- io_log (OpIsFile (Path.str (Path.child chat_dir (ce_name e))))
                   (match ce_file e with Some _ => true | None => false end) ;;
       n <- count_files chat_dir rest ;;
       io_ret (if b : bool then 1 + n else n))%io
  end.

(** [dt_from_ts(state_db.stat().st_mtime) if state_db.exists() else None]. *)
Definition state_db_mtime_of (state_db : Path.t) (db : option Z)
  : IO (option datetime) :=
  match db with
  | Some ts =>
      (_ <- io_log (OpExists (Path.str state_db)) tt ;;
       io_log (OpStat (Path.str state_db)) (Some (dt_from_ts ts)))%io
  | None => io_log (OpExists (Path.str state_db)) None
  end.

(** The count of regular files directly inside [chatSessions]: zero when
    the folder is absent, not a directory, or listing it raises. *)
Definition chat_files_of (chat_dir : Path.t) (cd : ChatDir) : IO Z :=
  match cd with
  | ChatAbsent => io_log (OpExists (Path.str chat_dir)) 0
  | ChatNotDir =>
      (_ <- io_log (OpExists (Path.str chat_dir)) tt ;;
       io_log (OpIsDir (Path.str chat_dir)) 0)%io
  | ChatEntries es =>
      (_ <- io_log (OpExists (Path.str chat_dir)) tt ;;
       _ <- io_log (OpIsDir (Path.str chat_dir)) tt ;;
       io_try (_ <- io_log (OpIterdir (Path.str chat_dir)) tt ;;
               count_files chat_dir es)
              (fun _ => io_ret 0))%io
  end.

(** One turn of [for d in workspace_storage.iterdir()]: the hit appended,
    or [None] when the turn ends in [continue]. *)
Definition scan_one (root : Path.t) (needles2 : list string) (entry : RootEntry)
  : IO (option HashInfo.t) :=
  let d := Path.child root (re_name entry) in
  match re_dir entry with
  | None => io_log (OpIsDir (Path.str d)) None
  | Some hd =>
    let workspace_json := Path.div d "workspace.json" in
    match hd_workspace_json hd with
    | None =>
        (_ <- io_log (OpIsDir (Path.str d)) tt ;;
         io_log (OpExists (Path.str workspace_json)) None)%io
    | Some wj =>
        (_ <- io_log (OpIsDir (Path.str d)) tt ;;
         _ <- io_log (OpExists (Path.str workspace_json)) tt ;;
         content <- read_text_best_effort workspace_json wj ;;
         let content_low := Str.lower content in
         if negb (needle_loop needles2 content_low) then io_ret None
         else
           let state_db := Path.div d "state.vscdb" in
           state_db_mtime <- state_db_mtime_of state_db (hd_state_vscdb hd) ;;
           let chat_dir := Path.div d "chatSessions" in
           chat_files <- chat_files_of chat_dir (hd_chatSessions hd) ;;
           io_ret (Some (HashInfo.mk (Path.name d) d workspace_json state_db
                           state_db_mtime chat_dir chat_files)))%io
    end
  end.

Fixpoint scan (root : Path.t) (needles2 : list string) (ds : list RootEntry)
    (hits : list HashInfo.t) : IO (list HashInfo.t) :=
  match ds with
  | [] => io_ret hits
  | d :: rest =>
      (hit <- scan_one root needles2 d ;;
       scan root needles2 rest
         (match hit with Some h => List.app hits [h] | None => hits end))%io
  end.

Definition find_hashes_by_needles (workspace_storage : Storage)
    (needles : list string) : IO (list HashInfo.t) :=
  let needles2 := List.filter nonblank needles in
  match needles2 with
  | [] => io_raise (ValueError "No needles")
  | _ =>
      (ds <- io_log (OpIterdir (Path.str (st_root workspace_storage)))
                    (st_entries workspace_storage) ;;
       hits <- scan (st_root workspace_storage) needles2 ds [] ;;
       io_ret (sort_reverse rank_key hits))%io
  end.

(** The hit a root entry contributes to a scan, if any. *)
Definition scan_hit (root : Path.t) (needles2 : list string) (entry : RootEntry)
  : option HashInfo.t :=
  match outcome (scan_one root needles2 entry) with
  | inr hit => hit
  | inl _ => None
  end.

(** The hits of a scan over [ds], in iteration order. *)
Definition scan_hits (root : Path.t) (needles2 : list string)
    (ds : list RootEntry) : list HashInfo.t :=
  List.flat_map
    (fun e => match scan_hit root needles2 e with Some h => [h] | None => [] end)
    ds.

(** The text [read_text_best_effort] hands back for a descriptor. *)
Definition raw_text (f : File) : string :=
  match utf8 f with Some s => s | None => lossy f end.

(** A root entry is a directory holding a descriptor whose text contains,
    ignoring case, one of the non-blank needles. *)
Definition entry_matches (needles : list string) (entry : RootEntry) : bool :=
  match re_dir entry with
  | Some hd =>
      match hd_workspace_json hd with
      | Some wj =>
          List.existsb
            (fun n => (nonblank n &&
                       Str.contains (Str.lower n) (Str.lower (raw_text wj)))%bool)
            needles
      | None => false
      end
  | None => false
  end.

(** The same storage with every descriptor's [stat] times replaced. *)
Definition retime_file (t : Z) (f : File) : File :=
  {| utf8 := utf8 f; lossy := lossy f; st_ctime := t; st_mtime := t |}.

Definition retime_entry (g : string -> Z) (e : RootEntry) : RootEntry :=
  {| re_name := re_name e;
     re_dir :=
       match re_dir e with
       | Some hd =>
           Some {| hd_workspace_json :=
                     option_map (retime_file (g (re_name e))) (hd_workspace_json hd);
                   hd_state_vscdb := hd_state_vscdb hd;
                   hd_chatSessions := hd_chatSessions hd |}
       | None => None
       end |}.

Definition retime_descriptors (g : string -> Z) (ws : Storage) : Storage :=
  {| st_root := st_root ws; st_entries := List.map (retime_entry g) (st_entries ws) |}.

(** ** Session Inventory *)

Module SessionItem.
Record t := mk {
  hash : string;
  session_id : string;
  title : string;
  created : datetime;
  updated : datetime;
  ext : string;
  path : Path.t
}.
End SessionItem.

(** [s.lstrip(".")] *)
Fixpoint lstrip_dots (s : string) : string :=
  match s with
  | String "." r => lstrip_dots r
  | _ => s
  end.

(** [for k in (...): v = obj.get(k); if isinstance(v, str) and v.strip():
    title = v.strip(); break], starting from [title = ""]. *)
Fixpoint title_loop (obj : list (string * json)) (keys : list string) : string :=
  match keys with
  | [] => ""
  | k :: rest =>
      match dict_get obj k with
      | JStr v => if Str.truthy (Str.strip v) then Str.strip v
                  else title_loop obj rest
      | _ => title_loop obj rest
      end
  end.

(** [if cdi < 10_000_000_000: cdi *= 1000]. *)
Definition scale_creation (cdi : Z) : Z :=
  if cdi <? 10000000000 then cdi * 1000 else cdi.

Definition stat_created_updated (p : Path.t) (f : File)
  : IO (datetime * datetime) :=
  io_log (OpStat (Path.str p)) (dt_from_ts (st_ctime f), dt_from_ts (st_mtime f)).

(** [workspace_storage / h / "chatSessions"] *)
Definition chat_path (ws : Storage) (h : string) : Path.t :=
  Path.div (Path.div (st_root ws) h) "chatSessions".

Section SessionInventory.

Variable json_loads : string -> exn + json.

Definition try_parse_session_meta_json (p : Path.t) (f : File)
  : IO (option string * string * option Z) :=
  io_try
    (text <- file_read_utf8 p f ;;
     obj <- loads json_loads text ;;
     match obj with
     | JDict obj =>
         let session_id :=
           match dict_get obj "sessionId" with
           | JStr s => if Str.truthy s then Some s else None
           | _ => None
           end in
         let title := title_loop obj ["customTitle"; "title"; "computedTitle"] in
         creation_ms <-
           match dict_get obj "creationDate" with
           | JInt cd => io_ret (Some (scale_creation cd))
           | JBool cd => io_ret (Some (scale_creation (if cd then 1 else 0)))
           | JFloat cd => cdi <- int_of_float cd ;;
                          io_ret (Some (scale_creation cdi))
           | _ => io_ret None
           end ;;
         io_ret (session_id, title, creation_ms)
     | _ => io_ret (None, "", None)
     end)%io
    (fun _ => io_ret (None, "", None)).

(** One turn of [for p in chat_dir.iterdir()] for hash [h]: the item
    appended, or [None] when the turn ends in [continue]. *)
Definition session_file (h : string) (chat_dir : Path.t) (e : ChatEntry)
  : IO (option SessionItem.t) :=
  let p := Path.child chat_dir (ce_name e) in
  match ce_file e with
  | None => io_log (OpIsFile (Path.str p)) None
  | Some f =>
      (_ <- io_log (OpIsFile (Path.str p)) tt ;;
       let ext := lstrip_dots (Str.lower (Path.suffix p)) in
       if negb (Str.mem ext ["json"; "jsonl"]) then io_ret None
       else
         let session_id := Path.stem p in
         let title := "" in
         times <- stat_created_updated p f ;;
         let '(created, updated) := times in
         meta <-
           (if String.eqb ext "json" then
              parsed <- try_parse_session_meta_json p f ;;
              let '(sid2, title2, creation_ms) := parsed in
              let session_id :=
                match sid2 with
                | Some s => if Str.truthy s then s else session_id
                | None => session_id
                end in
              let title := if Str.truthy title2 then title2 else title in
              created <-
                match creation_ms with
                | Some ms =>
                    if negb (ms =? 0)
                    then io_try (fromtimestamp_ms ms) (fun _ => io_ret created)
                    else io_ret created
                | None => io_ret created
                end ;;
              io_ret (session_id, title, created)
            else io_ret (session_id, title, created)) ;;
         let '(session_id, title, created) := meta in
         io_ret (Some (SessionItem.mk h session_id title created updated ext p)))%io
  end.

Fixpoint chat_loop (h : string) (chat_dir : Path.t) (es : list ChatEntry)
    (items : list SessionItem.t) : IO (list SessionItem.t) :=
  match es with
  | [] => io_ret items
  | e :: rest =>
      (item <- session_file h chat_dir e ;;
       chat_loop h chat_dir rest
         (match item with Some i => List.app items [i] | None => items end))%io
  end.

(** What [workspace_storage / h] names, [h] being a directory name as the
    callers pass it ([d.name]): the first root entry called [h]. *)
Definition lookup_hash (ws : Storage) (h : string) : option RootEntry :=
  List.find (fun e => String.eqb (re_name e) h) (st_entries ws).

Definition chat_dir_of (ws : Storage) (h : string) : ChatDir :=
  match lookup_hash ws h with
  | Some e => match re_dir e with
              | Some hd => hd_chatSessions hd
              | None => ChatAbsent
              end
  | None => ChatAbsent
  end.

Fixpoint hashes_loop (ws : Storage) (hashes : list string)
    (items : list SessionItem.t) : IO (list SessionItem.t) :=
  match hashes with
  | [] => io_ret items
  | h :: rest =>
      let chat_dir := chat_path ws h in
      match chat_dir_of ws h with
      | ChatAbsent =>
          (_ <- io_log (OpExists (Path.str chat_dir)) tt ;;
           hashes_loop ws rest items)%io
      | ChatNotDir =>
          (_ <- io_log (OpExists (Path.str chat_dir)) tt ;;
           _ <- io_log (OpIsDir (Path.str chat_dir)) tt ;;
           hashes_loop ws rest items)%io
      | ChatEntries es =>
          (_ <- io_log (OpExists (Path.str chat_dir)) tt ;;
           _ <- io_log (OpIsDir (Path.str chat_dir)) tt ;;
           _ <- io_log (OpIterdir (Path.str chat_dir)) tt ;;
           items <- chat_loop h chat_dir es items ;;
           hashes_loop ws rest items)%io
      end
  end.

Definition session_inventory (workspace_storage : Storage)
    (hashes : list string) : IO (list SessionItem.t) :=
  (items <- hashes_loop workspace_storage hashes [] ;;
   io_ret (sort_reverse SessionItem.updated items))%io.

End SessionInventory.

(** The item a chat-folder entry contributes to the inventory, if any. *)
Definition session_of (json_loads : string -> exn + json) (h : string)
    (chat_dir : Path.t) (e : ChatEntry) : option SessionItem.t :=
  match outcome (session_file json_loads h chat_dir e) with
  | inr item => item
  | inl _ => None
  end.

Definition chat_items (json_loads : string -> exn + json) (h : string)
    (chat_dir : Path.t) (es : list ChatEntry) : list SessionItem.t :=
  List.flat_map
    (fun e => match session_of json_loads h chat_dir e with
              | Some i => [i]
              | None => []
              end)
    es.

(** ** Reconciliation Engine: [status_for] *)

Definition status_for (item : SessionItem.t) (target_map : gmap string datetime)
  : string :=
  match target_map !! SessionItem.session_id item with
  | None => "MissingInTarget"
  | Some t =>
      if t <? SessionItem.updated item then "NewerInSource"
      else "AlreadyInTarget"
  end.


(** ** Concrete worlds used by the examples below *)

Module Demo.

Definition dq : string := String (ascii_of_N 34) "".
Definition quoted (s : string) : string := dq ++ s ++ dq.

(** The text [{"folders": [{"path": "app"}]}] and its parse. *)
Definition descriptor_text : string :=
  "{" ++ quoted "folders" ++ ": [{" ++ quoted "path" ++ ": "
      ++ quoted "app" ++ "}]}".

Definition descriptor_json : json :=
  JDict [("folders", JList [JDict [("path", JStr "app")]])].

Definition json_loads (text : string) : exn + json :=
  if String.eqb text descriptor_text then inr descriptor_json
  else inl (ValueError "Expecting value").

(** A file system holding [/ws/proj.code-workspace] and the directories
    [/ws] and [/ws/app]; no symbolic links, current directory [/]. *)
Definition fs : FS := {|
  fs_is_file := fun p => String.eqb p "/ws/proj.code-workspace";
  fs_is_dir := fun p => Str.mem p ["/"; "/ws"; "/ws/app"];
  fs_read_utf8 := fun p =>
    if String.eqb p "/ws/proj.code-workspace" then inr descriptor_text
    else inl (OSError "No such file or directory");
  fs_read_ignore := fun p =>
    if String.eqb p "/ws/proj.code-workspace" then inr descriptor_text
    else inl (OSError "No such file or directory");
  fs_resolve := Path.resolve_lexical (Path.of_str "/")
|}.

(** The text [{"folders": [{"path": "a\u0000b"}]}] and its parse: a folder
    path with the NUL character between [a] and [b]. *)
Definition nul : string := String (ascii_of_N 0) "".

Definition nul_text : string :=
  "{" ++ quoted "folders" ++ ": [{" ++ quoted "path" ++ ": "
      ++ quoted "a\u0000b" ++ "}]}".

Definition nul_json : json :=
  JDict [("folders", JList [JDict [("path", JStr ("a" ++ nul ++ "b"))]])].

Definition nul_loads (text : string) : exn + json :=
  if String.eqb text nul_text then inr nul_json
  else inl (ValueError "Expecting value").

Definition nul_fs : FS := {|
  fs_is_file := fun p => String.eqb p "/ws/proj.code-workspace";
  fs_is_dir := fun p => Str.mem p ["/"; "/ws"];
  fs_read_utf8 := fun p =>
    if String.eqb p "/ws/proj.code-workspace" then inr nul_text
    else inl (OSError "No such file or directory");
  fs_read_ignore := fun p =>
    if String.eqb p "/ws/proj.code-workspace" then inr nul_text
    else inl (OSError "No such file or directory");
  fs_resolve := Path.resolve_lexical (Path.of_str "/")
|}.

Definition text_file (text : string) (mtime : Z) : File :=
  {| utf8 := Some text; lossy := text; st_ctime := mtime; st_mtime := mtime |}.

Definition hash_dir (name text : string) (descriptor_mtime : Z)
    (db_mtime : option Z) : RootEntry :=
  {| re_name := name;
     re_dir := Some {| hd_workspace_json := Some (text_file text descriptor_mtime);
                       hd_state_vscdb := db_mtime;
                       hd_chatSessions := ChatAbsent |} |}.

Definition storage (entries : list RootEntry) : Storage :=
  {| st_root := Path.of_str "/store"; st_entries := entries |}.

(** One hash directory whose descriptor holds a space but not [foo]. *)
Definition blank_match : Storage := storage [hash_dir "h1" "a b" 5 None].

(** [A]: descriptor written at 200, database at 10; [B]: descriptor written
    at 100, database at 20; [C]: no database. *)
Definition two_hashes : Storage :=
  storage [hash_dir "A" "x foo" 200 (Some 10); hash_dir "B" "FOO" 100 (Some 20)].

Definition three_hashes : Storage :=
  storage [hash_dir "C" "foo" 300 None;
           hash_dir "A" "x foo" 200 (Some 10);
           hash_dir "B" "FOO" 100 (Some 20)].

(** A session file [{"sessionId": "abc", "creationDate": <cd>}]. *)
Definition session_text (cd : string) : string :=
  "{" ++ quoted "sessionId" ++ ": " ++ quoted "abc" ++ ", "
      ++ quoted "creationDate" ++ ": " ++ cd ++ "}".

Definition session_json (cd : Z) : json :=
  JDict [("sessionId", JStr "abc"); ("creationDate", JInt cd)].

Definition session_loads (text : string) : exn + json :=
  if String.eqb text (session_text "1700000000")
  then inr (session_json 1700000000)
  else if String.eqb text (session_text "1700000000000")
  then inr (session_json 1700000000000)
  else if String.eqb text (session_text "0") then inr (session_json 0)
  else inl (ValueError "Expecting value").

(** Hash directory h1 with one session file s1.json whose creationDate
    is 0, created at 111 and modified at 222. *)
Definition zero_session : ChatEntry :=
  {| ce_name := "s1.json";
     ce_file := Some {| utf8 := Some (session_text "0");
                        lossy := session_text "0";
                        st_ctime := 111; st_mtime := 222 |} |}.

Definition chat_storage : Storage :=
  storage [ {| re_name := "h1";
               re_dir := Some {| hd_workspace_json := None;
                                 hd_state_vscdb := None;
                                 hd_chatSessions := ChatEntries [zero_session] |} |} ].

End Demo.

(** * The rest of the module *)

(** [v.strip()] when [isinstance(v, str) and v.strip()] holds. *)
Definition nonblank_str (v : json) : option string :=
  match v with
  | JStr s => if Str.truthy (Str.strip s) then Some (Str.strip s) else None
  | _ => None
  end.

(** Sample data for the examples of the second part. *)
Module Sample.

(** A session document with an identifier, a title and a creationDate
    that is not a number ([NaN]). *)
Definition nan_text : string :=
  "{" ++ Demo.quoted "sessionId" ++ ": " ++ Demo.quoted "abc" ++ ", "
      ++ Demo.quoted "title" ++ ": " ++ Demo.quoted " Fix bug " ++ ", "
      ++ Demo.quoted "creationDate" ++ ": NaN}".

Definition nan_obj : list (string * json) :=
  [("sessionId", JStr "abc"); ("title", JStr " Fix bug ");
   ("creationDate", JFloat FNan)].

(** The same document with creationDate 1700000000. *)
Definition titled_text : string :=
  "{" ++ Demo.quoted "sessionId" ++ ": " ++ Demo.quoted "abc" ++ ", "
      ++ Demo.quoted "title" ++ ": " ++ Demo.quoted " Fix bug " ++ ", "
      ++ Demo.quoted "creationDate" ++ ": 1700000000}".

Definition titled_obj : list (string * json) :=
  [("sessionId", JStr "abc"); ("title", JStr " Fix bug ");
   ("creationDate", JInt 1700000000)].

Definition json_loads (text : string) : exn + json :=
  if String.eqb text nan_text then inr (JDict nan_obj)
  else if String.eqb text titled_text then inr (JDict titled_obj)
  else Demo.session_loads text.

End Sample.

(** The items of the listed hashes in the order the loops append them. *)
Definition inventory_items (json_loads : string -> exn + json) (ws : Storage)
    (hashes : list string) : list SessionItem.t :=
  List.flat_map
    (fun h => match chat_dir_of ws h with
              | ChatEntries es => chat_items json_loads h (chat_path ws h) es
              | _ => []
              end)
    hashes.


(** The number of regular files directly inside a chat folder. *)
Definition regular_files (cd : ChatDir) : Z :=
  match cd with
  | ChatEntries es =>
      Z.of_nat (List.length
                  (List.filter
                     (fun e => match ce_file e with Some _ => true | None => false end)
                     es))
  | _ => 0
  end.

Module SampleFs.

(** The text [{"folders": [{"uri": " file:///srv/lib "}, {"path": "app"},
    {"path": "/opt/tool"}, 7]}] and its parse. *)
Definition folders_text : string :=
  "{" ++ Demo.quoted "folders" ++ ": [{" ++ Demo.quoted "uri" ++ ": "
      ++ Demo.quoted " file:///srv/lib " ++ "}, {" ++ Demo.quoted "path"
      ++ ": " ++ Demo.quoted "app" ++ "}, {" ++ Demo.quoted "path" ++ ": "
      ++ Demo.quoted "/opt/tool" ++ "}, 7]}".

Definition folders_list : list json :=
  [JDict [("uri", JStr " file:///srv/lib ")];
   JDict [("path", JStr "app")];
   JDict [("path", JStr "/opt/tool")];
   JInt 7].

Definition json_loads (text : string) : exn + json :=
  if String.eqb text folders_text then inr (JDict [("folders", JList folders_list)])
  else inl (ValueError "Expecting value").

(** A file system without symbolic links on which no resolution fails. *)
Definition fs : FS := {|
  fs_is_file := fun p => String.eqb p "/ws/proj.code-workspace";
  fs_is_dir := fun p => Str.mem p ["/"; "/ws"; "/ws/app"];
  fs_read_utf8 := fun p =>
    if String.eqb p "/ws/proj.code-workspace" then inr folders_text
    else inl (OSError "No such file or directory");
  fs_read_ignore := fun p =>
    if String.eqb p "/ws/proj.code-workspace" then inr folders_text
    else inl (OSError "No such file or directory");
  fs_resolve := fun p =>
    let q := Path.joinpath (Path.of_str "/") p in
    inr (Path.mk (Path.root q) (Path.collapse [] (Path.parts q)))
|}.

End SampleFs.

(** ** Reconciliation Engine: [target_session_map] *)

Section TargetMap.

Variable json_loads : string -> exn + json.

(** One turn of [for p in chat_dir.iterdir()]: the key and the value of
    the assignment [m[sid] = updated], or [None] when the turn ends in
    [continue]. *)
Definition target_file (chat_dir : Path.t) (e : ChatEntry)
  : IO (option (string * datetime)) :=
  let p := Path.child chat_dir (ce_name e) in
  match ce_file e with
  | None => io_log (OpIsFile (Path.str p)) None
  | Some f =>
      (_ <- io_log (OpIsFile (Path.str p)) tt ;;
       if negb (Str.mem (Str.lower (Path.suffix p)) [".json"; ".jsonl"])
       then io_ret None
       else
         let sid := Path.stem p in
         sid <-
           (if String.eqb (Str.lower (Path.suffix p)) ".json" then
              parsed <- try_parse_session_meta_json json_loads p f ;;
              let '(sid2, _, _) := parsed in
              io_ret (match sid2 with
                      | Some s => if Str.truthy s then s else sid
                      | None => sid
                      end)
            else io_ret sid) ;;
         times <- stat_created_updated p f ;;
         let '(_, updated) := times in
         io_ret (Some (sid, updated)))%io
  end.

Fixpoint target_loop (chat_dir : Path.t) (es : list ChatEntry)
    (m : gmap string datetime) : IO (gmap string datetime) :=
  match es with
  | [] => io_ret m
  | e :: rest =>
      (kv <- target_file chat_dir e ;;
       target_loop chat_dir rest
         (match kv with
          | Some (sid, updated) => <[sid := updated]> m
          | None => m
          end))%io
  end.

Definition target_session_map (workspace_storage : Storage)
    (target_hash : string) : IO (gmap string datetime) :=
  let m : gmap string datetime := ∅ in
  let chat_dir := chat_path workspace_storage target_hash in
  match chat_dir_of workspace_storage target_hash with
  | ChatAbsent => io_log (OpExists (Path.str chat_dir)) m
  | ChatNotDir =>
      (_ <- io_log (OpExists (Path.str chat_dir)) tt ;;
       io_log (OpIsDir (Path.str chat_dir)) m)%io
  | ChatEntries es =>
      (_ <- io_log (OpExists (Path.str chat_dir)) tt ;;
       _ <- io_log (OpIsDir (Path.str chat_dir)) tt ;;
       _ <- io_log (OpIterdir (Path.str chat_dir)) tt ;;
       target_loop chat_dir es m)%io
  end.

End TargetMap.

(** The assignment a chat-folder entry causes in the target map, if any. *)
Definition target_binding (json_loads : string -> exn + json)
    (chat_dir : Path.t) (e : ChatEntry) : option (string * datetime) :=
  match outcome (target_file json_loads chat_dir e) with
  | inr kv => kv
  | inl _ => None
  end.

(** The assignments made for a chat folder, in iteration order. *)
Definition target_bindings (json_loads : string -> exn + json)
    (chat_dir : Path.t) (es : list ChatEntry) : list (string * datetime) :=
  List.flat_map
    (fun e => match target_binding json_loads chat_dir e with
              | Some kv => [kv]
              | None => []
              end)
    es.

(** The value the last assignment to [k] stored. *)
Definition last_binding {V} (k : string) (kvs : list (string * V)) : option V :=
  option_map snd (List.find (fun kv => String.eqb (fst kv) k) (List.rev kvs)).

(** ** Prompts and selections *)

(** [s.lstrip(ch)], [s.rstrip(ch)] and [s.strip(ch)] for one character. *)
Fixpoint lstrip_char (ch : ascii) (s : string) : string :=
  match s with
  | EmptyString => EmptyString
  | String c r => if Ascii.eqb c ch then lstrip_char ch r else s
  end.

Fixpoint rstrip_char (ch : ascii) (s : string) : string :=
  match s with
  | EmptyString => EmptyString
  | String c r =>
      match rstrip_char ch r with
      | EmptyString => if Ascii.eqb c ch then EmptyString else String c EmptyString
      | r' => String c r'
      end
  end.

Definition strip_char (ch : ascii) (s : string) : string :=
  rstrip_char ch (lstrip_char ch s).

(** [str.isdigit] for code points below 256: the ASCII digits and the
    superscripts two, three and one. *)
Definition isdigit_char (c : ascii) : bool :=
  (Str.in_range 48 57 c || N.eqb (Str.code c) 178
   || N.eqb (Str.code c) 179 || N.eqb (Str.code c) 185)%bool.

Fixpoint all_digits (s : string) : bool :=
  match s with
  | EmptyString => true
  | String c r => (isdigit_char c && all_digits r)%bool
  end.

Definition isdigit (s : string) : bool := (Str.truthy s && all_digits s)%bool.

(** [n in out] for a list of integers. *)
Fixpoint mem_int (n : Z) (l : list Z) : bool :=
  match l with
  | [] => false
  | m :: r => ((n =? m) || mem_int n r)%bool
  end.

(** [list(range(1, max_n + 1))] *)
Definition range_1_to (max_n : Z) : list Z :=
  List.map Z.of_nat (List.seq 1 (Z.to_nat max_n)).

(** [for n in nums: if n not in out: out.append(n)] *)
Fixpoint unique_ints (out : list Z) (nums : list Z) : list Z :=
  match nums with
  | [] => out
  | n :: r => unique_ints (if mem_int n out then out else List.app out [n]) r
  end.

Section Prompts.

(** [int(s)] for a string: the number, or [None] when it raises
    [ValueError] (not a decimal literal, or longer than the interpreter's
    limit on digits). *)
Variable int_of_str : string -> option Z.

Definition py_int (s : string) : IO Z :=
  match int_of_str s with
  | Some n => io_ret n
  | None => io_raise (ValueError "invalid literal for int() with base 10")
  end.

(** [choose_int], given the line that [input(prompt)] returned. *)
Definition choose_int (line : string) (default min_v max_v : Z) : Z :=
  let raw := strip_char "`" (Str.strip line) in
  if negb (Str.truthy raw) then default
  else
    match int_of_str raw with
    | None => default
    | Some n => Z.max min_v (Z.min max_v n)
    end.

(** [for part in r.split(",")], with [nums] as accumulator. *)
Fixpoint parts_loop (parts : list string) (max_n : Z) (nums : list Z)
  : IO (list Z) :=
  match parts with
  | [] => io_ret nums
  | part :: rest =>
      let p := Str.strip part in
      if negb (Str.truthy p) then parts_loop rest max_n nums
      else if isdigit p then
        (n <- py_int p ;;
         parts_loop rest max_n
           (if ((1 <=? n) && (n <=? max_n))%bool then List.app nums [n]
            else nums))%io
      else parts_loop rest max_n nums
  end.

Definition parse_selection (raw : string) (max_n : Z) : IO (list Z) :=
  let r := Str.lower (strip_char "`" (Str.strip raw)) in
  if String.eqb r "all" then io_ret (range_1_to max_n)
  else
    (nums <- parts_loop (Str.split "," r) max_n [] ;;
     io_ret (unique_ints [] nums))%io.

End Prompts.

(** [rows]: [enumerate(inv, start=1)] with the status of each item. *)
Fixpoint build_rows (i : Z) (inv : list SessionItem.t)
    (tmap : gmap string datetime) : list (Z * SessionItem.t * string) :=
  match inv with
  | [] => []
  | it :: rest => (i, it, status_for it tmap) :: build_rows (i + 1) rest tmap
  end.

(** [[n for (n, it, st) in rows if st in ("MissingInTarget",
    "NewerInSource")]] *)
Definition default_sel (rows : list (Z * SessionItem.t * string)) : list Z :=
  List.map (fun row => fst (fst row))
    (List.filter
       (fun row => Str.mem (snd row) ["MissingInTarget"; "NewerInSource"])
       rows).

Module SampleInt.

(** [int] on strings of ASCII digits (as far as the examples need it). *)
Fixpoint digits_value (acc : Z) (s : string) : option Z :=
  match s with
  | EmptyString => Some acc
  | String c r =>
      if Str.in_range 48 57 c
      then digits_value (10 * acc + Z.of_N (Str.code c - 48)) r
      else None
  end.

Definition int_of_str (s : string) : option Z :=
  match s with
  | EmptyString => None
  | _ => digits_value 0 s
  end.

End SampleInt.

(** A chat folder in which two files yield the identifier abc: s1.json
    (through its sessionId, modified at 5) and abc.jsonl (through its
    stem, modified at 7); log.jsonl is modified at 9, notes.txt is not a
    session file. *)
Module SampleChat.

Definition folder : list ChatEntry :=
  [ {| ce_name := "s1.json";
       ce_file := Some (Demo.text_file Sample.titled_text 5) |};
    {| ce_name := "log.jsonl"; ce_file := Some (Demo.text_file "x" 9) |};
    {| ce_name := "notes.txt"; ce_file := Some (Demo.text_file "x" 8) |};
    {| ce_name := "abc.jsonl"; ce_file := Some (Demo.text_file "x" 7) |} ].

Definition storage : Storage :=
  Demo.storage
    [ {| re_name := "h1";
         re_dir := Some {| hd_workspace_json := None;
                           hd_state_vscdb := None;
                           hd_chatSessions := ChatEntries folder |} |} ].

End SampleChat.

(** ** Index Builder: [build_index] *)

Module IndexEntry.
Record t := mk {
  sessionId : string;
  title : string;
  lastMessageDate : Z;
  isEmpty : bool;
  isExternal : bool
}.
End IndexEntry.

(** [{"version": ..., "entries": ...}] *)
Record Index := { version : Z; entries : gmap string IndexEntry.t }.

(** [s.endswith(sfx)] *)
Fixpoint endswith (sfx s : string) : bool :=
  (String.eqb sfx s ||
   match s with
   | EmptyString => false
   | String _ r => endswith sfx r
   end)%bool.

(** The entries [chat_dir.glob("*" + sfx)] yields: the names that end with
    [sfx], letter case respected. *)
Definition glob_suffix (sfx : string) (es : list ChatEntry) : list ChatEntry :=
  List.filter (fun e => endswith sfx (ce_name e)) es.

(** [sorted(...)] on paths of one directory: by name, stable. *)
Fixpoint insert_by_name (e : ChatEntry) (l : list ChatEntry) : list ChatEntry :=
  match l with
  | [] => [e]
  | y :: r =>
      if String.leb (ce_name e) (ce_name y) then e :: l
      else y :: insert_by_name e r
  end.

Fixpoint sorted_by_name (l : list ChatEntry) : list ChatEntry :=
  match l with
  | [] => []
  | e :: r => insert_by_name e (sorted_by_name r)
  end.

(** [p.read_text(encoding="utf-8")] for an entry of the folder: what is not
    a regular file cannot be read. *)
Definition entry_read_utf8 (p : Path.t) (e : ChatEntry) : IO string :=
  match ce_file e with
  | Some f => file_read_utf8 p f
  | None => ([OpReadText (Path.str p)], inl (OSError "cannot read"))
  end.

(** The title loop of [build_index], starting from [title]. *)
Fixpoint index_title (obj : list (string * json)) (keys : list string)
    (title : string) : string :=
  match keys with
  | [] => title
  | k :: rest =>
      match dict_get obj k with
      | JStr v => if Str.truthy (Str.strip v) then Str.strip v
                  else index_title obj rest title
      | _ => index_title obj rest title
      end
  end.

Section BuildIndex.

Variable json_loads : string -> exn + json.

(** The inner function [file_mtime_ms]: [int(p.stat().st_mtime * 1000)],
    and 0 when [stat] raises. *)
Variable file_mtime_ms : Path.t -> Z.

(** One turn of the loop over the *.json files: the key and the entry
    stored under it. *)
Definition index_json_file (chat_dir : Path.t) (e : ChatEntry)
  : IO (string * IndexEntry.t) :=
  let p := Path.child chat_dir (ce_name e) in
  let session_id := Path.stem p in
  let last_ms := file_mtime_ms p in
  let title := "New Chat" in
  let is_empty := false in
  (parsed <-
     io_try
       (text <- entry_read_utf8 p e ;;
        obj <- loads json_loads text ;;
        match obj with
        | JDict obj =>
            let session_id :=
              match dict_get obj "sessionId" with
              | JStr sid => if Str.truthy sid then sid else session_id
              | _ => session_id
              end in
            let title :=
              index_title obj ["customTitle"; "title"; "computedTitle"] title in
            let is_empty :=
              match dict_get obj "requests" with
              | JList reqs => Nat.eqb (List.length reqs) 0
              | _ => is_empty
              end in
            io_ret (session_id, title, is_empty)
        | _ => io_ret (session_id, title, is_empty)
        end)
       (fun _ => io_ret (session_id, title, is_empty)) ;;
   let '(session_id, title, is_empty) := parsed in
   io_ret (session_id,
           IndexEntry.mk session_id title last_ms is_empty false))%io.

Fixpoint index_json_loop (chat_dir : Path.t) (es : list ChatEntry)
    (entries : gmap string IndexEntry.t) : IO (gmap string IndexEntry.t) :=
  match es with
  | [] => io_ret entries
  | e :: rest =>
      (kv <- index_json_file chat_dir e ;;
       index_json_loop chat_dir rest (<[fst kv := snd kv]> entries))%io
  end.

(** The entry stored for a *.jsonl file whose stem is not yet a key. *)
Definition index_jsonl_entry (chat_dir : Path.t) (e : ChatEntry)
  : IndexEntry.t :=
  let p := Path.child chat_dir (ce_name e) in
  IndexEntry.mk (Path.stem p) "New Chat" (file_mtime_ms p) false false.

Fixpoint index_jsonl_loop (chat_dir : Path.t) (es : list ChatEntry)
    (entries : gmap string IndexEntry.t) : gmap string IndexEntry.t :=
  match es with
  | [] => entries
  | e :: rest =>
      let session_id := Path.stem (Path.child chat_dir (ce_name e)) in
      match entries !! session_id with
      | Some _ => index_jsonl_loop chat_dir rest entries
      | None =>
          index_jsonl_loop chat_dir rest
            (<[session_id := index_jsonl_entry chat_dir e]> entries)
      end
  end.

(** [build_index(chat_dir)], [es] being the content of the folder. *)
Definition build_index (chat_dir : Path.t) (es : list ChatEntry) : IO Index :=
  (entries <- index_json_loop chat_dir
                (sorted_by_name (glob_suffix ".json" es)) ∅ ;;
   io_ret {| version := 1;
             entries := index_jsonl_loop chat_dir
                          (sorted_by_name (glob_suffix ".jsonl" es)) entries |})%io.

End BuildIndex.

(** The key and entry a *.json file is indexed under. *)
Definition index_json_binding (json_loads : string -> exn + json)
    (file_mtime_ms : Path.t -> Z) (chat_dir : Path.t) (e : ChatEntry)
  : option (string * IndexEntry.t) :=
  match outcome (index_json_file json_loads file_mtime_ms chat_dir e) with
  | inr kv => Some kv
  | inl _ => None
  end.

Definition index_json_bindings (json_loads : string -> exn + json)
    (file_mtime_ms : Path.t -> Z) (chat_dir : Path.t) (es : list ChatEntry)
  : list (string * IndexEntry.t) :=
  List.flat_map
    (fun e => match index_json_binding json_loads file_mtime_ms chat_dir e with
              | Some kv => [kv]
              | None => []
              end)
    (sorted_by_name (glob_suffix ".json" es)).

Module SampleIndex.

(** Session documents with an empty and a non-empty request list. *)
Definition empty_text : string :=
  "{" ++ Demo.quoted "sessionId" ++ ": " ++ Demo.quoted "abc" ++ ", "
      ++ Demo.quoted "requests" ++ ": []}".
Definition busy_text : string :=
  "{" ++ Demo.quoted "requests" ++ ": [1]}".

Definition json_loads (text : string) : exn + json :=
  if String.eqb text empty_text
  then inr (JDict [("sessionId", JStr "abc"); ("requests", JList [])])
  else if String.eqb text busy_text
  then inr (JDict [("requests", JList [JInt 1])])
  else inl (ValueError "Expecting value").

Definition folder : list ChatEntry :=
  [ {| ce_name := "s2.json"; ce_file := Some (Demo.text_file busy_text 9) |};
    {| ce_name := "abc.jsonl"; ce_file := Some (Demo.text_file "x" 8) |};
    {| ce_name := "s1.json"; ce_file := Some (Demo.text_file empty_text 7) |};
    {| ce_name := "notes.txt"; ce_file := Some (Demo.text_file "x" 6) |};
    {| ce_name := "log.jsonl"; ce_file := Some (Demo.text_file "x" 5) |} ].

Definition mtime_ms (p : Path.t) : Z := Z.of_nat (String.length (Path.name p)).

End SampleIndex.

(** ** Markdown export: the inner function [walk] *)

Definition export_keys : list string :=
  ["text"; "value"; "content"; "message"; "prompt"; "response"].

(** The two variables [walk] updates: the set [seen] and the list
    [chunks]. *)
Definition walk_state : Type := (gset string * list string)%type.

(** [t = v.strip(); if t and t not in seen: seen.add(t); chunks.append(t)] *)
Definition add_chunk (v : string) (st : walk_state) : walk_state :=
  let t := Str.strip v in
  if (Str.truthy t && negb (bool_decide (t ∈ fst st)))%bool
  then ({[ t ]} ∪ fst st, (snd st ++ [t])%list)
  else st.

Fixpoint walk (x : json) (st : walk_state) : walk_state :=
  match x with
  | JDict d =>
      (fix items (d : list (string * json)) (st : walk_state) : walk_state :=
         match d with
         | [] => st
         | (k, v) :: r =>
             items r
               (if Str.mem k export_keys then
                  match v with
                  | JStr s => add_chunk s st
                  | _ => walk v st
                  end
                else walk v st)
         end) d st
  | JList l =>
      (fix elems (l : list json) (st : walk_state) : walk_state :=
         match l with
         | [] => st
         | it :: r => elems r (walk it st)
         end) l st
  | _ => st
  end.

(** One turn of [for k, v in x.items()]. *)
Definition walk_item (kv : string * json) (st : walk_state) : walk_state :=
  if Str.mem (fst kv) export_keys then
    match snd kv with
    | JStr s => add_chunk s st
    | _ => walk (snd kv) st
    end
  else walk (snd kv) st.

(** [chunks] after [walk(obj)]. *)
Definition export_chunks (obj : json) : list string :=
  snd (walk obj (∅, [])).

(** A string value sits in [x] under one of the exported keys, at any
    depth of objects and arrays. *)
Inductive text_at : json -> string -> Prop :=
| text_at_key (d : list (string * json)) (k s : string) :
    List.In (k, JStr s) d -> Str.mem k export_keys = true ->
    text_at (JDict d) s
| text_at_dict (d : list (string * json)) (k : string) (v : json) (s : string) :
    List.In (k, v) d -> text_at v s -> text_at (JDict d) s
| text_at_list (l : list json) (it : json) (s : string) :
    List.In it l -> text_at it s -> text_at (JList l) s.

(** What [walk] keeps true of [seen] and [chunks]. *)
Definition walk_inv (st : walk_state) : Prop :=
  (forall t, t ∈ fst st <-> List.In t (snd st)) /\
  List.NoDup (snd st) /\
  (forall t, List.In t (snd st) -> t <> "" /\ Str.strip t = t).

Module SampleExport.

(** [{"requests": [{"message": {"text": " hi "}, "response": [{"value": "hi"},
    {"value": "ok"}]}], "prompt": ""}] *)
Definition doc : json :=
  JDict [("requests",
          JList [JDict [("message", JDict [("text", JStr " hi ")]);
                        ("response", JList [JDict [("value", JStr "hi")];
                                            JDict [("value", JStr "ok")]])]]);
         ("prompt", JStr "")].

End SampleExport.

(** * Properties *)

(** ** The [IO] monad *)

Lemma outcome_bind {A B} (m : IO A) (f : A -> IO B) :
  outcome (io_bind m f) =
  match outcome m with
  | inl e => inl e
  | inr a => outcome (f a)
  end.
Proof.
  destruct m as [t [e | a]]; simpl; [reflexivity |].
  destruct (f a) as [t' r]; reflexivity.
Qed.

Lemma outcome_try {A} (m : IO A) (h : exn -> IO A) :
  outcome (io_try m h) =
  match outcome m with
  | inl e => outcome (h e)
  | inr a => inr a
  end.
Proof.
  destruct m as [t [e | a]]; simpl; [| reflexivity].
  destruct (h e) as [t' r]; reflexivity.
Qed.

Lemma outcome_log {A} (o : fs_op) (a : A) : outcome (io_log o a) = inr a.
Proof. reflexivity. Qed.

Lemma outcome_ret {A} (a : A) : outcome (io_ret a) = inr a.
Proof. reflexivity. Qed.

Lemma outcome_raise {A} (e : exn) : outcome (@io_raise A e) = inl e.
Proof. reflexivity. Qed.

Lemma outcome_pair {A} (t : list fs_op) (r : exn + A) : outcome (t, r) = r.
Proof. reflexivity. Qed.

Ltac io_simpl :=
  repeat (first [ rewrite outcome_bind | rewrite outcome_try
                | rewrite outcome_log | rewrite outcome_ret
                | rewrite outcome_raise | rewrite outcome_pair ]).

(** Case analysis on the calls that may raise, outermost first. *)
Ltac io_cases :=
  repeat (io_simpl;
          match goal with
          | |- context [match ?x with inl _ => _ | inr _ => _ end] =>
              lazymatch x with
              | context [match _ with inl _ => _ | inr _ => _ end] => fail
              | _ => destruct x eqn:?
              end
          end).

(** ** Reconciliation Engine *)

(** C1: [status_for] gives every source item exactly one of the three
    decisions: "MissingInTarget" iff the session identifier is not a key of
    the destination map, "NewerInSource" iff it is a key and the item's
    updated time is strictly greater than the mapped time, "AlreadyInTarget"
    iff it is a key and the updated time is not greater. *)
Theorem status_for_exhaustive_exclusive
    (item : SessionItem.t) (target_map : gmap string datetime) :
  let sid := SessionItem.session_id item in
  let u := SessionItem.updated item in
  let s := status_for item target_map in
  (s = "MissingInTarget" <-> target_map !! sid = None) /\
  (s = "NewerInSource" <-> exists t, target_map !! sid = Some t /\ t < u) /\
  (s = "AlreadyInTarget" <->
     exists t, target_map !! sid = Some t /\ ~ t < u) /\
  ((s = "MissingInTarget" /\ s <> "NewerInSource" /\ s <> "AlreadyInTarget") \/
   (s = "NewerInSource" /\ s <> "MissingInTarget" /\ s <> "AlreadyInTarget") \/
   (s = "AlreadyInTarget" /\ s <> "MissingInTarget" /\ s <> "NewerInSource")).
Proof.
  intros sid u s. subst s. unfold status_for. fold sid. fold u.
  destruct (target_map !! sid) as [t |] eqn:Hlk.
  - destruct (Z.ltb_spec t u) as [Hlt | Hge].
    + repeat split; try discriminate.
      * intros _. exists t. split; [reflexivity | exact Hlt].
      * intros [t' [Ht' Hn]]. injection Ht' as <-. contradiction.
      * right; left. repeat split; discriminate.
    + repeat split; try discriminate.
      * intros [t' [Ht' Hl]]. injection Ht' as <-. lia.
      * intros _. exists t. split; [reflexivity | lia].
      * right; right. repeat split; discriminate.
  - repeat split; try discriminate.
    + intros [t [Ht _]]. discriminate.
    + intros [t [Ht _]]. discriminate.
    + left. repeat split; discriminate.
Qed.

(** ** The stable descending sort *)

Section SortReverse.

Context {A : Type} (key : A -> Z).


Lemma insert_reverse_perm (x : A) (l : list A) :
  Permutation (x :: l) (insert_reverse key x l).
Proof.
  induction l as [| y r IH]; simpl.
  - apply Permutation_refl.
  - destruct (key x <? key y).
    + eapply perm_trans; [apply perm_swap |]. apply perm_skip, IH.
    + apply Permutation_refl.
Qed.

Lemma sort_reverse_perm (l : list A) : Permutation l (sort_reverse key l).
Proof.
  induction l as [| x r IH]; simpl.
  - apply perm_nil.
  - eapply perm_trans; [apply perm_skip, IH | apply insert_reverse_perm].
Qed.

Lemma insert_reverse_sorted (x : A) (l : list A) :
  StronglySorted (ge_key key) l ->
  StronglySorted (ge_key key) (insert_reverse key x l).
Proof.
  induction 1 as [| y r Hs IH Hall]; simpl.
  - constructor; [constructor | constructor].
  - destruct (Z.ltb_spec (key x) (key y)) as [Hlt | Hge].
    + constructor; [exact IH |].
      apply (Permutation_Forall (insert_reverse_perm x r)).
      constructor; [unfold ge_key; lia | exact Hall].
    + constructor; [constructor; assumption |].
      constructor; [exact Hge |].
      eapply List.Forall_impl; [| exact Hall].
      unfold ge_key. intros z Hz. lia.
Qed.

Lemma sort_reverse_sorted (l : list A) :
  StronglySorted (ge_key key) (sort_reverse key l).
Proof.
  induction l as [| x r IH]; simpl.
  - constructor.
  - apply insert_reverse_sorted, IH.
Qed.

Lemma insert_reverse_stable (k : Z) (x : A) (l : list A) :
  List.filter (fun y => key y =? k) (insert_reverse key x l) =
  List.filter (fun y => key y =? k) (x :: l).
Proof.
  induction l as [| y r IH]; [reflexivity |].
  cbn [insert_reverse].
  destruct (Z.ltb_spec (key x) (key y)) as [Hlt | Hge]; [| reflexivity].
  cbn [List.filter] in *. rewrite IH.
  destruct (Z.eqb_spec (key x) k) as [Hx | Hx];
    destruct (Z.eqb_spec (key y) k) as [Hy | Hy]; try reflexivity.
  lia.
Qed.

Lemma sort_reverse_stable (k : Z) (l : list A) :
  List.filter (fun y => key y =? k) (sort_reverse key l) =
  List.filter (fun y => key y =? k) l.
Proof.
  induction l as [| x r IH]; [reflexivity |].
  cbn [sort_reverse]. rewrite insert_reverse_stable.
  cbn [List.filter]. rewrite IH. reflexivity.
Qed.

Lemma sorted_after (l1 l2 : list A) (x : A) :
  StronglySorted (ge_key key) (l1 ++ x :: l2) -> Forall (ge_key key x) l2.
Proof.
  induction l1 as [| y r IH]; simpl; intros Hs.
  - inversion Hs; assumption.
  - inversion Hs; subst. apply IH. assumption.
Qed.

Lemma sorted_not_precedes (a b : A) (l : list A) :
  StronglySorted (ge_key key) l -> key b < key a -> ~ precedes b a l.
Proof.
  intros Hs Hlt (l1 & l2 & l3 & ->).
  apply sorted_after in Hs. rewrite List.Forall_forall in Hs.
  assert (Ha : ge_key key b a).
  { apply Hs. apply in_or_app. right. left. reflexivity. }
  unfold ge_key in Ha. lia.
Qed.

Lemma sorted_precedes (a b : A) (l : list A) :
  StronglySorted (ge_key key) l -> In a l -> In b l -> key b < key a ->
  precedes a b l /\ ~ precedes b a l.
Proof.
  intros Hs Ha Hb Hlt. split; [| apply sorted_not_precedes; assumption].
  destruct (in_split _ _ Ha) as (l1 & l2 & ->).
  apply in_app_or in Hb. destruct Hb as [Hb | [Hb | Hb]].
  - exfalso. destruct (in_split _ _ Hb) as (m1 & m2 & ->).
    apply (sorted_not_precedes a b _ Hs Hlt).
    exists m1, m2, l2. rewrite <- app_assoc. reflexivity.
  - subst b. lia.
  - destruct (in_split _ _ Hb) as (m1 & m2 & ->).
    exists l1, m1, m2. reflexivity.
Qed.

End SortReverse.

(** ** Hash Scanner *)

Lemma name_child (root : Path.t) (n : string) : Path.name (Path.child root n) = n.
Proof. unfold Path.name, Path.child; simpl. apply List.last_last. Qed.

Lemma read_text_best_effort_outcome (p : Path.t) (f : File) :
  outcome (read_text_best_effort p f) = inr (raw_text f).
Proof.
  unfold read_text_best_effort, raw_text, file_read_utf8, file_read_ignore.
  rewrite outcome_try. simpl. destruct (utf8 f); reflexivity.
Qed.

Lemma count_files_outcome (chat_dir : Path.t) (es : list ChatEntry) :
  exists n, outcome (count_files chat_dir es) = inr n.
Proof.
  induction es as [| e r [n IH]].
  - exists 0. reflexivity.
  - cbn [count_files]. io_simpl. rewrite IH. io_simpl. eexists. reflexivity.
Qed.

Lemma chat_files_of_outcome (chat_dir : Path.t) (cd : ChatDir) :
  exists n, outcome (chat_files_of chat_dir cd) = inr n.
Proof.
  destruct cd as [| | es]; cbn [chat_files_of].
  - exists 0. reflexivity.
  - exists 0. reflexivity.
  - io_simpl. destruct (count_files_outcome chat_dir es) as [n Hn].
    rewrite Hn. exists n. reflexivity.
Qed.

Lemma state_db_mtime_of_outcome (state_db : Path.t) (db : option Z) :
  outcome (state_db_mtime_of state_db db) = inr (option_map dt_from_ts db).
Proof. destruct db; reflexivity. Qed.

Lemma needle_loop_filter (needles : list string) (content_low : string) :
  needle_loop (List.filter nonblank needles) content_low =
  List.existsb
    (fun n => (nonblank n && Str.contains (Str.lower n) content_low)%bool)
    needles.
Proof.
  induction needles as [| n r IH]; [reflexivity |].
  cbn [List.filter List.existsb].
  destruct (nonblank n); cbn [needle_loop andb orb]; [| exact IH].
  rewrite IH. destruct (Str.contains (Str.lower n) content_low); reflexivity.
Qed.

(** A turn of the scan never raises; it yields a hit exactly for a
    directory whose descriptor matches, and the hit carries the entry's
    name and its database time. *)
Lemma scan_one_spec (root : Path.t) (needles2 : list string) (e : RootEntry) :
  outcome (scan_one root needles2 e) = inr (scan_hit root needles2 e) /\
  match re_dir e with
  | Some hd =>
      match hd_workspace_json hd with
      | Some wj =>
          if needle_loop needles2 (Str.lower (raw_text wj)) then
            exists h, scan_hit root needles2 e = Some h /\
                      HashInfo.hash h = re_name e /\
                      HashInfo.state_db_mtime h =
                        option_map dt_from_ts (hd_state_vscdb hd)
          else scan_hit root needles2 e = None
      | None => scan_hit root needles2 e = None
      end
  | None => scan_hit root needles2 e = None
  end.
Proof.
  unfold scan_hit, scan_one.
  destruct (re_dir e) as [hd |]; [| split; reflexivity].
  destruct (hd_workspace_json hd) as [wj |]; [| split; reflexivity].
  io_simpl. rewrite read_text_best_effort_outcome.
  destruct (needle_loop needles2 (Str.lower (raw_text wj))); cbn [negb];
    [| split; reflexivity].
  io_simpl.
  destruct (chat_files_of_outcome
              (Path.div (Path.child root (re_name e)) "chatSessions")
              (hd_chatSessions hd)) as [n Hn].
  rewrite state_db_mtime_of_outcome. io_simpl. rewrite Hn. io_simpl.
  split; [reflexivity |]. eexists. split; [reflexivity |].
  split; [apply name_child | reflexivity].
Qed.

Lemma scan_one_outcome (root : Path.t) (needles2 : list string) (e : RootEntry) :
  outcome (scan_one root needles2 e) = inr (scan_hit root needles2 e).
Proof. apply scan_one_spec. Qed.

Lemma scan_outcome (root : Path.t) (needles2 : list string)
    (ds : list RootEntry) (hits : list HashInfo.t) :
  outcome (scan root needles2 ds hits) =
  inr (hits ++ scan_hits root needles2 ds)%list.
Proof.
  revert hits. induction ds as [| d r IH]; intros hits.
  - cbn [scan scan_hits List.flat_map]. rewrite List.app_nil_r. reflexivity.
  - cbn [scan scan_hits List.flat_map]. io_simpl.
    rewrite scan_one_outcome, IH.
    destruct (scan_hit root needles2 d) as [h |].
    + rewrite <- List.app_assoc. reflexivity.
    + reflexivity.
Qed.

Lemma has_nonblank (needles : list string) :
  List.existsb nonblank needles = true -> List.filter nonblank needles <> [].
Proof.
  induction needles as [| n r IH]; [discriminate |].
  cbn [List.existsb List.filter]. destruct (nonblank n); [discriminate |].
  exact IH.
Qed.

Lemma find_hashes_outcome (ws : Storage) (needles : list string) :
  List.existsb nonblank needles = true ->
  outcome (find_hashes_by_needles ws needles) =
  inr (sort_reverse rank_key
         (scan_hits (st_root ws) (List.filter nonblank needles) (st_entries ws))).
Proof.
  intros H. apply has_nonblank in H. unfold find_hashes_by_needles.
  destruct (List.filter nonblank needles) as [| n r] eqn:E; [contradiction |].
  io_simpl. rewrite scan_outcome. io_simpl. reflexivity.
Qed.

Lemma scan_hit_matches (root : Path.t) (needles : list string) (e : RootEntry) :
  if entry_matches needles e then
    exists h hd, scan_hit root (List.filter nonblank needles) e = Some h /\
                 re_dir e = Some hd /\
                 HashInfo.hash h = re_name e /\
                 HashInfo.state_db_mtime h =
                   option_map dt_from_ts (hd_state_vscdb hd)
  else scan_hit root (List.filter nonblank needles) e = None.
Proof.
  destruct (scan_one_spec root (List.filter nonblank needles) e) as [_ H].
  unfold entry_matches.
  destruct (re_dir e) as [hd |]; [| exact H].
  destruct (hd_workspace_json hd) as [wj |]; [| exact H].
  rewrite needle_loop_filter in H.
  destruct (List.existsb _ needles); [| exact H].
  destruct H as (h & H1 & H2 & H3). exists h, hd. auto.
Qed.

Lemma scan_hits_names (root : Path.t) (needles : list string)
    (ds : list RootEntry) :
  List.map HashInfo.hash (scan_hits root (List.filter nonblank needles) ds) =
  List.map re_name (List.filter (entry_matches needles) ds).
Proof.
  induction ds as [| e r IH]; [reflexivity |].
  cbn [scan_hits List.flat_map List.filter].
  pose proof (scan_hit_matches root needles e) as H.
  destruct (entry_matches needles e).
  - destruct H as (h & hd & -> & _ & Hn & _).
    cbn [List.app List.map]. rewrite Hn. f_equal. exact IH.
  - rewrite H. exact IH.
Qed.

Lemma in_scan_hits (root : Path.t) (needles2 : list string)
    (ds : list RootEntry) (h : HashInfo.t) :
  In h (scan_hits root needles2 ds) <->
  exists e, In e ds /\ scan_hit root needles2 e = Some h.
Proof.
  unfold scan_hits. rewrite List.in_flat_map. split.
  - intros (e & He & Hh). exists e. split; [exact He |].
    destruct (scan_hit root needles2 e) as [h' |]; [| destruct Hh].
    destruct Hh as [-> | []]. reflexivity.
  - intros (e & He & Hh). exists e. split; [exact He |].
    rewrite Hh. left. reflexivity.
Qed.

Lemma entry_matches_iff (needles : list string) (e : RootEntry) :
  entry_matches needles e = true <->
  exists hd wj n,
    re_dir e = Some hd /\ hd_workspace_json hd = Some wj /\
    In n needles /\ nonblank n = true /\
    Str.contains (Str.lower n) (Str.lower (raw_text wj)) = true.
Proof.
  unfold entry_matches. split.
  - destruct (re_dir e) as [hd |]; [| discriminate].
    destruct (hd_workspace_json hd) as [wj |] eqn:Ewj; [| discriminate].
    intros H. apply List.existsb_exists in H. destruct H as (n & Hn & Hb).
    apply andb_prop in Hb. destruct Hb as [Hb1 Hb2].
    exists hd, wj, n.
    split; [reflexivity |]. split; [exact Ewj |]. auto.
  - intros (hd & wj & n & -> & -> & Hn & Hb1 & Hb2).
    apply List.existsb_exists. exists n. split; [exact Hn |].
    rewrite Hb1, Hb2. reflexivity.
Qed.

(** C9: with an empty needle list [find_hashes_by_needles] raises
    [ValueError] to its caller instead of returning, and it does so before
    any file-system operation: nothing is scanned. *)
Theorem find_hashes_empty_needles_raises (ws : Storage) :
  outcome (find_hashes_by_needles ws []) = inl (ValueError "No needles") /\
  trace (find_hashes_by_needles ws []) = [].
Proof. split; reflexivity. Qed.

(** The same holds whenever every needle is blank. *)
Lemma find_hashes_blank_needles_raise (ws : Storage) (needles : list string) :
  List.existsb nonblank needles = false ->
  find_hashes_by_needles ws needles = ([], inl (ValueError "No needles")).
Proof.
  intros H. unfold find_hashes_by_needles.
  assert (E : List.filter nonblank needles = []).
  { induction needles as [| n r IH]; [reflexivity |].
    cbn [List.existsb List.filter] in *.
    destruct (nonblank n); [discriminate |]. apply IH, H. }
  rewrite E. reflexivity.
Qed.

(** C3, as the code has it: given at least one non-blank needle, the call
    returns, and the hash directories returned are exactly the root entries
    that are directories holding a descriptor file whose raw text contains,
    ignoring case, at least one of the NON-BLANK needles (blank needles are
    dropped before matching); every returned directory has a descriptor
    file. *)
Theorem find_hashes_exactly_matching (ws : Storage) (needles : list string) :
  List.existsb nonblank needles = true ->
  exists hits,
    outcome (find_hashes_by_needles ws needles) = inr hits /\
    Permutation (List.map HashInfo.hash hits)
      (List.map re_name (List.filter (entry_matches needles) (st_entries ws))) /\
    (forall h, In h hits ->
       exists e hd wj n,
         In e (st_entries ws) /\ re_name e = HashInfo.hash h /\
         re_dir e = Some hd /\ hd_workspace_json hd = Some wj /\
         In n needles /\ nonblank n = true /\
         Str.contains (Str.lower n) (Str.lower (raw_text wj)) = true) /\
    (forall e hd wj n,
       In e (st_entries ws) -> re_dir e = Some hd ->
       hd_workspace_json hd = Some wj ->
       In n needles -> nonblank n = true ->
       Str.contains (Str.lower n) (Str.lower (raw_text wj)) = true ->
       exists h, In h hits /\ HashInfo.hash h = re_name e).
Proof.
  intros Hn.
  set (scanned := scan_hits (st_root ws) (List.filter nonblank needles)
                    (st_entries ws)).
  exists (sort_reverse rank_key scanned).
  split; [apply find_hashes_outcome, Hn |].
  assert (Hp : Permutation scanned (sort_reverse rank_key scanned))
    by apply sort_reverse_perm.
  split; [| split].
  - rewrite <- (scan_hits_names (st_root ws) needles (st_entries ws)).
    apply Permutation_sym, Permutation_map, Hp.
  - intros h Hh.
    apply (Permutation_in _ (Permutation_sym Hp)) in Hh.
    apply in_scan_hits in Hh. destruct Hh as (e & He & Hs).
    pose proof (scan_hit_matches (st_root ws) needles e) as Hm.
    destruct (entry_matches needles e) eqn:Em.
    + destruct Hm as (h' & hd' & Hs' & _ & Hname & _).
      rewrite Hs in Hs'. injection Hs' as <-.
      apply entry_matches_iff in Em.
      destruct Em as (hd & wj & n & H1 & H2 & H3 & H4 & H5).
      exists e, hd, wj, n. repeat split; auto.
    + rewrite Hm in Hs. discriminate.
  - intros e hd wj n He H1 H2 H3 H4 H5.
    assert (Em : entry_matches needles e = true).
    { apply entry_matches_iff. exists hd, wj, n. auto. }
    pose proof (scan_hit_matches (st_root ws) needles e) as Hm.
    rewrite Em in Hm. destruct Hm as (h & _ & Hs & _ & Hname & _).
    exists h. split; [| exact Hname].
    apply (Permutation_in _ Hp). apply in_scan_hits. exists e. auto.
Qed.

Lemma find_hashes_exactly_matching_witness :
  List.existsb nonblank [" "; "foo"] = true /\
  exists hits,
    outcome (find_hashes_by_needles Demo.two_hashes [" "; "foo"]) = inr hits /\
    Permutation (List.map HashInfo.hash hits) ["A"; "B"].
Proof.
  split; [reflexivity |].
  destruct (find_hashes_exactly_matching Demo.two_hashes [" "; "foo"] eq_refl)
    as (hits & H1 & H2 & _).
  exists hits. split; [exact H1 | exact H2].
Defined.

(** C3 as stated fails: with needles [" "; "foo"] the descriptor text "a b"
    contains the needle " ", yet the directory is not returned. *)
Lemma find_hashes_any_needle_counterexample :
  List.existsb nonblank [" "; "foo"] = true /\
  outcome (find_hashes_by_needles Demo.blank_match [" "; "foo"]) = inr [] /\
  exists e hd wj n,
    In e (st_entries Demo.blank_match) /\ re_dir e = Some hd /\
    hd_workspace_json hd = Some wj /\ In n [" "; "foo"] /\
    Str.contains (Str.lower n) (Str.lower (raw_text wj)) = true.
Proof.
  split; [reflexivity |]. split; [reflexivity |].
  eexists _, _, _, " ". split; [left; reflexivity |].
  split; [reflexivity |]. split; [reflexivity |].
  split; [left; reflexivity | reflexivity].
Qed.

(** ** Hash Ranker *)

Lemma not_precedes_swapped {A} (a b : A) : a <> b -> ~ precedes a b [b; a].
Proof.
  intros Hab (l1 & l2 & l3 & H).
  destruct l1 as [| x [| y l1]]; simpl in H.
  - injection H as H _. congruence.
  - injection H as _ H. destruct l2; discriminate.
  - injection H as _ _ H. destruct l1; discriminate.
Qed.

(** C2: the list [find_hashes_by_needles] returns is the list of matched
    hash directories in scan (directory iteration) order, stable-sorted by
    [state.vscdb] modification time, largest first, with an absent
    database counted as [datetime.min]: it is a permutation of the scanned
    hits, keys never increase along it, hits with equal keys keep their scan
    order, a hit with database time T1 stands before any hit with database
    time T2 < T1, and a hit without a database stands after every hit whose
    database time is a real time stamp (later than [datetime.min]). *)
Theorem find_hashes_sorted_by_db_mtime (ws : Storage) (needles : list string) :
  List.existsb nonblank needles = true ->
  exists scanned hits,
    outcome (scan (st_root ws) (List.filter nonblank needles)
               (st_entries ws) []) = inr scanned /\
    List.map HashInfo.hash scanned =
      List.map re_name (List.filter (entry_matches needles) (st_entries ws)) /\
    outcome (find_hashes_by_needles ws needles) = inr hits /\
    Permutation scanned hits /\
    StronglySorted (fun a b => rank_key b <= rank_key a) hits /\
    (forall k, List.filter (fun x => rank_key x =? k) hits =
               List.filter (fun x => rank_key x =? k) scanned) /\
    (forall h, HashInfo.state_db_mtime h = None -> rank_key h = datetime_min) /\
    (forall a b T1 T2,
       In a hits -> In b hits ->
       HashInfo.state_db_mtime a = Some T1 ->
       HashInfo.state_db_mtime b = Some T2 ->
       T2 < T1 -> precedes a b hits /\ ~ precedes b a hits) /\
    (forall a b T,
       In a hits -> In b hits ->
       HashInfo.state_db_mtime a = Some T ->
       HashInfo.state_db_mtime b = None ->
       datetime_min < T -> precedes a b hits /\ ~ precedes b a hits).
Proof.
  intros Hn.
  set (scanned := scan_hits (st_root ws) (List.filter nonblank needles)
                    (st_entries ws)).
  exists scanned, (sort_reverse rank_key scanned).
  pose proof (sort_reverse_sorted rank_key scanned) as Hs.
  split; [rewrite scan_outcome; reflexivity |].
  split; [apply scan_hits_names |].
  split; [apply find_hashes_outcome, Hn |].
  split; [apply sort_reverse_perm |].
  split; [exact Hs |].
  split; [intros k; apply sort_reverse_stable |].
  split; [intros h Hh; unfold rank_key; rewrite Hh; reflexivity |].
  split.
  - intros a b T1 T2 Ha Hb Hma Hmb Hlt.
    apply (sorted_precedes rank_key a b _ Hs Ha Hb).
    unfold rank_key. rewrite Hma, Hmb. exact Hlt.
  - intros a b T Ha Hb Hma Hmb Hlt.
    apply (sorted_precedes rank_key a b _ Hs Ha Hb).
    unfold rank_key. rewrite Hma, Hmb. exact Hlt.
Qed.

Lemma find_hashes_sorted_by_db_mtime_witness :
  List.existsb nonblank ["foo"] = true /\
  exists hits,
    outcome (find_hashes_by_needles Demo.three_hashes ["foo"]) = inr hits /\
    List.map HashInfo.hash hits = ["B"; "A"; "C"].
Proof.
  split; [reflexivity |].
  destruct (find_hashes_sorted_by_db_mtime Demo.three_hashes ["foo"] eq_refl)
    as (scanned & hits & _ & _ & H & _).
  exists hits. split; [exact H |].
  assert (E : inr hits = outcome (find_hashes_by_needles Demo.three_hashes ["foo"]))
    by (symmetry; exact H).
  vm_compute in E. injection E as ->. reflexivity.
Defined.

Lemma scan_hit_retime (g : string -> Z) (root : Path.t)
    (needles2 : list string) (e : RootEntry) :
  scan_hit root needles2 (retime_entry g e) = scan_hit root needles2 e.
Proof.
  destruct e as [n [[[wj |] db cd] |]]; reflexivity.
Qed.

Lemma scan_hits_retime (g : string -> Z) (root : Path.t)
    (needles2 : list string) (ds : list RootEntry) :
  scan_hits root needles2 (List.map (retime_entry g) ds) =
  scan_hits root needles2 ds.
Proof.
  induction ds as [| e r IH]; [reflexivity |].
  cbn [List.map scan_hits List.flat_map]. rewrite scan_hit_retime.
  f_equal. exact IH.
Qed.

(** C4, as the code has it: the ranker orders the matched hash directories
    by the database time each of them records (the [datetime] the scanner
    derived from the modification time of [state.vscdb]), most recent
    first: of two returned directories that both record a database time,
    the one recording the later time stands first.  Every matched
    directory is returned, with the time derived from its own database.
    The modification time of the descriptor [workspace.json] plays no
    part: changing the descriptors' times leaves the result unchanged. *)
Theorem ranker_orders_by_database_time (ws : Storage) (needles : list string) :
  List.existsb nonblank needles = true ->
  exists hits,
    outcome (find_hashes_by_needles ws needles) = inr hits /\
    (forall g, outcome (find_hashes_by_needles (retime_descriptors g ws) needles)
               = inr hits) /\
    (forall h1 h2 d1 d2,
       In h1 hits -> In h2 hits ->
       HashInfo.state_db_mtime h1 = Some d1 ->
       HashInfo.state_db_mtime h2 = Some d2 ->
       d2 < d1 ->
       precedes h1 h2 hits /\ ~ precedes h2 h1 hits) /\
    (forall e hd,
       In e (st_entries ws) -> entry_matches needles e = true ->
       re_dir e = Some hd ->
       exists h,
         In h hits /\ HashInfo.hash h = re_name e /\
         HashInfo.state_db_mtime h =
           option_map dt_from_ts (hd_state_vscdb hd)).
Proof.
  intros Hn.
  set (scanned := scan_hits (st_root ws) (List.filter nonblank needles)
                    (st_entries ws)).
  exists (sort_reverse rank_key scanned).
  split; [apply find_hashes_outcome, Hn |]. split; [| split].
  - intros g. rewrite (find_hashes_outcome _ _ Hn).
    cbn [retime_descriptors st_root st_entries].
    rewrite scan_hits_retime. reflexivity.
  - intros h1 h2 d1 d2 Hin1 Hin2 Hd1 Hd2 Hlt.
    apply (sorted_precedes rank_key h1 h2 _
             (sort_reverse_sorted rank_key scanned) Hin1 Hin2).
    unfold rank_key. rewrite Hd1, Hd2. exact Hlt.
  - intros e hd He Hm Hd.
    pose proof (scan_hit_matches (st_root ws) needles e) as H.
    rewrite Hm in H. destruct H as (h & hd' & Hs & Hd' & Hname & Hmt).
    rewrite Hd in Hd'. injection Hd' as <-.
    exists h. split; [| split; [exact Hname | exact Hmt]].
    apply (Permutation_in _ (sort_reverse_perm rank_key scanned)).
    apply in_scan_hits. exists e. auto.
Qed.

Lemma ranker_orders_by_database_time_witness :
  List.existsb nonblank ["foo"] = true /\
  exists hits hA hB,
    outcome (find_hashes_by_needles Demo.two_hashes ["foo"]) = inr hits /\
    outcome (find_hashes_by_needles
               (retime_descriptors (fun _ => 7) Demo.two_hashes) ["foo"])
      = inr hits /\
    HashInfo.hash hA = "A" /\ HashInfo.hash hB = "B" /\
    HashInfo.state_db_mtime hA = Some (dt_from_ts 10) /\
    HashInfo.state_db_mtime hB = Some (dt_from_ts 20) /\
    precedes hB hA hits /\ ~ precedes hA hB hits.
Proof.
  split; [reflexivity |].
  destruct (ranker_orders_by_database_time Demo.two_hashes ["foo"] eq_refl)
    as (hits & H1 & H2 & H3 & H4).
  destruct (H4 (Demo.hash_dir "A" "x foo" 200 (Some 10)) _
              (or_introl eq_refl) eq_refl eq_refl)
    as (hA & HinA & HnA & HtA).
  destruct (H4 (Demo.hash_dir "B" "FOO" 100 (Some 20)) _
              (or_intror (or_introl eq_refl)) eq_refl eq_refl)
    as (hB & HinB & HnB & HtB).
  exists hits, hA, hB.
  split; [exact H1 |]. split; [apply H2 |].
  split; [exact HnA |]. split; [exact HnB |].
  split; [exact HtA |]. split; [exact HtB |].
  apply (H3 hB hA _ _ HinB HinA HtB HtA). reflexivity.
Defined.

(** C4 as stated fails: directory A has the more recently modified
    descriptor (200 against 100), yet B, whose database is newer, is
    returned first. *)
Lemma ranker_descriptor_recency_counterexample :
  exists eA eB hdA hdB wA wB hA hB,
    st_entries Demo.two_hashes = [eA; eB] /\
    re_dir eA = Some hdA /\ re_dir eB = Some hdB /\
    hd_workspace_json hdA = Some wA /\ hd_workspace_json hdB = Some wB /\
    st_mtime wB < st_mtime wA /\
    outcome (find_hashes_by_needles Demo.two_hashes ["foo"]) = inr [hB; hA] /\
    HashInfo.hash hA = re_name eA /\ HashInfo.hash hB = re_name eB /\
    ~ precedes hA hB [hB; hA].
Proof.
  do 8 eexists.
  split; [reflexivity |]. split; [reflexivity |]. split; [reflexivity |].
  split; [reflexivity |]. split; [reflexivity |]. split; [reflexivity |].
  split; [vm_compute; reflexivity |].
  split; [reflexivity |]. split; [reflexivity |].
  apply not_precedes_swapped. discriminate.
Qed.

(** ** Needle Builder *)

Lemma mem_In (x : string) (l : list string) : Str.mem x l = true <-> In x l.
Proof.
  induction l as [| y r IH]; simpl.
  - split; [discriminate | intros []].
  - rewrite orb_true_iff, IH, String.eqb_eq. split; intros [H | H]; auto.
Qed.

Lemma unique_from_spec (seen xs : list string) :
  List.NoDup (unique_from seen xs) /\
  forall x, In x (unique_from seen xs) ->
            In x xs /\ ~ In x seen /\ Str.truthy x = true.
Proof.
  revert seen. induction xs as [| v r IH]; intros seen; cbn [unique_from].
  - split; [constructor | intros x []].
  - destruct (Str.truthy v) eqn:Ht; cbn [andb].
    + destruct (Str.mem v seen) eqn:Hm; cbn [negb].
      * destruct (IH seen) as [Hnd Hin]. split; [exact Hnd |].
        intros x Hx. destruct (Hin x Hx) as (H1 & H2 & H3).
        split; [right; exact H1 | split; assumption].
      * destruct (IH (v :: seen)) as [Hnd Hin]. split.
        -- constructor; [| exact Hnd].
           intros Hv. destruct (Hin v Hv) as (_ & H2 & _).
           apply H2. left. reflexivity.
        -- intros x [<- | Hx].
           ++ split; [left; reflexivity |]. split; [| exact Ht].
              intros Hs. apply mem_In in Hs. congruence.
           ++ destruct (Hin x Hx) as (H1 & H2 & H3).
              split; [right; exact H1 |]. split; [| exact H3].
              intros Hs. apply H2. right. exact Hs.
    + destruct (IH seen) as [Hnd Hin]. split; [exact Hnd |].
      intros x Hx. destruct (Hin x Hx) as (H1 & H2 & H3).
      split; [right; exact H1 | split; assumption].
Qed.

Lemma unique_NoDup (xs : list string) : List.NoDup (unique xs).
Proof. apply unique_from_spec. Qed.

(** [win_uri_variants] touches no file, never raises, returns distinct
    variants, and for an absolute path the plain URI comes first. *)
Lemma win_uri_variants_spec (p : Path.t) :
  exists l,
    win_uri_variants p = ([], inr l) /\ List.NoDup l /\
    (Path.is_absolute p = true ->
     exists r, l = ("file://" ++ Path.quote (Path.str p)) :: r).
Proof.
  unfold win_uri_variants, Path.as_uri.
  destruct (Path.is_absolute p); cbn [io_bind io_try io_ret io_raise List.app];
    destruct (split_drive (Path.str p)) as [drive rest];
    eexists; (split; [reflexivity |]); (split; [apply unique_NoDup |]);
    intros H; try discriminate.
  destruct (Str.truthy drive); cbn; eexists; reflexivity.
Qed.

Lemma win_uri_variants_outcome (p : Path.t) :
  exists l, outcome (win_uri_variants p) = inr l.
Proof.
  destruct (win_uri_variants_spec p) as (l & H & _).
  exists l. rewrite H. reflexivity.
Qed.

Lemma folder_path_outcome (fs : FS) (workspace_file : Path.t)
    (f : list (string * json)) :
  resolve_total fs ->
  exists l, outcome (folder_path fs workspace_file f) = inr l.
Proof.
  intros Hres. unfold folder_path.
  destruct (dict_get f "path") as [| | | | path | |];
    try (exists []; reflexivity).
  destruct (Str.truthy (Str.strip path)); [| exists []; reflexivity].
  io_simpl.
  destruct (negb (Path.is_absolute (Path.of_str path))); unfold resolve;
    io_simpl.
  - destruct (Hres (Path.joinpath (Path.parent workspace_file)
                      (Path.of_str path))) as [r Hr].
    rewrite Hr. io_simpl. destruct (win_uri_variants_outcome r) as [l Hl].
    rewrite Hl. io_simpl. eexists. reflexivity.
  - destruct (win_uri_variants_outcome (Path.of_str path)) as [l Hl].
    rewrite Hl. io_simpl. eexists. reflexivity.
Qed.

Lemma folder_entry_outcome (fs : FS) (workspace_file : Path.t) (f : json) :
  resolve_total fs ->
  exists l, outcome (folder_entry fs workspace_file f) = inr l.
Proof.
  intros Hres.
  destruct f as [| | | | | | d]; try (exists []; reflexivity).
  cbn [folder_entry].
  destruct (dict_get d "uri") as [| | | | uri | |];
    try (apply folder_path_outcome; exact Hres).
  destruct (Str.truthy (Str.strip uri));
    [eexists; reflexivity | apply folder_path_outcome; exact Hres].
Qed.

Lemma folders_loop_outcome (fs : FS) (workspace_file : Path.t)
    (folders : list json) (needles : list string) :
  resolve_total fs ->
  exists l, outcome (folders_loop fs workspace_file folders needles) = inr l.
Proof.
  intros Hres. revert needles. induction folders as [| f r IH]; intros needles.
  - exists needles. reflexivity.
  - cbn [folders_loop]. io_simpl.
    destruct (folder_entry_outcome fs workspace_file f Hres) as [new Hnew].
    rewrite Hnew. apply IH.
Qed.

Lemma read_descriptor_outcome (fs : FS) (json_loads : string -> exn + json)
    (workspace_file : Path.t) :
  exists o, outcome (read_descriptor fs json_loads workspace_file) = inr o.
Proof.
  unfold read_descriptor, read_text_utf8, read_text_ignore, loads.
  io_cases; io_simpl; eexists; reflexivity.
Qed.

(** The outcome of [load_code_workspace_folders] in terms of what the
    descriptor read gave. *)
Lemma load_code_workspace_folders_cases
    (fs : FS) (json_loads : string -> exn + json) (workspace_file : Path.t)
    (o : option json) :
  outcome (read_descriptor fs json_loads workspace_file) = inr o ->
  outcome (load_code_workspace_folders fs json_loads workspace_file) =
  match o with
  | Some (JDict obj) =>
      match dict_get obj "folders" with
      | JList folders =>
          match outcome (folders_loop fs workspace_file folders []) with
          | inl e => inl e
          | inr l => inr (unique l)
          end
      | _ => inr []
      end
  | _ => inr []
  end.
Proof.
  intros Ho. unfold load_code_workspace_folders. io_simpl. rewrite Ho.
  destruct o as [[| | | | | | obj] |]; try reflexivity.
  destruct (dict_get obj "folders"); try reflexivity.
  io_simpl. destruct (outcome (folders_loop _ _ _ _)); reflexivity.
Qed.

(** Whatever [load_code_workspace_folders] returns has no repetition. *)
Lemma load_code_workspace_folders_NoDup
    (fs : FS) (json_loads : string -> exn + json) (workspace_file : Path.t)
    (needles : list string) :
  outcome (load_code_workspace_folders fs json_loads workspace_file)
    = inr needles ->
  List.NoDup needles.
Proof.
  destruct (read_descriptor_outcome fs json_loads workspace_file) as [o Ho].
  rewrite (load_code_workspace_folders_cases _ _ _ _ Ho).
  destruct o as [[| | | | | | obj] |];
    try (intros H; injection H as <-; constructor).
  destruct (dict_get obj "folders") as [| | | | | folders |];
    try (intros H; injection H as <-; constructor).
  destruct (outcome (folders_loop fs workspace_file folders []));
    [discriminate |].
  intros H. injection H as <-. apply unique_NoDup.
Qed.

(** Where path resolution cannot fail, [load_code_workspace_folders]
    raises nothing: unreadable or malformed files, documents that are not
    objects and missing or non-array "folders" give the empty list. *)
Lemma load_code_workspace_folders_spec
    (fs : FS) (json_loads : string -> exn + json) (workspace_file : Path.t) :
  resolve_total fs ->
  exists needles,
    outcome (load_code_workspace_folders fs json_loads workspace_file)
      = inr needles /\
    List.NoDup needles /\
    (forall e1 e2,
       outcome (text <- read_text_utf8 fs workspace_file ;;
                loads json_loads text)%io = inl e1 ->
       outcome (text <- read_text_ignore fs workspace_file ;;
                loads json_loads text)%io = inl e2 ->
       needles = []) /\
    (forall obj,
       outcome (read_descriptor fs json_loads workspace_file) = inr (Some obj) ->
       (forall d, obj <> JDict d) -> needles = []) /\
    (forall d,
       outcome (read_descriptor fs json_loads workspace_file)
         = inr (Some (JDict d)) ->
       (forall folders, dict_get d "folders" <> JList folders) -> needles = []).
Proof.
  intros Hres.
  destruct (read_descriptor_outcome fs json_loads workspace_file) as [o Ho].
  pose proof (load_code_workspace_folders_cases _ _ _ _ Ho) as Hload.
  assert (Hex : exists needles,
    outcome (load_code_workspace_folders fs json_loads workspace_file)
      = inr needles).
  { rewrite Hload.
    destruct o as [[| | | | | | obj] |]; try (exists []; reflexivity).
    destruct (dict_get obj "folders") as [| | | | | folders |];
      try (exists []; reflexivity).
    destruct (folders_loop_outcome fs workspace_file folders [] Hres) as [l Hl].
    rewrite Hl. exists (unique l). reflexivity. }
  destruct Hex as (needles & Hn).
  exists needles. split; [exact Hn |].
  split; [exact (load_code_workspace_folders_NoDup _ _ _ _ Hn) |].
  rewrite Hload in Hn. split; [| split].
  - intros e1 e2 H1 H2.
    assert (Hnone : o = None).
    { revert Ho H1 H2.
      unfold read_descriptor, read_text_utf8, read_text_ignore, loads.
      io_cases; io_simpl; intros; congruence. }
    subst o. congruence.
  - intros obj Hobj Hnd'. rewrite Ho in Hobj. injection Hobj as ->.
    destruct obj as [| | | | | | d];
      first [congruence | destruct (Hnd' d); reflexivity].
  - intros d Hd Hnf. rewrite Ho in Hd. injection Hd as ->.
    destruct (dict_get d "folders") as [| | | | | folders |] eqn:E;
      first [congruence | destruct (Hnf folders); reflexivity].
Qed.

(** C8 (the claim: whatever the descriptor file holds,
    [load_code_workspace_folders] returns a needle list and never raises).
    The read and the parse are guarded, but the resolution of a relative
    folder path is not: for the well-formed document
    {"folders": [{"path": "a\u0000b"}]} the call [Path.resolve] raises
    [ValueError] and [load_code_workspace_folders] passes it on to its
    caller. *)
Theorem load_code_workspace_folders_raises_on_resolve :
  fs_read_utf8 Demo.nul_fs "/ws/proj.code-workspace" = inr Demo.nul_text /\
  Demo.nul_loads Demo.nul_text = inr Demo.nul_json /\
  outcome (load_code_workspace_folders Demo.nul_fs Demo.nul_loads
             (Path.of_str "/ws/proj.code-workspace"))
  = inl (ValueError "embedded null byte").
Proof.
  split; [reflexivity |]. split; [reflexivity |]. vm_compute. reflexivity.
Qed.

(** C5, as the code has it: for the descriptor at /ws/proj.code-workspace
    whose document holds "folders": [{"path": "app"}], the relative folder
    path is resolved against the descriptor's own directory /ws, so the
    needle emitted is the absolute path /ws/app (not /ws/proj/app); its
    separator-normalized form is the same string and the URI variant is
    file:///ws/app, so the list returned is [/ws/app; file:///ws/app]. *)
Theorem load_folders_relative_path_scenario
    (fs : FS) (json_loads : string -> exn + json) (text : string)
    (d f : list (string * json)) :
  fs_read_utf8 fs "/ws/proj.code-workspace" = inr text ->
  json_loads text = inr (JDict d) ->
  dict_get d "folders" = JList [JDict f] ->
  dict_get f "uri" = JNull ->
  dict_get f "path" = JStr "app" ->
  fs_resolve fs (Path.of_str "/ws/app") = inr (Path.of_str "/ws/app") ->
  Path.joinpath (Path.parent (Path.of_str "/ws/proj.code-workspace"))
    (Path.of_str "app") = Path.of_str "/ws/app" /\
  outcome (load_code_workspace_folders fs json_loads
             (Path.of_str "/ws/proj.code-workspace"))
  = inr ["/ws/app"; "file:///ws/app"].
Proof.
  intros Hr Hj Hf Hu Hp Hres. split; [reflexivity |].
  assert (Hd : outcome (read_descriptor fs json_loads
                          (Path.of_str "/ws/proj.code-workspace"))
               = inr (Some (JDict d))).
  { unfold read_descriptor, read_text_utf8, loads. io_simpl.
    change (Path.str (Path.of_str "/ws/proj.code-workspace"))
      with "/ws/proj.code-workspace".
    rewrite Hr. io_simpl. rewrite Hj. io_simpl. reflexivity. }
  unfold load_code_workspace_folders. io_simpl. rewrite Hd, Hf. io_simpl.
  cbn [folders_loop]. io_simpl. cbn [folder_entry]. rewrite Hu.
  unfold folder_path. rewrite Hp.
  change (Str.truthy (Str.strip "app")) with true. cbn iota.
  change (negb (Path.is_absolute (Path.of_str "app"))) with true. cbn iota.
  unfold resolve. io_simpl.
  change (Path.joinpath (Path.parent (Path.of_str "/ws/proj.code-workspace"))
            (Path.of_str "app")) with (Path.of_str "/ws/app").
  rewrite Hres. vm_compute. reflexivity.
Qed.

Lemma load_folders_relative_path_scenario_witness :
  fs_read_utf8 Demo.fs "/ws/proj.code-workspace" = inr Demo.descriptor_text /\
  Demo.json_loads Demo.descriptor_text = inr Demo.descriptor_json /\
  outcome (load_code_workspace_folders Demo.fs Demo.json_loads
             (Path.of_str "/ws/proj.code-workspace"))
  = inr ["/ws/app"; "file:///ws/app"].
Proof.
  split; [reflexivity |]. split; [reflexivity |].
  apply (load_folders_relative_path_scenario Demo.fs Demo.json_loads
           Demo.descriptor_text
           [("folders", JList [JDict [("path", JStr "app")]])]
           [("path", JStr "app")]); reflexivity.
Defined.

(** C5 as stated fails: on a file system that has /ws/proj.code-workspace
    with that document, the needles are /ws/app and file:///ws/app;
    /ws/proj/app is not among them. *)
Lemma load_folders_scenario_counterexample :
  fs_read_utf8 Demo.fs "/ws/proj.code-workspace" = inr Demo.descriptor_text /\
  Demo.json_loads Demo.descriptor_text
    = inr (JDict [("folders", JList [JDict [("path", JStr "app")]])]) /\
  exists needles,
    outcome (load_code_workspace_folders Demo.fs Demo.json_loads
               (Path.of_str "/ws/proj.code-workspace")) = inr needles /\
    ~ In "/ws/proj/app" needles.
Proof.
  split; [reflexivity |]. split; [reflexivity |].
  exists ["/ws/app"; "file:///ws/app"]. split; [vm_compute; reflexivity |].
  intros [H | [H | []]]; discriminate.
Qed.

(** C7, as the code has it: for an absolute input path
    [build_needles_for_workspace_input] returns the base needles (path,
    separator-normalized path, URI, lower-cased URI; or raw, normalized and
    lower-cased string for a path that is neither file nor directory)
    followed by what [load_code_workspace_folders] or [win_uri_variants]
    returns.  Only that appended part is free of repetitions; the list as
    a whole is not de-duplicated, and for a directory it always repeats the
    folder URI, which is both a base needle and the first variant. *)
Theorem build_needles_tail_unique
    (fs : FS) (json_loads : string -> exn + json) (p : Path.t) :
  Path.is_absolute p = true ->
  let full := Path.str p in
  let uri := "file://" ++ Path.quote full in
  let base := [full; Str.replace "\" "/" full; uri; Str.lower uri] in
  let is_ws := (fs_is_file fs full &&
                String.eqb (Str.lower (Path.suffix p)) ".code-workspace")%bool in
  (is_ws = true ->
     outcome (build_needles_for_workspace_input fs json_loads p) =
       match outcome (load_code_workspace_folders fs json_loads p) with
       | inl e => inl e
       | inr tail => inr ("WorkspaceFile: " ++ full, (base ++ tail)%list)
       end /\
     forall tail,
       outcome (load_code_workspace_folders fs json_loads p) = inr tail ->
       List.NoDup tail) /\
  (is_ws = false -> fs_is_dir fs full = true ->
     exists tail,
       outcome (build_needles_for_workspace_input fs json_loads p)
         = inr ("WorkspaceFolder: " ++ full, (base ++ tail)%list) /\
       outcome (win_uri_variants p) = inr tail /\
       List.NoDup tail /\ In uri tail /\ ~ List.NoDup (base ++ tail)) /\
  (is_ws = false -> fs_is_dir fs full = false ->
     outcome (build_needles_for_workspace_input fs json_loads p)
       = inr ("Path: " ++ full,
              [full; Str.replace "\" "/" full; Str.lower full])).
Proof.
  intros Habs full uri base is_ws.
  assert (Hb : outcome (build_needles_for_workspace_input fs json_loads p) =
    if is_ws then
      match outcome (load_code_workspace_folders fs json_loads p) with
      | inl e => inl e
      | inr tail => inr ("WorkspaceFile: " ++ full, (base ++ tail)%list)
      end
    else if fs_is_dir fs full then
      match outcome (win_uri_variants p) with
      | inl e => inl e
      | inr tail => inr ("WorkspaceFolder: " ++ full, (base ++ tail)%list)
      end
    else inr ("Path: " ++ full,
              [full; Str.replace "\" "/" full; Str.lower full])).
  { unfold build_needles_for_workspace_input, is_code_workspace_file,
      is_file, is_dir, to_file_uri, Path.as_uri.
    rewrite Habs. io_simpl. fold full. fold is_ws.
    destruct is_ws; io_simpl.
    - destruct (outcome (load_code_workspace_folders fs json_loads p));
        reflexivity.
    - destruct (fs_is_dir fs full); io_simpl; [| reflexivity].
      destruct (outcome (win_uri_variants p)); reflexivity. }
  rewrite Hb. split; [| split].
  - intros ->. split; [reflexivity |].
    intros tail Ht. exact (load_code_workspace_folders_NoDup _ _ _ _ Ht).
  - intros -> ->.
    destruct (win_uri_variants_spec p) as (tail & Ht & Hnd & Hfirst).
    exists tail. rewrite Ht. io_simpl.
    destruct (Hfirst Habs) as [r Hr].
    assert (Hin : In uri tail) by (rewrite Hr; left; reflexivity).
    split; [reflexivity |]. split; [reflexivity |]. split; [exact Hnd |].
    split; [exact Hin |].
    intros Hn. unfold base in Hn. cbn [List.app] in Hn.
    apply List.NoDup_cons_iff in Hn. destruct Hn as [_ Hn].
    apply List.NoDup_cons_iff in Hn. destruct Hn as [_ Hn].
    apply List.NoDup_cons_iff in Hn. destruct Hn as [Hn _].
    apply Hn. right. exact Hin.
  - intros -> ->. reflexivity.
Qed.

Lemma build_needles_tail_unique_witness :
  Path.is_absolute (Path.of_str "/ws") = true /\
  exists tail,
    outcome (build_needles_for_workspace_input Demo.fs Demo.json_loads
               (Path.of_str "/ws"))
      = inr ("WorkspaceFolder: /ws",
             (["/ws"; "/ws"; "file:///ws"; "file:///ws"] ++ tail)%list) /\
    List.NoDup tail.
Proof.
  split; [reflexivity |].
  destruct (build_needles_tail_unique Demo.fs Demo.json_loads
              (Path.of_str "/ws") eq_refl) as (_ & H & _).
  destruct (H eq_refl eq_refl) as (tail & H1 & _ & H2 & _).
  exists tail. split; [exact H1 | exact H2].
Defined.

(** C7 as stated fails: for the directory /ws the list returned holds /ws
    twice and file:///ws three times. *)
Lemma build_needles_duplicates_counterexample :
  fs_is_dir Demo.fs "/ws" = true /\
  exists needles,
    outcome (build_needles_for_workspace_input Demo.fs Demo.json_loads
               (Path.of_str "/ws"))
      = inr ("WorkspaceFolder: /ws", needles) /\
    needles = ["/ws"; "/ws"; "file:///ws"; "file:///ws"; "file:///ws"] /\
    ~ List.NoDup needles.
Proof.
  split; [reflexivity |]. eexists. split; [vm_compute; reflexivity |].
  split; [reflexivity |].
  intros Hn. apply List.NoDup_cons_iff in Hn. destruct Hn as [Hn _].
  apply Hn. left. reflexivity.
Qed.

(** ** Session Inventory *)

(** What [try_parse_session_meta_json] returns for a file that decodes and
    parses to an object whose creationDate converts to the integer [cdi]. *)
Lemma try_parse_numeric (json_loads : string -> exn + json) (p : Path.t)
    (f : File) (text : string) (obj : list (string * json)) (cdi : Z) :
  utf8 f = Some text -> json_loads text = inr (JDict obj) ->
  (dict_get obj "creationDate" = JInt cdi \/
   exists m e, dict_get obj "creationDate" = JFloat (FFinite m e) /\
               trunc m e = cdi) ->
  outcome (try_parse_session_meta_json json_loads p f) =
  inr (match dict_get obj "sessionId" with
       | JStr s => if Str.truthy s then Some s else None
       | _ => None
       end,
       title_loop obj ["customTitle"; "title"; "computedTitle"],
       Some (scale_creation cdi)).
Proof.
  intros Hu Hj Hcd.
  unfold try_parse_session_meta_json, file_read_utf8, loads.
  io_simpl. rewrite Hu. io_simpl. rewrite Hj. io_simpl.
  destruct Hcd as [Hcd | (m & e & Hcd & Ht)]; rewrite Hcd; cbn [int_of_float];
    io_simpl; [| rewrite Ht]; reflexivity.
Qed.

(** C6: when the creationDate of a structured session file is a number,
    [try_parse_session_meta_json] takes its integer value, multiplies it by
    1000 when it is below 10^10 and leaves it unchanged otherwise: 1700000000
    gives 1700000000000 milliseconds and 1700000000000 stays
    1700000000000. *)
Theorem creation_date_seconds_scaled
    (json_loads : string -> exn + json) (p : Path.t) (f : File)
    (text : string) (obj : list (string * json)) :
  utf8 f = Some text -> json_loads text = inr (JDict obj) ->
  let creation_ms r := snd r in
  (forall cd, dict_get obj "creationDate" = JInt cd ->
     exists r, outcome (try_parse_session_meta_json json_loads p f) = inr r /\
               creation_ms r =
                 Some (if cd <? 10000000000 then cd * 1000 else cd)) /\
  (forall m e, dict_get obj "creationDate" = JFloat (FFinite m e) ->
     exists r, outcome (try_parse_session_meta_json json_loads p f) = inr r /\
               creation_ms r =
                 Some (if trunc m e <? 10000000000 then trunc m e * 1000
                       else trunc m e)) /\
  (dict_get obj "creationDate" = JInt 1700000000 ->
     exists r, outcome (try_parse_session_meta_json json_loads p f) = inr r /\
               creation_ms r = Some 1700000000000) /\
  (dict_get obj "creationDate" = JInt 1700000000000 ->
     exists r, outcome (try_parse_session_meta_json json_loads p f) = inr r /\
               creation_ms r = Some 1700000000000).
Proof.
  intros Hu Hj creation_ms. repeat split.
  - intros cd Hcd. eexists. split.
    + apply (try_parse_numeric json_loads p f text obj cd Hu Hj). left. exact Hcd.
    + reflexivity.
  - intros m e Hcd. eexists. split.
    + apply (try_parse_numeric json_loads p f text obj (trunc m e) Hu Hj).
      right. exists m, e. split; [exact Hcd | reflexivity].
    + reflexivity.
  - intros Hcd. eexists. split.
    + apply (try_parse_numeric json_loads p f text obj 1700000000 Hu Hj).
      left. exact Hcd.
    + reflexivity.
  - intros Hcd. eexists. split.
    + apply (try_parse_numeric json_loads p f text obj 1700000000000 Hu Hj).
      left. exact Hcd.
    + reflexivity.
Qed.

Lemma creation_date_seconds_scaled_witness :
  utf8 (Demo.text_file (Demo.session_text "1700000000") 5)
    = Some (Demo.session_text "1700000000") /\
  Demo.session_loads (Demo.session_text "1700000000")
    = inr (Demo.session_json 1700000000) /\
  exists r,
    outcome (try_parse_session_meta_json Demo.session_loads
               (Path.of_str "/store/h1/chatSessions/s1.json")
               (Demo.text_file (Demo.session_text "1700000000") 5)) = inr r /\
    snd r = Some 1700000000000.
Proof.
  split; [reflexivity |]. split; [reflexivity |].
  destruct (creation_date_seconds_scaled Demo.session_loads
              (Path.of_str "/store/h1/chatSessions/s1.json")
              (Demo.text_file (Demo.session_text "1700000000") 5)
              (Demo.session_text "1700000000")
              [("sessionId", JStr "abc"); ("creationDate", JInt 1700000000)]
              eq_refl eq_refl) as (_ & _ & H & _).
  apply H. reflexivity.
Defined.

Lemma try_parse_total (json_loads : string -> exn + json) (p : Path.t) (f : File) :
  exists r, outcome (try_parse_session_meta_json json_loads p f) = inr r.
Proof.
  unfold try_parse_session_meta_json. rewrite outcome_try.
  match goal with |- context [match ?x with inl _ => _ | inr _ => _ end] =>
    destruct x end; eexists; reflexivity.
Qed.

Lemma session_file_total (json_loads : string -> exn + json) (h : string)
    (chat_dir : Path.t) (e : ChatEntry) :
  exists o, outcome (session_file json_loads h chat_dir e) = inr o.
Proof.
  unfold session_file, stat_created_updated.
  destruct (ce_file e) as [f |]; [| eexists; reflexivity].
  io_simpl.
  destruct (negb (Str.mem _ ["json"; "jsonl"])); [eexists; reflexivity |].
  io_simpl.
  destruct (String.eqb _ "json"); io_simpl; [| eexists; reflexivity].
  destruct (try_parse_total json_loads (Path.child chat_dir (ce_name e)) f)
    as [[[sid2 title2] [ms |]] Hr]; rewrite Hr; io_simpl;
    [| eexists; reflexivity].
  destruct (negb (ms =? 0)); io_simpl; [| eexists; reflexivity].
  destruct (outcome (fromtimestamp_ms ms)); io_simpl; eexists; reflexivity.
Qed.

Lemma session_file_outcome (json_loads : string -> exn + json) (h : string)
    (chat_dir : Path.t) (e : ChatEntry) :
  outcome (session_file json_loads h chat_dir e)
  = inr (session_of json_loads h chat_dir e).
Proof.
  unfold session_of.
  destruct (session_file_total json_loads h chat_dir e) as [o Ho].
  rewrite Ho. reflexivity.
Qed.

Lemma chat_loop_outcome (json_loads : string -> exn + json) (h : string)
    (chat_dir : Path.t) (es : list ChatEntry) (items : list SessionItem.t) :
  outcome (chat_loop json_loads h chat_dir es items)
  = inr (items ++ chat_items json_loads h chat_dir es)%list.
Proof.
  revert items. induction es as [| e r IH]; intros items.
  - cbn [chat_loop chat_items List.flat_map]. rewrite List.app_nil_r.
    reflexivity.
  - cbn [chat_loop chat_items List.flat_map]. io_simpl.
    rewrite session_file_outcome, IH.
    destruct (session_of json_loads h chat_dir e).
    + rewrite <- List.app_assoc. reflexivity.
    + reflexivity.
Qed.

(** The loop over the hashes never raises, keeps what was collected, and
    collects the items of every listed hash that has a chat folder. *)
Lemma hashes_loop_outcome (json_loads : string -> exn + json) (ws : Storage)
    (hashes : list string) (items : list SessionItem.t) :
  exists l,
    outcome (hashes_loop json_loads ws hashes items) = inr (items ++ l)%list /\
    forall h es i,
      In h hashes -> chat_dir_of ws h = ChatEntries es ->
      In i (chat_items json_loads h (chat_path ws h) es) -> In i l.
Proof.
  revert items. induction hashes as [| h0 r IH]; intros items.
  - exists []. split; [cbn; rewrite List.app_nil_r; reflexivity |].
    intros h es i [].
  - cbn [hashes_loop].
    destruct (chat_dir_of ws h0) as [| | es0] eqn:Hcd; io_simpl.
    + destruct (IH items) as (l & Hl & Hin). exists l. split; [exact Hl |].
      intros h es i [<- | Hh] Hes Hi; [congruence | eauto].
    + destruct (IH items) as (l & Hl & Hin). exists l. split; [exact Hl |].
      intros h es i [<- | Hh] Hes Hi; [congruence | eauto].
    + rewrite chat_loop_outcome.
      destruct (IH (items ++ chat_items json_loads h0 (chat_path ws h0) es0)%list)
        as (l & Hl & Hin).
      exists (chat_items json_loads h0 (chat_path ws h0) es0 ++ l)%list.
      split; [rewrite Hl, <- List.app_assoc; reflexivity |].
      intros h es i [<- | Hh] Hes Hi; apply List.in_or_app.
      * left. rewrite Hcd in Hes. injection Hes as <-. exact Hi.
      * right. eauto.
Qed.

Lemma in_chat_items (json_loads : string -> exn + json) (h : string)
    (chat_dir : Path.t) (es : list ChatEntry) (e : ChatEntry)
    (i : SessionItem.t) :
  In e es -> session_of json_loads h chat_dir e = Some i ->
  In i (chat_items json_loads h chat_dir es).
Proof.
  intros He Hs. unfold chat_items. apply List.in_flat_map.
  exists e. split; [exact He |]. rewrite Hs. left. reflexivity.
Qed.

Lemma session_inventory_contains (json_loads : string -> exn + json)
    (ws : Storage) (hashes : list string) :
  exists items,
    outcome (session_inventory json_loads ws hashes) = inr items /\
    forall h es e i,
      In h hashes -> chat_dir_of ws h = ChatEntries es -> In e es ->
      session_of json_loads h (chat_path ws h) e = Some i -> In i items.
Proof.
  destruct (hashes_loop_outcome json_loads ws hashes []) as (l & Hl & Hin).
  exists (sort_reverse SessionItem.updated l). split.
  - unfold session_inventory. io_simpl. rewrite Hl. reflexivity.
  - intros h es e i Hh Hes He Hs.
    apply (Permutation_in _ (sort_reverse_perm SessionItem.updated l)).
    apply (Hin h es i Hh Hes). apply in_chat_items with (e := e); assumption.
Qed.

Lemma try_parse_absent (json_loads : string -> exn + json) (p : Path.t)
    (f : File) (text : string) (obj : list (string * json)) :
  utf8 f = Some text -> json_loads text = inr (JDict obj) ->
  dict_get obj "creationDate" = JNull ->
  outcome (try_parse_session_meta_json json_loads p f) =
  inr (match dict_get obj "sessionId" with
       | JStr s => if Str.truthy s then Some s else None
       | _ => None
       end,
       title_loop obj ["customTitle"; "title"; "computedTitle"],
       None).
Proof.
  intros Hu Hj Hcd.
  unfold try_parse_session_meta_json, file_read_utf8, loads.
  io_simpl. rewrite Hu. io_simpl. rewrite Hj. io_simpl. rewrite Hcd.
  io_simpl. reflexivity.
Qed.

(** A structured file whose parse gives no creation time, or the creation
    time 0, keeps the [stat] creation time. *)
Lemma session_file_keeps_created (json_loads : string -> exn + json)
    (h : string) (chat_dir : Path.t) (e : ChatEntry) (f : File)
    (sid2 : option string) (title2 : string) (cms : option Z) :
  let p := Path.child chat_dir (ce_name e) in
  ce_file e = Some f ->
  lstrip_dots (Str.lower (Path.suffix p)) = "json" ->
  outcome (try_parse_session_meta_json json_loads p f)
    = inr (sid2, title2, cms) ->
  cms = None \/ cms = Some 0 ->
  outcome (session_file json_loads h chat_dir e) =
  inr (Some (SessionItem.mk h
               (match sid2 with
                | Some s => if Str.truthy s then s else Path.stem p
                | None => Path.stem p
                end)
               (if Str.truthy title2 then title2 else "")
               (dt_from_ts (st_ctime f)) (dt_from_ts (st_mtime f)) "json" p)).
Proof.
  intros p Hf Hext Hparse Hcms.
  unfold session_file, stat_created_updated. fold p. rewrite Hf. io_simpl.
  rewrite Hext. cbn [Str.mem String.eqb Ascii.eqb Bool.eqb orb negb]. io_simpl.
  rewrite Hparse. io_simpl.
  destruct Hcms as [-> | ->]; io_simpl; reflexivity.
Qed.

(** C10: in [session_inventory], a structured (.json) session file whose
    creationDate is the number 0 (or a float whose integer part is 0) keeps
    the created time stamp taken from the file system: the override is
    applied only to a non-zero millisecond value.  The item is the one the
    same file would give with the field absent, and it is part of the
    inventory. *)
Theorem zero_creation_date_keeps_fs_time
    (json_loads : string -> exn + json) (ws : Storage) (hashes : list string)
    (h : string) (es : list ChatEntry) (e : ChatEntry) (f : File)
    (text : string) (obj : list (string * json)) :
  In h hashes ->
  chat_dir_of ws h = ChatEntries es -> In e es ->
  ce_file e = Some f ->
  lstrip_dots (Str.lower (Path.suffix (Path.child (chat_path ws h) (ce_name e))))
    = "json" ->
  utf8 f = Some text -> json_loads text = inr (JDict obj) ->
  (dict_get obj "creationDate" = JInt 0 \/
   exists m x, dict_get obj "creationDate" = JFloat (FFinite m x) /\
               trunc m x = 0) ->
  exists item items,
    outcome (session_file json_loads h (chat_path ws h) e) = inr (Some item) /\
    SessionItem.created item = dt_from_ts (st_ctime f) /\
    SessionItem.path item = Path.child (chat_path ws h) (ce_name e) /\
    outcome (session_inventory json_loads ws hashes) = inr items /\
    In item items /\
    (forall json_loads' obj',
       json_loads' text = inr (JDict obj') ->
       dict_get obj' "creationDate" = JNull ->
       (forall k, k <> "creationDate" -> dict_get obj' k = dict_get obj k) ->
       outcome (session_file json_loads' h (chat_path ws h) e)
         = inr (Some item)).
Proof.
  intros Hh Hes He Hf Hext Hu Hj Hcd.
  pose proof (try_parse_numeric json_loads
                (Path.child (chat_path ws h) (ce_name e)) f text obj 0 Hu Hj Hcd)
    as Hparse.
  change (scale_creation 0) with 0 in Hparse.
  pose proof (session_file_keeps_created json_loads h (chat_path ws h) e f
                _ _ _ Hf Hext Hparse (or_intror eq_refl)) as Hitem.
  destruct (session_inventory_contains json_loads ws hashes)
    as (items & Hinv & Hin).
  eexists. exists items.
  split; [exact Hitem |]. split; [reflexivity |]. split; [reflexivity |].
  split; [exact Hinv |]. split.
  - apply (Hin h es e _ Hh Hes He). unfold session_of. rewrite Hitem.
    reflexivity.
  - intros json_loads' obj' Hj' Hcd' Hagree.
    pose proof (try_parse_absent json_loads'
                  (Path.child (chat_path ws h) (ce_name e)) f text obj'
                  Hu Hj' Hcd') as Hparse'.
    pose proof (session_file_keeps_created json_loads' h (chat_path ws h) e f
                  _ _ _ Hf Hext Hparse' (or_introl eq_refl)) as Hitem'.
    rewrite Hitem'. cbn [title_loop].
    rewrite !Hagree by discriminate. reflexivity.
Qed.

Lemma zero_creation_date_keeps_fs_time_witness :
  exists item items,
    outcome (session_inventory Demo.session_loads Demo.chat_storage ["h1"])
      = inr items /\
    In item items /\
    SessionItem.created item = dt_from_ts 111.
Proof.
  destruct (zero_creation_date_keeps_fs_time Demo.session_loads
              Demo.chat_storage ["h1"] "h1" [Demo.zero_session]
              Demo.zero_session
              {| utf8 := Some (Demo.session_text "0");
                 lossy := Demo.session_text "0";
                 st_ctime := 111; st_mtime := 222 |}
              (Demo.session_text "0")
              [("sessionId", JStr "abc"); ("creationDate", JInt 0)]
              (or_introl eq_refl) eq_refl (or_introl eq_refl) eq_refl eq_refl
              eq_refl eq_refl (or_introl eq_refl))
    as (item & items & _ & Hc & _ & Hinv & Hin & _).
  exists item, items. split; [exact Hinv |]. split; [exact Hin | exact Hc].
Defined.

(** * Further properties of the code *)

(** ** Strings *)

Lemma rstrip_cons_keep (c : ascii) (r : string) :
  Str.isspace c = false -> Str.rstrip (String c r) = String c (Str.rstrip r).
Proof.
  intros Hc. cbn [Str.rstrip]. rewrite Hc. destruct (Str.rstrip r); reflexivity.
Qed.

Lemma rstrip_idempotent (s : string) : Str.rstrip (Str.rstrip s) = Str.rstrip s.
Proof.
  induction s as [| c r IH]; [reflexivity |].
  cbn [Str.rstrip]. destruct (Str.rstrip r) as [| c' r'] eqn:E.
  - destruct (Str.isspace c) eqn:Hc; [reflexivity |].
    cbn [Str.rstrip]. rewrite Hc. reflexivity.
  - change (Str.rstrip (String c (String c' r')) = String c (String c' r')).
    cbn [Str.rstrip] in *. rewrite IH. reflexivity.
Qed.

(** [lstrip] leaves the empty string or a string that begins with a
    non-blank character. *)
Lemma lstrip_head (s : string) :
  Str.lstrip s = "" \/
  exists c r, Str.lstrip s = String c r /\ Str.isspace c = false.
Proof.
  induction s as [| c r IH]; [left; reflexivity |].
  cbn [Str.lstrip]. destruct (Str.isspace c) eqn:Hc; [exact IH |].
  right. exists c, r. split; [reflexivity | exact Hc].
Qed.

Lemma strip_idempotent (s : string) : Str.strip (Str.strip s) = Str.strip s.
Proof.
  unfold Str.strip.
  destruct (lstrip_head s) as [E | (c & r & E & Hc)]; rewrite E.
  - reflexivity.
  - rewrite (rstrip_cons_keep c r Hc). cbn [Str.lstrip]. rewrite Hc.
    rewrite (rstrip_cons_keep c _ Hc), rstrip_idempotent. reflexivity.
Qed.

(** A non-empty stripped string begins with a non-blank character. *)
Lemma strip_truthy_head (s : string) :
  Str.truthy (Str.strip s) = true ->
  exists c r, Str.strip s = String c r /\ Str.isspace c = false.
Proof.
  unfold Str.strip.
  destruct (lstrip_head s) as [E | (c & r & E & Hc)]; rewrite E.
  - discriminate.
  - intros _. rewrite (rstrip_cons_keep c r Hc). eauto.
Qed.

(** ** Session metadata *)

(** X1: [try_parse_session_meta_json] never raises: a file that does not
    decode as UTF-8, a text that [json.loads] rejects and a document that
    is not an object all give [(None, "", None)]. *)
Theorem try_parse_falls_back_to_defaults
    (json_loads : string -> exn + json) (p : Path.t) (f : File) :
  (exists r, outcome (try_parse_session_meta_json json_loads p f) = inr r) /\
  (utf8 f = None ->
   outcome (try_parse_session_meta_json json_loads p f) = inr (None, "", None)) /\
  (forall text e, utf8 f = Some text -> json_loads text = inl e ->
   outcome (try_parse_session_meta_json json_loads p f) = inr (None, "", None)) /\
  (forall text v, utf8 f = Some text -> json_loads text = inr v ->
   (forall d, v <> JDict d) ->
   outcome (try_parse_session_meta_json json_loads p f) = inr (None, "", None)).
Proof.
  split; [apply try_parse_total |].
  unfold try_parse_session_meta_json, file_read_utf8, loads.
  split; [| split].
  - intros Hu. io_simpl. rewrite Hu. reflexivity.
  - intros text e Hu Hj. io_simpl. rewrite Hu. io_simpl. rewrite Hj. reflexivity.
  - intros text v Hu Hj Hv. io_simpl. rewrite Hu. io_simpl. rewrite Hj. io_simpl.
    destruct v as [| | | | | | d]; try reflexivity.
    destruct (Hv d). reflexivity.
Qed.

(** X2: a creationDate that is [NaN] or an infinity makes [int(cd)] raise
    inside the [try], so the whole result falls back to [(None, "", None)]:
    the session identifier and the title found in the same document are
    lost with it. *)
Theorem try_parse_nonfinite_creation_date_drops_all
    (json_loads : string -> exn + json) (p : Path.t) (f : File)
    (text : string) (obj : list (string * json)) (x : pyfloat) :
  utf8 f = Some text -> json_loads text = inr (JDict obj) ->
  dict_get obj "creationDate" = JFloat x ->
  (x = FNan \/ exists negative, x = FInf negative) ->
  outcome (try_parse_session_meta_json json_loads p f) = inr (None, "", None).
Proof.
  intros Hu Hj Hcd Hx.
  unfold try_parse_session_meta_json, file_read_utf8, loads.
  io_simpl. rewrite Hu. io_simpl. rewrite Hj. io_simpl. rewrite Hcd.
  destruct Hx as [-> | [b ->]]; reflexivity.
Qed.

Lemma try_parse_nonfinite_creation_date_drops_all_witness :
  dict_get Sample.nan_obj "sessionId" = JStr "abc" /\
  dict_get Sample.nan_obj "title" = JStr " Fix bug " /\
  outcome (try_parse_session_meta_json Sample.json_loads
             (Path.of_str "/store/h1/chatSessions/s1.json")
             (Demo.text_file Sample.nan_text 5)) = inr (None, "", None).
Proof.
  split; [reflexivity |]. split; [reflexivity |].
  apply (try_parse_nonfinite_creation_date_drops_all Sample.json_loads _
           (Demo.text_file Sample.nan_text 5) Sample.nan_text Sample.nan_obj
           FNan eq_refl eq_refl eq_refl).
  left. reflexivity.
Defined.

Lemma title_loop_stripped (obj : list (string * json)) (keys : list string) :
  Str.strip (title_loop obj keys) = title_loop obj keys.
Proof.
  induction keys as [| k r IH]; [reflexivity |].
  cbn [title_loop]. destruct (dict_get obj k); try exact IH.
  destruct (Str.truthy (Str.strip s)); [apply strip_idempotent | exact IH].
Qed.

Lemma title_loop_priority (obj : list (string * json)) :
  title_loop obj ["customTitle"; "title"; "computedTitle"] =
  match nonblank_str (dict_get obj "customTitle") with
  | Some t => t
  | None =>
      match nonblank_str (dict_get obj "title") with
      | Some t => t
      | None =>
          match nonblank_str (dict_get obj "computedTitle") with
          | Some t => t
          | None => ""
          end
      end
  end.
Proof.
  cbn [title_loop]. unfold nonblank_str.
  destruct (dict_get obj "customTitle") as [| | | | s1 | |];
    try destruct (Str.truthy (Str.strip s1)); try reflexivity;
    destruct (dict_get obj "title") as [| | | | s2 | |];
    try destruct (Str.truthy (Str.strip s2)); try reflexivity;
    destruct (dict_get obj "computedTitle") as [| | | | s3 | |];
    try destruct (Str.truthy (Str.strip s3)); reflexivity.
Qed.

(** X3: for a document that parses to an object whose creationDate is
    absent or a finite number, the title returned is the stripped text of
    the first of customTitle, title, computedTitle that is a non-blank
    string, and "" when there is none; it never has blanks at either
    end. *)
Theorem try_parse_title_priority
    (json_loads : string -> exn + json) (p : Path.t) (f : File)
    (text : string) (obj : list (string * json)) :
  utf8 f = Some text -> json_loads text = inr (JDict obj) ->
  (forall x, dict_get obj "creationDate" = JFloat x ->
             exists m e, x = FFinite m e) ->
  exists sid title cms,
    outcome (try_parse_session_meta_json json_loads p f)
      = inr (sid, title, cms) /\
    Str.strip title = title /\
    title =
      match nonblank_str (dict_get obj "customTitle") with
      | Some t => t
      | None =>
          match nonblank_str (dict_get obj "title") with
          | Some t => t
          | None =>
              match nonblank_str (dict_get obj "computedTitle") with
              | Some t => t
              | None => ""
              end
          end
      end.
Proof.
  intros Hu Hj Hfin.
  assert (Hout : exists sid cms,
    outcome (try_parse_session_meta_json json_loads p f)
    = inr (sid, title_loop obj ["customTitle"; "title"; "computedTitle"], cms)).
  { unfold try_parse_session_meta_json, file_read_utf8, loads.
    io_simpl. rewrite Hu. io_simpl. rewrite Hj. io_simpl.
    destruct (dict_get obj "creationDate") as [| b | n | x | | |] eqn:Hcd;
      io_simpl; try (eexists _, _; reflexivity).
    destruct (Hfin x eq_refl) as (m & e & ->). cbn [int_of_float]. io_simpl.
    eexists _, _. reflexivity. }
  destruct Hout as (sid & cms & Hout).
  exists sid, (title_loop obj ["customTitle"; "title"; "computedTitle"]), cms.
  split; [exact Hout |]. split; [apply title_loop_stripped |].
  apply title_loop_priority.
Qed.

Lemma try_parse_title_priority_witness :
  exists sid cms,
    outcome (try_parse_session_meta_json Sample.json_loads
               (Path.of_str "/store/h1/chatSessions/s1.json")
               (Demo.text_file Sample.titled_text 5))
      = inr (sid, "Fix bug", cms).
Proof.
  destruct (try_parse_title_priority Sample.json_loads
              (Path.of_str "/store/h1/chatSessions/s1.json")
              (Demo.text_file Sample.titled_text 5) Sample.titled_text
              Sample.titled_obj eq_refl eq_refl)
    as (sid & title & cms & H1 & _ & H2).
  - intros x Hx. discriminate.
  - exists sid, cms. rewrite H1. rewrite H2. reflexivity.
Defined.

(** ** Session Inventory *)

Lemma hashes_loop_exact (json_loads : string -> exn + json) (ws : Storage)
    (hashes : list string) (items : list SessionItem.t) :
  outcome (hashes_loop json_loads ws hashes items)
  = inr (items ++ inventory_items json_loads ws hashes)%list.
Proof.
  revert items. induction hashes as [| h r IH]; intros items.
  - cbn. rewrite List.app_nil_r. reflexivity.
  - cbn [hashes_loop inventory_items List.flat_map].
    destruct (chat_dir_of ws h) as [| | es]; io_simpl.
    + apply IH.
    + apply IH.
    + rewrite chat_loop_outcome, IH, <- List.app_assoc. reflexivity.
Qed.

Lemma session_inventory_outcome (json_loads : string -> exn + json)
    (ws : Storage) (hashes : list string) :
  outcome (session_inventory json_loads ws hashes)
  = inr (sort_reverse SessionItem.updated
           (inventory_items json_loads ws hashes)).
Proof.
  unfold session_inventory. io_simpl. rewrite hashes_loop_exact. reflexivity.
Qed.

(** X4: [session_inventory] returns the items its loops built, sorted by
    updated time, most recent first: the result is a permutation of the
    built items, updated times never increase along it, and items with
    the same updated time stay in the order they were met. *)
Theorem session_inventory_sorted_by_updated
    (json_loads : string -> exn + json) (ws : Storage) (hashes : list string)
    (built : list SessionItem.t) :
  outcome (hashes_loop json_loads ws hashes []) = inr built ->
  exists items,
    outcome (session_inventory json_loads ws hashes) = inr items /\
    Permutation built items /\
    StronglySorted
      (fun a b => SessionItem.updated b <= SessionItem.updated a) items /\
    (forall t,
       List.filter (fun i => SessionItem.updated i =? t) items =
       List.filter (fun i => SessionItem.updated i =? t) built) /\
    (forall a b, In a items -> In b items ->
       SessionItem.updated b < SessionItem.updated a ->
       precedes a b items /\ ~ precedes b a items).
Proof.
  intros Hb. exists (sort_reverse SessionItem.updated built).
  pose proof (sort_reverse_sorted SessionItem.updated built) as Hs.
  split; [unfold session_inventory; io_simpl; rewrite Hb; io_simpl;
          reflexivity |].
  split; [apply sort_reverse_perm |].
  split; [exact Hs |].
  split; [intros t; apply sort_reverse_stable |].
  intros a b Ha Hb' Hlt.
  exact (sorted_precedes SessionItem.updated a b _ Hs Ha Hb' Hlt).
Qed.

Lemma session_inventory_sorted_by_updated_witness :
  exists built items,
    outcome (hashes_loop Sample.json_loads SampleChat.storage ["h1"] [])
      = inr built /\
    List.map SessionItem.session_id built = ["abc"; "log"; "abc"] /\
    outcome (session_inventory Sample.json_loads SampleChat.storage ["h1"])
      = inr items /\
    Permutation built items /\
    StronglySorted
      (fun a b => SessionItem.updated b <= SessionItem.updated a) items.
Proof.
  pose (built :=
          match outcome (hashes_loop Sample.json_loads SampleChat.storage
                           ["h1"] []) with
          | inr b => b
          | inl _ => []
          end).
  exists built.
  assert (Hb : outcome (hashes_loop Sample.json_loads SampleChat.storage
                          ["h1"] []) = inr built).
  { vm_compute. reflexivity. }
  destruct (session_inventory_sorted_by_updated Sample.json_loads
              SampleChat.storage ["h1"] _ Hb)
    as (items & H1 & H2 & H3 & _).
  exists items. split; [exact Hb |]. split; [reflexivity |].
  split; [exact H1 |]. split; [exact H2 | exact H3].
Defined.

(** What a turn of the chat-folder loop yields for an entry. *)
Lemma session_of_origin (json_loads : string -> exn + json) (h : string)
    (chat_dir : Path.t) (e : ChatEntry) (i : SessionItem.t) :
  session_of json_loads h chat_dir e = Some i ->
  exists f,
    ce_file e = Some f /\
    SessionItem.hash i = h /\
    SessionItem.path i = Path.child chat_dir (ce_name e) /\
    SessionItem.updated i = dt_from_ts (st_mtime f) /\
    SessionItem.ext i =
      lstrip_dots (Str.lower (Path.suffix (Path.child chat_dir (ce_name e)))) /\
    (SessionItem.ext i = "json" \/ SessionItem.ext i = "jsonl").
Proof.
  unfold session_of, session_file, stat_created_updated.
  destruct (ce_file e) as [f |]; [| discriminate].
  io_simpl.
  set (p := Path.child chat_dir (ce_name e)).
  set (ext := lstrip_dots (Str.lower (Path.suffix p))).
  assert (Hext : Str.mem ext ["json"; "jsonl"] = true ->
                 ext = "json" \/ ext = "jsonl").
  { intros H. apply mem_In in H. destruct H as [H | [H | []]]; auto. }
  destruct (Str.mem ext ["json"; "jsonl"]); cbn [negb]; [| discriminate].
  specialize (Hext eq_refl). io_simpl.
  destruct (String.eqb ext "json"); io_simpl.
  - destruct (try_parse_total json_loads p f) as [[[sid2 title2] cms] Hr].
    rewrite Hr. io_simpl.
    destruct cms as [ms |]; [destruct (negb (ms =? 0)) |]; io_simpl;
      try destruct (outcome (fromtimestamp_ms ms)); io_simpl;
      intros H; injection H as <-; exists f; cbn; auto 10.
  - intros H. injection H as <-. exists f. cbn. auto 10.
Qed.

Lemma in_inventory_items (json_loads : string -> exn + json) (ws : Storage)
    (hashes : list string) (i : SessionItem.t) :
  In i (inventory_items json_loads ws hashes) <->
  exists h es e,
    In h hashes /\ chat_dir_of ws h = ChatEntries es /\ In e es /\
    session_of json_loads h (chat_path ws h) e = Some i.
Proof.
  unfold inventory_items. rewrite List.in_flat_map. split.
  - intros (h & Hh & Hi).
    destruct (chat_dir_of ws h) as [| | es] eqn:Hcd; try destruct Hi.
    unfold chat_items in Hi. apply List.in_flat_map in Hi.
    destruct Hi as (e & He & Hi). exists h, es, e.
    destruct (session_of json_loads h (chat_path ws h) e) as [i' |];
      [| destruct Hi].
    destruct Hi as [-> | []]. auto.
  - intros (h & es & e & Hh & Hcd & He & Hs). exists h. split; [exact Hh |].
    rewrite Hcd. apply in_chat_items with (e := e); assumption.
Qed.

(** X5: every item of the inventory comes from a regular file lying
    directly in the chat folder of one of the listed hashes, whose
    lower-cased extension is json or jsonl; its updated time is always the
    file's modification time, whatever the file holds. *)
Theorem session_inventory_items_origin
    (json_loads : string -> exn + json) (ws : Storage) (hashes : list string) :
  exists items,
    outcome (session_inventory json_loads ws hashes) = inr items /\
    forall i, In i items ->
      exists h es e f,
        In h hashes /\ chat_dir_of ws h = ChatEntries es /\ In e es /\
        ce_file e = Some f /\
        SessionItem.hash i = h /\
        SessionItem.path i = Path.child (chat_path ws h) (ce_name e) /\
        SessionItem.updated i = dt_from_ts (st_mtime f) /\
        SessionItem.ext i = lstrip_dots (Str.lower (Path.suffix (SessionItem.path i))) /\
        (SessionItem.ext i = "json" \/ SessionItem.ext i = "jsonl").
Proof.
  eexists. split; [apply session_inventory_outcome |].
  intros i Hi.
  apply (Permutation_in _ (Permutation_sym
           (sort_reverse_perm SessionItem.updated _))) in Hi.
  apply in_inventory_items in Hi.
  destruct Hi as (h & es & e & Hh & Hcd & He & Hs).
  destruct (session_of_origin _ _ _ _ _ Hs) as (f & H1 & H2 & H3 & H4 & H5 & H6).
  exists h, es, e, f. rewrite H3. auto 12.
Qed.

(** X6: a line-delimited (.jsonl) session file is never opened: the only
    file-system calls made for it are [is_file] and [stat], and its item has
    the file-name stem as identifier, an empty title and the two [stat]
    times, whatever [json.loads] would make of its content. *)
Theorem jsonl_session_uses_only_stat
    (json_loads : string -> exn + json) (h : string) (chat_dir : Path.t)
    (e : ChatEntry) (f : File) :
  let p := Path.child chat_dir (ce_name e) in
  ce_file e = Some f ->
  lstrip_dots (Str.lower (Path.suffix p)) = "jsonl" ->
  session_file json_loads h chat_dir e =
  ([OpIsFile (Path.str p); OpStat (Path.str p)],
   inr (Some (SessionItem.mk h (Path.stem p) ""
                (dt_from_ts (st_ctime f)) (dt_from_ts (st_mtime f))
                "jsonl" p))).
Proof.
  intros p Hf Hext. unfold session_file, stat_created_updated. fold p.
  rewrite Hf, Hext. reflexivity.
Qed.

Lemma jsonl_session_uses_only_stat_witness :
  exists tr item,
    session_file Demo.session_loads "h1" (Path.of_str "/store/h1/chatSessions")
      {| ce_name := "log.JSONL"; ce_file := Some (Demo.text_file "{}" 7) |}
    = (tr, inr (Some item)) /\
    SessionItem.session_id item = "log" /\
    ~ In (OpReadText "/store/h1/chatSessions/log.JSONL") tr.
Proof.
  eexists _, _. split.
  - apply (jsonl_session_uses_only_stat Demo.session_loads "h1"
             (Path.of_str "/store/h1/chatSessions")
             {| ce_name := "log.JSONL"; ce_file := Some (Demo.text_file "{}" 7) |}
             (Demo.text_file "{}" 7) eq_refl eq_refl).
  - split; [reflexivity |]. intros [H | [H | []]]; discriminate.
Defined.




(** ** Hash Scanner *)

(** X8: [find_hashes_by_needles] fails with [ValueError("No needles")]
    exactly when no needle is left after blank ones (empty or made of
    white space only) are dropped, and it then fails before touching the
    file system; as soon as one usable needle is given, the needle check
    passes and the first file-system call is the listing of the storage
    root. *)
Theorem find_hashes_raises_iff_no_usable_needle
    (ws : Storage) (needles : list string) :
  (List.existsb nonblank needles = false ->
   find_hashes_by_needles ws needles = ([], inl (ValueError "No needles"))) /\
  (List.existsb nonblank needles = true ->
   exists t,
     trace (find_hashes_by_needles ws needles)
     = OpIterdir (Path.str (st_root ws)) :: t) /\
  (outcome (find_hashes_by_needles ws needles) = inl (ValueError "No needles")
   <-> forall n, In n needles -> nonblank n = false).
Proof.
  split; [apply find_hashes_blank_needles_raise |].
  split.
  - intros H. apply has_nonblank in H. unfold find_hashes_by_needles.
    destruct (List.filter nonblank needles) as [| n r]; [contradiction |].
    unfold io_bind, io_log.
    destruct (scan (st_root ws) (n :: r) (st_entries ws) []) as [t [x | hits]];
      eexists; reflexivity.
  - destruct (List.existsb nonblank needles) eqn:E.
    + split.
      * intros He. rewrite (find_hashes_outcome ws needles E) in He.
        discriminate.
      * intros Hall. apply List.existsb_exists in E.
        destruct E as (n & Hn & Hb). rewrite (Hall n Hn) in Hb. discriminate.
    + split.
      * intros _ n Hn. destruct (nonblank n) eqn:Hb; [| reflexivity].
        assert (List.existsb nonblank needles = true).
        { apply List.existsb_exists. exists n. auto. }
        congruence.
      * intros _. rewrite (find_hashes_blank_needles_raise ws needles E).
        reflexivity.
Qed.

Lemma count_files_exact (chat_dir : Path.t) (es : list ChatEntry) :
  outcome (count_files chat_dir es) = inr (regular_files (ChatEntries es)).
Proof.
  unfold regular_files. induction es as [| e r IH]; [reflexivity |].
  cbn [count_files]. io_simpl. rewrite IH. io_simpl.
  cbn [List.filter]. destruct (ce_file e); cbn [List.length].
  - rewrite Nat2Z.inj_succ. f_equal. lia.
  - reflexivity.
Qed.

Lemma chat_files_of_exact (chat_dir : Path.t) (cd : ChatDir) :
  outcome (chat_files_of chat_dir cd) = inr (regular_files cd).
Proof.
  destruct cd as [| | es]; try reflexivity.
  cbn [chat_files_of]. io_simpl. rewrite count_files_exact. reflexivity.
Qed.

(** The record a matching entry is turned into. *)
Lemma scan_hit_record (root : Path.t) (needles2 : list string) (e : RootEntry)
    (h : HashInfo.t) :
  scan_hit root needles2 e = Some h ->
  exists hd,
    re_dir e = Some hd /\
    h = HashInfo.mk (re_name e) (Path.child root (re_name e))
          (Path.div (Path.child root (re_name e)) "workspace.json")
          (Path.div (Path.child root (re_name e)) "state.vscdb")
          (option_map dt_from_ts (hd_state_vscdb hd))
          (Path.div (Path.child root (re_name e)) "chatSessions")
          (regular_files (hd_chatSessions hd)).
Proof.
  unfold scan_hit, scan_one.
  destruct (re_dir e) as [hd |]; [| discriminate].
  destruct (hd_workspace_json hd) as [wj |]; [| discriminate].
  io_simpl. rewrite read_text_best_effort_outcome.
  destruct (needle_loop needles2 (Str.lower (raw_text wj))); cbn [negb];
    [| discriminate].
  io_simpl. rewrite state_db_mtime_of_outcome. io_simpl.
  rewrite chat_files_of_exact. io_simpl. rewrite name_child.
  intros H. injection H as <-. exists hd. split; reflexivity.
Qed.

(** X9: every hash directory returned carries the name of its root entry,
    the paths <root>/<hash>, <root>/<hash>/workspace.json,
    <root>/<hash>/state.vscdb and <root>/<hash>/chatSessions, the database
    modification time ([None] when there is no database) and the number of
    regular files directly inside the chat folder (0 when the folder is
    absent or is not a directory). *)
Theorem find_hashes_hit_metadata (ws : Storage) (needles : list string) :
  List.existsb nonblank needles = true ->
  exists hits,
    outcome (find_hashes_by_needles ws needles) = inr hits /\
    forall h, In h hits ->
      exists e hd,
        In e (st_entries ws) /\ re_dir e = Some hd /\
        let d := Path.child (st_root ws) (re_name e) in
        HashInfo.hash h = re_name e /\
        HashInfo.path h = d /\
        HashInfo.workspace_json h = Path.div d "workspace.json" /\
        HashInfo.state_db h = Path.div d "state.vscdb" /\
        HashInfo.chat_dir h = Path.div d "chatSessions" /\
        HashInfo.state_db_mtime h = option_map dt_from_ts (hd_state_vscdb hd) /\
        HashInfo.chat_files h = regular_files (hd_chatSessions hd) /\
        0 <= HashInfo.chat_files h.
Proof.
  intros Hn. eexists. split; [apply find_hashes_outcome, Hn |].
  intros h Hh.
  apply (Permutation_in _ (Permutation_sym (sort_reverse_perm rank_key _))) in Hh.
  apply in_scan_hits in Hh. destruct Hh as (e & He & Hs).
  destruct (scan_hit_record _ _ _ _ Hs) as (hd & Hd & ->).
  exists e, hd. split; [exact He |]. split; [exact Hd |]. cbn.
  repeat split; try reflexivity.
  unfold regular_files. destruct (hd_chatSessions hd); lia.
Qed.

Lemma find_hashes_hit_metadata_witness :
  List.existsb nonblank ["foo"] = true /\
  exists hits,
    outcome (find_hashes_by_needles Demo.two_hashes ["foo"]) = inr hits /\
    forall h, In h hits -> 0 <= HashInfo.chat_files h.
Proof.
  split; [reflexivity |].
  destruct (find_hashes_hit_metadata Demo.two_hashes ["foo"] eq_refl)
    as (hits & H1 & H2).
  exists hits. split; [exact H1 |]. intros h Hh.
  destruct (H2 h Hh) as (e & hd & _ & _ & H). apply H.
Defined.

Lemma scan_hit_ext (root : Path.t) (n2 n2' : list string) (e : RootEntry) :
  (forall c, needle_loop n2 c = needle_loop n2' c) ->
  scan_hit root n2 e = scan_hit root n2' e.
Proof.
  intros Hext. unfold scan_hit, scan_one.
  destruct (re_dir e) as [hd |]; [| reflexivity].
  destruct (hd_workspace_json hd) as [wj |]; [| reflexivity].
  io_simpl. rewrite read_text_best_effort_outcome, Hext. reflexivity.
Qed.

Lemma scan_hits_ext (root : Path.t) (n2 n2' : list string) (ds : list RootEntry) :
  (forall c, needle_loop n2 c = needle_loop n2' c) ->
  scan_hits root n2 ds = scan_hits root n2' ds.
Proof.
  intros Hext. induction ds as [| e r IH]; [reflexivity |].
  cbn [scan_hits List.flat_map]. rewrite (scan_hit_ext root n2 n2' e Hext).
  f_equal. exact IH.
Qed.

(** Two needle lists that select the same descriptors give the same
    outcome. *)
Lemma find_hashes_ext (ws : Storage) (a b : list string) :
  List.existsb nonblank a = List.existsb nonblank b ->
  (forall c, needle_loop (List.filter nonblank a) c =
             needle_loop (List.filter nonblank b) c) ->
  outcome (find_hashes_by_needles ws a) = outcome (find_hashes_by_needles ws b).
Proof.
  intros Hex Hext. destruct (List.existsb nonblank b) eqn:Eb.
  - rewrite (find_hashes_outcome ws a Hex), (find_hashes_outcome ws b Eb).
    rewrite (scan_hits_ext _ _ _ _ Hext). reflexivity.
  - rewrite (find_hashes_blank_needles_raise ws a Hex),
      (find_hashes_blank_needles_raise ws b Eb). reflexivity.
Qed.

Lemma existsb_ext_in {A} (f g : A -> bool) (a b : list A) :
  (forall x, In x a -> f x = true -> exists y, In y b /\ g y = true) ->
  (forall y, In y b -> g y = true -> exists x, In x a /\ f x = true) ->
  List.existsb f a = List.existsb g b.
Proof.
  intros Hab Hba.
  destruct (List.existsb f a) eqn:Ea; destruct (List.existsb g b) eqn:Eb;
    try reflexivity.
  - apply List.existsb_exists in Ea. destruct Ea as (x & Hx & Hf).
    destruct (Hab x Hx Hf) as (y & Hy & Hg).
    assert (List.existsb g b = true) by (apply List.existsb_exists; eauto).
    congruence.
  - apply List.existsb_exists in Eb. destruct Eb as (y & Hy & Hg).
    destruct (Hba y Hy Hg) as (x & Hx & Hf).
    assert (List.existsb f a = true) by (apply List.existsb_exists; eauto).
    congruence.
Qed.

(** X10: the outcome of [find_hashes_by_needles] depends only on which
    non-blank needles occur in the list: repeating a needle, reordering
    the needles, or adding blank ones changes neither the directories
    returned nor their order. *)
Theorem find_hashes_needle_set_only (ws : Storage) (a b : list string) :
  (forall n, nonblank n = true -> (In n a <-> In n b)) ->
  outcome (find_hashes_by_needles ws a) = outcome (find_hashes_by_needles ws b).
Proof.
  intros Hset. apply find_hashes_ext.
  - apply existsb_ext_in; intros n Hn Hb; exists n;
      (split; [apply (Hset n Hb); exact Hn | exact Hb]).
  - intros c. rewrite !needle_loop_filter.
    apply existsb_ext_in; intros n Hn Hb; exists n;
      (split; [| exact Hb]); apply andb_prop in Hb; destruct Hb as [Hb _];
      apply (Hset n Hb); exact Hn.
Qed.

Lemma find_hashes_needle_set_only_witness :
  outcome (find_hashes_by_needles Demo.three_hashes ["foo"; " "; "x"; "foo"; ""])
  = outcome (find_hashes_by_needles Demo.three_hashes ["x"; "foo"]).
Proof.
  apply (find_hashes_needle_set_only Demo.three_hashes
           ["foo"; " "; "x"; "foo"; ""] ["x"; "foo"]).
  intros n Hb. split.
  - intros [<- | [<- | [<- | [<- | [<- | []]]]]]; try discriminate;
      cbn; auto.
  - intros [<- | [<- | []]]; cbn; auto.
Defined.

Lemma lower_char_idempotent (c : ascii) :
  Str.lower_char (Str.lower_char c) = Str.lower_char c.
Proof. destruct c as [[] [] [] [] [] [] [] []]; reflexivity. Qed.

Lemma isspace_lower_char (c : ascii) :
  Str.isspace (Str.lower_char c) = Str.isspace c.
Proof. destruct c as [[] [] [] [] [] [] [] []]; reflexivity. Qed.

Lemma lower_idempotent (s : string) : Str.lower (Str.lower s) = Str.lower s.
Proof.
  induction s as [| c r IH]; [reflexivity |].
  cbn [Str.lower]. rewrite lower_char_idempotent, IH. reflexivity.
Qed.

Lemma lstrip_lower (s : string) : Str.lstrip (Str.lower s) = Str.lower (Str.lstrip s).
Proof.
  induction s as [| c r IH]; [reflexivity |].
  cbn [Str.lower Str.lstrip]. rewrite isspace_lower_char.
  destruct (Str.isspace c); [exact IH | reflexivity].
Qed.

Lemma rstrip_lower (s : string) : Str.rstrip (Str.lower s) = Str.lower (Str.rstrip s).
Proof.
  induction s as [| c r IH]; [reflexivity |].
  cbn [Str.lower Str.rstrip]. rewrite IH, isspace_lower_char.
  destruct (Str.rstrip r); cbn [Str.lower]; [| reflexivity].
  destruct (Str.isspace c); reflexivity.
Qed.

Lemma nonblank_lower (n : string) : nonblank (Str.lower n) = nonblank n.
Proof.
  unfold nonblank, Str.strip. rewrite lstrip_lower, rstrip_lower.
  destruct n; cbn [Str.lower Str.truthy]; [reflexivity |].
  destruct (Str.rstrip (Str.lstrip (String a n))); reflexivity.
Qed.

Lemma find_hashes_lower (ws : Storage) (a : list string) :
  outcome (find_hashes_by_needles ws (List.map Str.lower a))
  = outcome (find_hashes_by_needles ws a).
Proof.
  apply find_hashes_ext.
  - induction a as [| n r IH]; [reflexivity |].
    cbn [List.map List.existsb]. rewrite nonblank_lower, IH. reflexivity.
  - intros c. rewrite !needle_loop_filter.
    induction a as [| n r IH]; [reflexivity |].
    cbn [List.map List.existsb].
    rewrite nonblank_lower, lower_idempotent, IH. reflexivity.
Qed.

(** X11: matching ignores the case of the needles: two needle lists that
    agree once every needle is lower-cased give the same outcome. *)
Theorem find_hashes_needle_case_irrelevant (ws : Storage) (a b : list string) :
  List.map Str.lower a = List.map Str.lower b ->
  outcome (find_hashes_by_needles ws a) = outcome (find_hashes_by_needles ws b).
Proof.
  intros H. rewrite <- (find_hashes_lower ws a), <- (find_hashes_lower ws b), H.
  reflexivity.
Qed.

Lemma find_hashes_needle_case_irrelevant_witness :
  outcome (find_hashes_by_needles Demo.three_hashes ["X Foo"])
  = outcome (find_hashes_by_needles Demo.three_hashes ["x FOO"]).
Proof.
  apply (find_hashes_needle_case_irrelevant Demo.three_hashes
           ["X Foo"] ["x FOO"]).
  reflexivity.
Defined.

(** ** Needle Builder *)

Lemma unique_from_complete (x : string) (seen xs : list string) :
  In x xs -> Str.truthy x = true ->
  In x seen \/ In x (unique_from seen xs).
Proof.
  revert seen. induction xs as [| v r IH]; intros seen Hin Ht; [destruct Hin |].
  cbn [unique_from]. destruct Hin as [-> | Hin].
  - rewrite Ht. cbn [andb]. destruct (Str.mem x seen) eqn:Hm; cbn [negb].
    + left. apply mem_In. exact Hm.
    + right. left. reflexivity.
  - destruct (Str.truthy v && negb (Str.mem v seen))%bool.
    + destruct (IH (v :: seen) Hin Ht) as [[-> | H] | H].
      * right. left. reflexivity.
      * left. exact H.
      * right. right. exact H.
    + apply IH; assumption.
Qed.

Lemma unique_complete (x : string) (xs : list string) :
  In x xs -> Str.truthy x = true -> In x (unique xs).
Proof.
  intros Hin Ht. destruct (unique_from_complete x [] xs Hin Ht) as [[] | H].
  exact H.
Qed.

Lemma unique_sound (x : string) (xs : list string) :
  In x (unique xs) -> In x xs /\ Str.truthy x = true.
Proof.
  intros H. destruct (unique_from_spec [] xs) as [_ Hs].
  destruct (Hs x H) as (H1 & _ & H3). auto.
Qed.

(** X12: [win_uri_variants] makes no file-system call and never raises;
    the variants it returns are distinct and non-empty; for an absolute
    path the first one is the plain file URI, and for a relative path
    without a drive letter the list is empty (the failure of [as_uri] is
    swallowed). *)
Theorem win_uri_variants_unique_and_silent (p : Path.t) :
  exists l,
    win_uri_variants p = ([], inr l) /\
    List.NoDup l /\
    (forall v, In v l -> Str.truthy v = true) /\
    (Path.is_absolute p = true ->
     exists r, l = ("file://" ++ Path.quote (Path.str p)) :: r) /\
    (Path.is_absolute p = false -> fst (split_drive (Path.str p)) = "" ->
     l = []).
Proof.
  unfold win_uri_variants, Path.as_uri.
  destruct (Path.is_absolute p); cbn [io_bind io_try io_ret io_raise List.app];
    destruct (split_drive (Path.str p)) as [drive rest]; cbn [fst];
    eexists; (split; [reflexivity |]); (split; [apply unique_NoDup |]);
    (split; [intros v Hv; apply (unique_sound v _ Hv) |]).
  - split; [| discriminate]. intros _.
    destruct (Str.truthy drive); cbn; eexists; reflexivity.
  - split; [discriminate |]. intros _ ->. reflexivity.
Qed.

(** X13: when the second character of [str(p)] is a colon, the variants
    hold file:///<letter>:<rest>, the same with the letter lower-cased,
    and the two forms with the colon percent-encoded (%3A and %3a) after
    the lower-cased letter, <rest> having every backslash turned into a
    slash. *)
Theorem win_uri_variants_drive_forms (p : Path.t) (c0 : ascii) (rest : string) :
  Path.str p = String c0 (String ":" rest) ->
  exists l,
    outcome (win_uri_variants p) = inr l /\
    let drive := String c0 "" in
    let rest_slash := Str.replace "\" "/" rest in
    In ("file:///" ++ drive ++ ":" ++ rest_slash) l /\
    In ("file:///" ++ Str.lower drive ++ ":" ++ rest_slash) l /\
    In ("file:///" ++ Str.lower drive ++ "%3A" ++ rest_slash) l /\
    In ("file:///" ++ Str.lower drive ++ "%3a" ++ rest_slash) l.
Proof.
  intros Hs. unfold win_uri_variants, Path.as_uri. rewrite Hs.
  change (split_drive (String c0 (String ":" rest)))
    with (String c0 "", rest).
  destruct (Path.is_absolute p);
    cbn [io_bind io_try io_ret io_raise List.app Str.truthy outcome snd];
    eexists; (split; [reflexivity |]);
    cbn zeta; repeat split;
    apply unique_complete; try reflexivity; cbn; auto 6.
Qed.

Lemma win_uri_variants_drive_forms_witness :
  exists l,
    outcome (win_uri_variants (Path.of_str "C:\Users\A")) = inr l /\
    In "file:///c%3a/Users/A" l.
Proof.
  destruct (win_uri_variants_drive_forms (Path.of_str "C:\Users\A")
              "C" "\Users\A" eq_refl) as (l & H1 & _ & _ & _ & H2).
  exists l. split; [exact H1 | exact H2].
Defined.

Lemma folders_loop_incl (fs : FS) (workspace_file : Path.t)
    (folders : list json) (needles l : list string) :
  outcome (folders_loop fs workspace_file folders needles) = inr l ->
  (forall x, In x needles -> In x l) /\
  (forall f new x,
     In f folders -> outcome (folder_entry fs workspace_file f) = inr new ->
     In x new -> In x l).
Proof.
  revert needles. induction folders as [| f r IH]; intros needles Hl.
  - cbn in Hl. injection Hl as <-. split; [auto | intros f new x []].
  - cbn [folders_loop] in Hl. rewrite outcome_bind in Hl.
    destruct (outcome (folder_entry fs workspace_file f)) as [e | new0] eqn:Hf;
      [discriminate |].
    destruct (IH _ Hl) as [Hacc Hrest]. split.
    + intros x Hx. apply Hacc, List.in_or_app. left. exact Hx.
    + intros f' new x [<- | Hin] Hnew Hx.
      * rewrite Hf in Hnew. injection Hnew as <-.
        apply Hacc, List.in_or_app. right. exact Hx.
      * exact (Hrest f' new x Hin Hnew Hx).
Qed.

Lemma replace_truthy (a b : ascii) (s : string) :
  Str.truthy (Str.replace a b s) = Str.truthy s.
Proof. destruct s; reflexivity. Qed.

(** X14: where path resolution does not fail, every folder object of the
    "folders" array that has a non-blank "uri" string contributes that
    string, stripped, to the needles; a folder object without one but with
    a non-blank "path" string contributes the text of that path (taken as
    written when absolute, resolved against the descriptor's directory
    when relative) and its separator-normalized form.  No needle is the
    empty string. *)
Theorem load_code_workspace_folders_covers_folders
    (fs : FS) (json_loads : string -> exn + json) (workspace_file : Path.t)
    (d : list (string * json)) (folders : list json) :
  resolve_total fs ->
  outcome (read_descriptor fs json_loads workspace_file) = inr (Some (JDict d)) ->
  dict_get d "folders" = JList folders ->
  exists needles,
    outcome (load_code_workspace_folders fs json_loads workspace_file)
      = inr needles /\
    (forall v, In v needles -> Str.truthy v = true) /\
    forall fd, In (JDict fd) folders ->
      (forall u, nonblank_str (dict_get fd "uri") = Some u -> In u needles) /\
      (nonblank_str (dict_get fd "uri") = None ->
       forall s, dict_get fd "path" = JStr s ->
         Str.truthy (Str.strip s) = true ->
         exists q,
           (if Path.is_absolute (Path.of_str s) then q = Path.of_str s
            else fs_resolve fs
                   (Path.joinpath (Path.parent workspace_file) (Path.of_str s))
                 = inr q) /\
           (Str.truthy (Path.str q) = true ->
            In (Path.str q) needles /\
            In (Str.replace "\" "/" (Path.str q)) needles)).
Proof.
  intros Hres Hd Hf.
  pose proof (load_code_workspace_folders_cases _ _ _ _ Hd) as Hload.
  cbn iota in Hload. rewrite Hf in Hload.
  destruct (folders_loop_outcome fs workspace_file folders [] Hres) as [l Hl].
  rewrite Hl in Hload. exists (unique l). split; [exact Hload |].
  split; [intros v Hv; apply (unique_sound v l Hv) |].
  destruct (folders_loop_incl _ _ _ _ _ Hl) as [_ Hin].
  intros fd Hfd. split.
  - intros u Hu. unfold nonblank_str in Hu.
    destruct (dict_get fd "uri") as [| | | | s | |] eqn:Huri; try discriminate.
    destruct (Str.truthy (Str.strip s)) eqn:Ht; [| discriminate].
    injection Hu as <-. apply unique_complete; [| exact Ht].
    apply (Hin (JDict fd) [Str.strip s] _ Hfd); [| left; reflexivity].
    cbn [folder_entry]. rewrite Huri, Ht. reflexivity.
  - intros Hu s Hp Ht.
    assert (Hentry : folder_entry fs workspace_file (JDict fd)
                     = folder_path fs workspace_file fd).
    { cbn [folder_entry]. unfold nonblank_str in Hu.
      destruct (dict_get fd "uri") as [| | | | u | |]; try reflexivity.
      destruct (Str.truthy (Str.strip u)); [discriminate | reflexivity]. }
    assert (Hq : exists q,
      (if Path.is_absolute (Path.of_str s) then q = Path.of_str s
       else fs_resolve fs
              (Path.joinpath (Path.parent workspace_file) (Path.of_str s))
            = inr q) /\
      exists vs, outcome (folder_path fs workspace_file fd)
                 = inr (Path.str q :: Str.replace "\" "/" (Path.str q) :: vs)).
    { unfold folder_path. rewrite Hp, Ht. io_simpl.
      destruct (Path.is_absolute (Path.of_str s)); cbn [negb].
      - exists (Path.of_str s). split; [reflexivity |]. io_simpl.
        destruct (win_uri_variants_outcome (Path.of_str s)) as [vs Hvs].
        rewrite Hvs. io_simpl. exists vs. reflexivity.
      - destruct (Hres (Path.joinpath (Path.parent workspace_file)
                          (Path.of_str s))) as [q Hq].
        exists q. split; [exact Hq |]. unfold resolve. io_simpl. rewrite Hq.
        io_simpl. destruct (win_uri_variants_outcome q) as [vs Hvs].
        rewrite Hvs. io_simpl. exists vs. reflexivity. }
    destruct Hq as (q & Hq & vs & Hout). exists q. split; [exact Hq |].
    intros Htq. rewrite <- Hentry in Hout. split.
    + apply unique_complete; [| exact Htq].
      apply (Hin _ _ _ Hfd Hout). left. reflexivity.
    + apply unique_complete; [| rewrite replace_truthy; exact Htq].
      apply (Hin _ _ _ Hfd Hout). right. left. reflexivity.
Qed.

Lemma load_code_workspace_folders_covers_folders_witness :
  exists needles,
    outcome (load_code_workspace_folders SampleFs.fs SampleFs.json_loads
               (Path.of_str "/ws/proj.code-workspace")) = inr needles /\
    In "file:///srv/lib" needles /\ In "/ws/app" needles /\
    In "/opt/tool" needles.
Proof.
  destruct (load_code_workspace_folders_covers_folders SampleFs.fs
              SampleFs.json_loads (Path.of_str "/ws/proj.code-workspace")
              [("folders", JList SampleFs.folders_list)]
              SampleFs.folders_list)
    as (needles & H1 & _ & H3).
  - intros q. eexists. reflexivity.
  - reflexivity.
  - reflexivity.
  - exists needles. split; [exact H1 |]. split; [| split].
    + apply (H3 [("uri", JStr " file:///srv/lib ")]); [cbn; auto |].
      reflexivity.
    + destruct (H3 [("path", JStr "app")]) as [_ H]; [cbn; auto |].
      destruct (H eq_refl "app" eq_refl eq_refl) as (q & Hq & Hin).
      cbn in Hq. injection Hq as <-. apply Hin. reflexivity.
    + destruct (H3 [("path", JStr "/opt/tool")]) as [_ H]; [cbn; auto |].
      destruct (H eq_refl "/opt/tool" eq_refl eq_refl) as (q & Hq & Hin).
      cbn in Hq. subst q. apply Hin. reflexivity.
Defined.

Lemma build_needles_head (fs : FS) (json_loads : string -> exn + json)
    (p : Path.t) (label : string) (needles : list string) :
  outcome (build_needles_for_workspace_input fs json_loads p)
    = inr (label, needles) ->
  exists rest, needles = Path.str p :: rest.
Proof.
  unfold build_needles_for_workspace_input, is_code_workspace_file,
    is_file, is_dir, to_file_uri, Path.as_uri.
  io_simpl.
  destruct (fs_is_file fs (Path.str p) &&
            String.eqb (Str.lower (Path.suffix p)) ".code-workspace")%bool.
  - destruct (Path.is_absolute p); io_simpl; [| discriminate].
    destruct (outcome (load_code_workspace_folders fs json_loads p));
      io_simpl; [discriminate |].
    intros H. injection H as _ <-. eexists. reflexivity.
  - io_simpl. destruct (fs_is_dir fs (Path.str p)); io_simpl.
    + destruct (Path.is_absolute p); io_simpl; [| discriminate].
      destruct (outcome (win_uri_variants p)); io_simpl; [discriminate |].
      intros H. injection H as _ <-. eexists. reflexivity.
    + intros H. injection H as _ <-. eexists. reflexivity.
Qed.

Lemma nonblank_slash (r : string) : nonblank (String "/" r) = true.
Proof.
  unfold nonblank, Str.strip. cbn [Str.truthy Str.lstrip andb].
  change (Str.isspace "/") with false. cbn iota.
  rewrite rstrip_cons_keep by reflexivity. reflexivity.
Qed.

(** X15: the needles built for an absolute path always start with the
    path's own text, which is a usable needle; so whenever
    [build_needles_for_workspace_input] returns for such a path, the
    needle check of [find_hashes_by_needles] passes on its result: the
    search does not fail with "No needles". *)
Theorem build_needles_then_find_hashes
    (fs : FS) (json_loads : string -> exn + json) (p : Path.t)
    (label : string) (needles : list string) (ws : Storage) :
  Path.root p = "/" \/ Path.root p = "//" ->
  outcome (build_needles_for_workspace_input fs json_loads p)
    = inr (label, needles) ->
  (exists rest, needles = Path.str p :: rest) /\
  List.existsb nonblank needles = true /\
  outcome (find_hashes_by_needles ws needles) <> inl (ValueError "No needles").
Proof.
  intros Hroot Hb.
  destruct (build_needles_head _ _ _ _ _ Hb) as [rest ->].
  assert (Hn : List.existsb nonblank (Path.str p :: rest) = true).
  { cbn [List.existsb].
    assert (Hs : exists r, Path.str p = String "/" r).
    { unfold Path.str. destruct Hroot as [-> | ->]; eexists; reflexivity. }
    destruct Hs as [r ->]. rewrite nonblank_slash. reflexivity. }
  split; [eexists; reflexivity |]. split; [exact Hn |].
  rewrite (find_hashes_outcome _ _ Hn). discriminate.
Qed.

Lemma build_needles_then_find_hashes_witness :
  outcome (build_needles_for_workspace_input Demo.fs Demo.json_loads
             (Path.of_str "/ws"))
  = inr ("WorkspaceFolder: /ws",
         ["/ws"; "/ws"; "file:///ws"; "file:///ws"; "file:///ws"]) /\
  outcome (find_hashes_by_needles Demo.two_hashes
             ["/ws"; "/ws"; "file:///ws"; "file:///ws"; "file:///ws"])
  <> inl (ValueError "No needles").
Proof.
  assert (H : outcome (build_needles_for_workspace_input Demo.fs
                         Demo.json_loads (Path.of_str "/ws"))
              = inr ("WorkspaceFolder: /ws",
                     ["/ws"; "/ws"; "file:///ws"; "file:///ws"; "file:///ws"])).
  { vm_compute. reflexivity. }
  split; [exact H |].
  destruct (build_needles_then_find_hashes Demo.fs Demo.json_loads
              (Path.of_str "/ws") "WorkspaceFolder: /ws"
              ["/ws"; "/ws"; "file:///ws"; "file:///ws"; "file:///ws"]
              Demo.two_hashes (or_introl eq_refl) H)
    as (_ & _ & H3).
  exact H3.
Defined.

(** ** Reconciliation Engine *)

Lemma rsplit_dot_shape (s a b : string) :
  Path.rsplit_dot s = Some (a, b) ->
  exists b', b = String "." b' /\ Path.rsplit_dot b' = None.
Proof.
  revert a b. induction s as [| c r IH]; intros a b; [discriminate |].
  cbn [Path.rsplit_dot].
  destruct (Path.rsplit_dot r) as [[a' b0] |] eqn:E.
  - intros H. injection H as _ <-. exact (IH _ _ eq_refl).
  - destruct (Ascii.eqb_spec c ".") as [-> | Hc]; [| discriminate].
    intros H. injection H as _ <-. exists r. split; [reflexivity | exact E].
Qed.

Lemma lower_char_dot (c : ascii) :
  Str.lower_char c = "."%char -> c = "."%char.
Proof.
  destruct c as [[] [] [] [] [] [] [] []]; vm_compute; intros H;
    first [reflexivity | discriminate H].
Qed.

Lemma lstrip_dots_not_dot (c : ascii) (r : string) :
  c <> "."%char -> lstrip_dots (String c r) = String c r.
Proof.
  destruct c as [[] [] [] [] [] [] [] []]; try reflexivity.
  intros H. destruct H. reflexivity.
Qed.

(** A suffix is empty, or a dot followed by a dot-free, non-empty text. *)
Lemma lower_suffix_shape (p : Path.t) :
  Str.lower (Path.suffix p) = "" \/
  exists t, Str.lower (Path.suffix p) = String "." t /\ lstrip_dots t = t.
Proof.
  unfold Path.suffix, Path.split_suffix.
  destruct (Path.rsplit_dot (Path.name p)) as [[a b] |] eqn:E;
    [| left; reflexivity].
  destruct (Str.truthy a && Nat.ltb 1 (String.length b))%bool;
    [| left; reflexivity].
  cbn [snd]. destruct (rsplit_dot_shape _ _ _ E) as (b' & -> & Hb').
  right. exists (Str.lower b'). split; [reflexivity |].
  destruct b' as [| c r]; [reflexivity |].
  cbn [Str.lower]. apply lstrip_dots_not_dot.
  intros Hc. apply lower_char_dot in Hc. subst c.
  cbn [Path.rsplit_dot] in Hb'. destruct (Path.rsplit_dot r) as [[? ?] |];
    discriminate.
Qed.

(** The two tests of the extension agree: [suffix.lower().lstrip(".")] is
    json (resp. jsonl) exactly when [suffix.lower()] is .json (resp.
    .jsonl). *)
Lemma ext_test_agrees (p : Path.t) (x : string) :
  x <> "" -> lstrip_dots x = x ->
  (lstrip_dots (Str.lower (Path.suffix p)) = x <->
   Str.lower (Path.suffix p) = String "." x).
Proof.
  intros Hx Hfix. split.
  - destruct (lower_suffix_shape p) as [E | (t & E & Ht)]; rewrite E.
    + cbn. intros H. congruence.
    + change (lstrip_dots (String "." t)) with (lstrip_dots t).
      rewrite Ht. intros ->. reflexivity.
  - intros ->. change (lstrip_dots (String "." x)) with (lstrip_dots x).
    exact Hfix.
Qed.

Lemma find_app {A} (f : A -> bool) (l1 l2 : list A) :
  List.find f (l1 ++ l2) =
  match List.find f l1 with Some x => Some x | None => List.find f l2 end.
Proof.
  induction l1 as [| x r IH]; [reflexivity |].
  cbn [List.app List.find]. destruct (f x); [reflexivity | exact IH].
Qed.

(** A run of assignments leaves, under each key, the value of the last
    assignment to it. *)
Lemma fold_insert_lookup {V} (kvs : list (string * V)) (m : gmap string V)
    (k : string) :
  List.fold_left (fun m kv => <[fst kv := snd kv]> m) kvs m !! k =
  match last_binding k kvs with
  | Some v => Some v
  | None => m !! k
  end.
Proof.
  revert m. induction kvs as [| [k0 v0] r IH]; intros m; [reflexivity |].
  cbn [List.fold_left fst snd]. rewrite IH. unfold last_binding.
  cbn [List.rev]. rewrite find_app.
  destruct (List.find _ (List.rev r)) as [[k1 v1] |]; [reflexivity |].
  cbn [List.find fst snd option_map].
  destruct (String.eqb_spec k0 k) as [-> | Hne].
  - cbn. apply lookup_insert_eq.
  - cbn. apply lookup_insert_ne. exact Hne.
Qed.

Lemma mem_two_false (x a b : string) :
  x <> a -> x <> b -> Str.mem x [a; b] = false.
Proof.
  intros Ha Hb. cbn [Str.mem].
  destruct (String.eqb_spec x a); [contradiction |].
  destruct (String.eqb_spec x b); [contradiction | reflexivity].
Qed.

(** X17 (see below) rests on this: a turn of the target-map loop assigns
    exactly the identifier and the updated time of the item the inventory
    loop builds for the same entry. *)
Lemma target_file_agrees (json_loads : string -> exn + json) (h : string)
    (chat_dir : Path.t) (e : ChatEntry) :
  outcome (target_file json_loads chat_dir e) =
  inr (option_map
         (fun i => (SessionItem.session_id i, SessionItem.updated i))
         (session_of json_loads h chat_dir e)).
Proof.
  unfold session_of, session_file, target_file, stat_created_updated.
  destruct (ce_file e) as [f |]; [| reflexivity].
  io_simpl.
  set (p := Path.child chat_dir (ce_name e)).
  pose proof (ext_test_agrees p "json") as Hjson.
  pose proof (ext_test_agrees p "jsonl") as Hjsonl.
  destruct (String.eqb_spec (Str.lower (Path.suffix p)) ".json") as [E | N1].
  - rewrite E.
    change (lstrip_dots ".json") with "json".
    cbn [Str.mem String.eqb Ascii.eqb Bool.eqb orb negb]. io_simpl.
    destruct (try_parse_total json_loads p f) as [[[sid2 title2] cms] Hr].
    rewrite Hr. io_simpl.
    destruct cms as [ms |]; [destruct (negb (ms =? 0)) |]; io_simpl;
      try destruct (outcome (fromtimestamp_ms ms)); io_simpl; reflexivity.
  - destruct (String.eqb_spec (Str.lower (Path.suffix p)) ".jsonl") as [E | N2].
    + rewrite E. reflexivity.
    + rewrite (mem_two_false _ _ _ N1 N2). cbn [negb]. io_simpl.
      rewrite mem_two_false; [reflexivity | |].
      * intros H. apply N1, Hjson; [discriminate | reflexivity | exact H].
      * intros H. apply N2, Hjsonl; [discriminate | reflexivity | exact H].
Qed.

Lemma target_bindings_items (json_loads : string -> exn + json) (h : string)
    (chat_dir : Path.t) (es : list ChatEntry) :
  target_bindings json_loads chat_dir es =
  List.map (fun i => (SessionItem.session_id i, SessionItem.updated i))
    (chat_items json_loads h chat_dir es).
Proof.
  induction es as [| e r IH]; [reflexivity |].
  cbn [target_bindings chat_items List.flat_map].
  unfold target_binding. rewrite (target_file_agrees json_loads h).
  destruct (session_of json_loads h chat_dir e); cbn [option_map List.app List.map];
    [f_equal |]; exact IH.
Qed.

Lemma target_loop_outcome (json_loads : string -> exn + json)
    (chat_dir : Path.t) (es : list ChatEntry) (m : gmap string datetime) :
  outcome (target_loop json_loads chat_dir es m) =
  inr (List.fold_left (fun m kv => <[fst kv := snd kv]> m)
         (target_bindings json_loads chat_dir es) m).
Proof.
  revert m. induction es as [| e r IH]; intros m; [reflexivity |].
  cbn [target_loop target_bindings List.flat_map]. io_simpl.
  unfold target_binding. rewrite (target_file_agrees json_loads "").
  rewrite IH, List.fold_left_app.
  unfold target_bindings, target_binding.
  destruct (session_of json_loads "" chat_dir e) as [i |]; reflexivity.
Qed.

(** The target map, looked up. *)
Lemma target_session_map_last_wins_aux
    (json_loads : string -> exn + json) (ws : Storage) (target_hash : string) :
  exists m,
    outcome (target_session_map json_loads ws target_hash) = inr m /\
    (chat_dir_of ws target_hash = ChatAbsent \/
     chat_dir_of ws target_hash = ChatNotDir -> m = ∅) /\
    (forall es, chat_dir_of ws target_hash = ChatEntries es ->
       forall sid,
         m !! sid =
         last_binding sid
           (target_bindings json_loads (chat_path ws target_hash) es)).
Proof.
  unfold target_session_map.
  destruct (chat_dir_of ws target_hash) as [| | es].
  - exists ∅. split; [reflexivity |]. split; [reflexivity | discriminate].
  - exists ∅. split; [reflexivity |]. split; [reflexivity | discriminate].
  - io_simpl. rewrite target_loop_outcome. eexists. split; [reflexivity |].
    split; [intros [H | H]; discriminate |].
    intros es' H sid. injection H as <-.
    rewrite fold_insert_lookup, lookup_empty.
    destruct (last_binding sid _); reflexivity.
Qed.


(** X16: the map [target_session_map] returns is empty when the target
    hash has no chat folder (absent, or not a directory); otherwise it
    maps each session identifier to the updated time stored by the last
    assignment made for it in iteration order, so when two files yield the
    same identifier the later one wins. *)
Theorem target_session_map_last_wins
    (json_loads : string -> exn + json) (ws : Storage) (target_hash : string)
    (m : gmap string datetime) :
  outcome (target_session_map json_loads ws target_hash) = inr m ->
  (chat_dir_of ws target_hash = ChatAbsent \/
   chat_dir_of ws target_hash = ChatNotDir -> m = ∅) /\
  (forall es, chat_dir_of ws target_hash = ChatEntries es ->
     forall sid,
       m !! sid =
       last_binding sid
         (target_bindings json_loads (chat_path ws target_hash) es)).
Proof.
  intros Hm.
  destruct (target_session_map_last_wins_aux json_loads ws target_hash)
    as (m' & Hm' & Habs & Hes).
  rewrite Hm' in Hm. injection Hm as <-. split; assumption.
Qed.

Lemma target_session_map_last_wins_witness :
  exists m,
    outcome (target_session_map Sample.json_loads SampleChat.storage "h1")
      = inr m /\
    m !! "abc" = Some (dt_from_ts 7) /\
    m !! "log" = Some (dt_from_ts 9) /\
    m !! "notes" = None.
Proof.
  eexists. split; [vm_compute; reflexivity |].
  destruct (target_session_map_last_wins Sample.json_loads SampleChat.storage
              "h1" _ eq_refl) as [_ H].
  rewrite !(H SampleChat.folder eq_refl).
  split; [reflexivity |]. split; reflexivity.
Defined.

(** The assignments are the items' pairs. *)
Lemma target_map_scans_agree
    (json_loads : string -> exn + json) (ws : Storage) (h : string)
    (es : list ChatEntry) :
  chat_dir_of ws h = ChatEntries es ->
  target_bindings json_loads (chat_path ws h) es =
  List.map (fun i => (SessionItem.session_id i, SessionItem.updated i))
    (inventory_items json_loads ws [h]).
Proof.
  intros Hcd. unfold inventory_items. cbn [List.flat_map]. rewrite Hcd.
  rewrite List.app_nil_r. apply target_bindings_items.
Qed.

(** X17: the target map is built from the same files, identifiers and
    updated times as the inventory: although the two loops test the
    extension differently ([suffix.lower()] against ".json"/".jsonl" there,
    [suffix.lower().lstrip(".")] against "json"/"jsonl" here), the
    assignments made for a chat folder are exactly the pairs (identifier,
    updated time) of the items the inventory builds for it, in the same
    order. *)
Theorem target_map_scans_like_inventory
    (json_loads : string -> exn + json) (ws : Storage) (h : string)
    (es : list ChatEntry) :
  chat_dir_of ws h = ChatEntries es ->
  target_bindings json_loads (chat_path ws h) es =
  List.map (fun i => (SessionItem.session_id i, SessionItem.updated i))
    (inventory_items json_loads ws [h]).
Proof. apply target_map_scans_agree. Qed.

Lemma target_map_scans_like_inventory_witness :
  target_bindings Demo.session_loads (chat_path Demo.chat_storage "h1")
    [Demo.zero_session]
  = [("abc", dt_from_ts 222)].
Proof.
  rewrite (target_map_scans_like_inventory Demo.session_loads
             Demo.chat_storage "h1" [Demo.zero_session] eq_refl).
  vm_compute. reflexivity.
Defined.

Lemma last_binding_in {V} (k : string) (v : V) (kvs : list (string * V)) :
  In (k, v) kvs ->
  exists v', last_binding k kvs = Some v' /\ In (k, v') kvs.
Proof.
  intros Hin. unfold last_binding.
  destruct (List.find (fun kv => String.eqb (fst kv) k) (List.rev kvs))
    as [[k' v'] |] eqn:E.
  - apply List.find_some in E. destruct E as [E1 E2]. cbn in E2.
    apply String.eqb_eq in E2. subst k'. exists v'. split; [reflexivity |].
    apply List.in_rev. exact E1.
  - apply List.in_rev in Hin.
    pose proof (List.find_none _ _ E (k, v) Hin) as H.
    cbn in H. rewrite String.eqb_refl in H. discriminate.
Qed.

Lemma NoDup_keys_functional {V} (k : string) (v v' : V)
    (kvs : list (string * V)) :
  List.NoDup (List.map fst kvs) -> In (k, v) kvs -> In (k, v') kvs -> v = v'.
Proof.
  induction kvs as [| [k0 v0] r IH]; intros Hnd H1 H2; [destruct H1 |].
  cbn [List.map fst] in Hnd. apply List.NoDup_cons_iff in Hnd.
  destruct Hnd as [Hk Hnd].
  assert (Hfst : forall w, In (k0, w) r -> False).
  { intros w Hw. apply Hk. apply (List.in_map fst) in Hw. exact Hw. }
  destruct H1 as [H1 | H1]; destruct H2 as [H2 | H2].
  - congruence.
  - injection H1 as -> ->. destruct (Hfst _ H2).
  - injection H2 as -> ->. destruct (Hfst _ H1).
  - exact (IH Hnd H1 H2).
Qed.

(** X18: reconciling a hash against itself never asks for a copy of a
    session the hash already has: for every item of the inventory of [h],
    judged against the target map of the same [h], the decision is never
    "MissingInTarget"; and when no two files of the folder yield the same
    identifier, it is "AlreadyInTarget" for every item. *)
Theorem self_reconciliation_finds_nothing_missing
    (json_loads : string -> exn + json) (ws : Storage) (h : string) :
  exists items m,
    outcome (session_inventory json_loads ws [h]) = inr items /\
    outcome (target_session_map json_loads ws h) = inr m /\
    (forall i, In i items -> status_for i m <> "MissingInTarget") /\
    (List.NoDup (List.map SessionItem.session_id items) ->
     forall i, In i items -> status_for i m = "AlreadyInTarget").
Proof.
  destruct (target_session_map_last_wins_aux json_loads ws h)
    as (m & Hm & _ & Hlk).
  exists (sort_reverse SessionItem.updated (inventory_items json_loads ws [h])), m.
  split; [apply session_inventory_outcome |]. split; [exact Hm |].
  pose proof (sort_reverse_perm SessionItem.updated
                (inventory_items json_loads ws [h])) as Hp.
  assert (Hkey : forall i,
    In i (sort_reverse SessionItem.updated (inventory_items json_loads ws [h])) ->
    exists t, m !! SessionItem.session_id i = Some t /\
      exists i', In i' (inventory_items json_loads ws [h]) /\
                 SessionItem.session_id i' = SessionItem.session_id i /\
                 SessionItem.updated i' = t).
  { intros i Hi. apply (Permutation_in _ (Permutation_sym Hp)) in Hi.
    destruct (chat_dir_of ws h) as [| | es] eqn:Hcd;
      try (unfold inventory_items in Hi; cbn [List.flat_map] in Hi;
           rewrite Hcd in Hi; destruct Hi).
    rewrite (Hlk es eq_refl).
    rewrite (target_map_scans_agree json_loads ws h es Hcd).
    assert (Hin : In (SessionItem.session_id i, SessionItem.updated i)
                    (List.map (fun i => (SessionItem.session_id i,
                                         SessionItem.updated i))
                       (inventory_items json_loads ws [h]))).
    { apply (List.in_map (fun i => (SessionItem.session_id i,
                                    SessionItem.updated i))). exact Hi. }
    destruct (last_binding_in _ _ _ Hin) as (t & Ht & Hint).
    exists t. split; [exact Ht |].
    apply List.in_map_iff in Hint. destruct Hint as (i' & Heq & Hi').
    injection Heq as H1 H2. exists i'. auto. }
  split.
  - intros i Hi. destruct (Hkey i Hi) as (t & Ht & _).
    unfold status_for. unfold datetime in *. rewrite Ht.
    destruct (t <? SessionItem.updated i); discriminate.
  - intros Hnd i Hi. destruct (Hkey i Hi) as (t & Ht & i' & Hi' & Hid & Hup).
    assert (Heq : SessionItem.updated i = t).
    { rewrite <- Hup.
      apply (NoDup_keys_functional (SessionItem.session_id i) _ _
               (List.map (fun i => (SessionItem.session_id i,
                                    SessionItem.updated i))
                  (sort_reverse SessionItem.updated
                     (inventory_items json_loads ws [h])))).
      - rewrite List.map_map. cbn [fst]. exact Hnd.
      - apply (List.in_map (fun i => (SessionItem.session_id i,
                                      SessionItem.updated i))). exact Hi.
      - rewrite <- Hid.
        apply (List.in_map (fun i => (SessionItem.session_id i,
                                      SessionItem.updated i))).
        apply (Permutation_in _ Hp). exact Hi'. }
    unfold status_for. unfold datetime in *.
    rewrite Ht, <- Heq, Z.ltb_irrefl. reflexivity.
Qed.

(** ** Prompts and selections *)

Lemma mem_int_In (n : Z) (l : list Z) : mem_int n l = true <-> In n l.
Proof.
  induction l as [| m r IH]; simpl.
  - split; [discriminate | intros []].
  - rewrite orb_true_iff, IH, Z.eqb_eq. split; intros [H | H]; auto.
Qed.

Lemma in_range_1_to (n max_n : Z) : In n (range_1_to max_n) <-> 1 <= n <= max_n.
Proof.
  unfold range_1_to. rewrite List.in_map_iff. split.
  - intros (k & <- & Hk). apply List.in_seq in Hk. lia.
  - intros H. exists (Z.to_nat n). split; [lia |]. apply List.in_seq. lia.
Qed.

Lemma NoDup_range_1_to (max_n : Z) : List.NoDup (range_1_to max_n).
Proof.
  unfold range_1_to.
  generalize (List.seq_NoDup (Z.to_nat max_n) 1).
  generalize (List.seq 1 (Z.to_nat max_n)). intros l.
  induction 1 as [| x r Hx Hnd IH]; cbn [List.map]; constructor.
  - intros H. apply List.in_map_iff in H. destruct H as (y & Hy & Hin).
    apply Nat2Z.inj in Hy. subst y. contradiction.
  - exact IH.
Qed.

Lemma unique_ints_spec (out nums : list Z) :
  List.NoDup out ->
  List.NoDup (unique_ints out nums) /\
  forall n, In n (unique_ints out nums) <-> In n out \/ In n nums.
Proof.
  revert out. induction nums as [| n r IH]; intros out Hnd; cbn [unique_ints].
  - split; [exact Hnd |]. intros n. split; [auto | intros [H | []]; exact H].
  - destruct (mem_int n out) eqn:Hm.
    + destruct (IH out Hnd) as [H1 H2]. split; [exact H1 |].
      intros x. rewrite H2. apply mem_int_In in Hm. split.
      * intros [H | H]; [left; exact H | right; right; exact H].
      * intros [H | [<- | H]]; [left; exact H | left; exact Hm | right; exact H].
    + assert (Hn : ~ In n out).
      { intros H. apply mem_int_In in H. congruence. }
      assert (Hnd' : List.NoDup (out ++ [n])).
      { apply List.NoDup_app; [exact Hnd | constructor; [intros [] | constructor] |].
        intros x Hx [<- | []]. contradiction. }
      destruct (IH (out ++ [n])%list Hnd') as [H1 H2]. split; [exact H1 |].
      intros x. rewrite H2, List.in_app_iff. cbn [In]. tauto.
Qed.

(** What the loop over the comma-separated parts adds to [nums]. *)
Lemma parts_loop_spec (int_of_str : string -> option Z) (parts : list string)
    (max_n : Z) (nums l : list Z) :
  outcome (parts_loop int_of_str parts max_n nums) = inr l ->
  forall n, In n l ->
    In n nums \/
    (1 <= n <= max_n /\
     exists part, In part parts /\ isdigit (Str.strip part) = true /\
                  int_of_str (Str.strip part) = Some n).
Proof.
  revert nums. induction parts as [| part rest IH]; intros nums Hl n Hn.
  - cbn in Hl. injection Hl as <-. left. exact Hn.
  - cbn [parts_loop] in Hl.
    assert (Hrest : forall nums',
      outcome (parts_loop int_of_str rest max_n nums') = inr l ->
      (forall x, In x nums' -> In x nums \/
         (1 <= x <= max_n /\ isdigit (Str.strip part) = true /\
          int_of_str (Str.strip part) = Some x)) ->
      In n nums \/
      (1 <= n <= max_n /\
       exists part0, In part0 (part :: rest) /\
         isdigit (Str.strip part0) = true /\
         int_of_str (Str.strip part0) = Some n)).
    { intros nums' Hl' Hsub.
      destruct (IH nums' Hl' n Hn) as [H | (Hb & p0 & Hp0 & Hd & Hi)].
      - destruct (Hsub n H) as [H' | (Hb & Hd & Hi)]; [left; exact H' |].
        right. split; [exact Hb |]. exists part. cbn [In]. auto.
      - right. split; [exact Hb |]. exists p0. cbn [In]. auto. }
    destruct (negb (Str.truthy (Str.strip part))).
    + apply (Hrest nums Hl). auto.
    + destruct (isdigit (Str.strip part)) eqn:Hd.
      * rewrite outcome_bind in Hl. unfold py_int in Hl.
        destruct (int_of_str (Str.strip part)) as [k |] eqn:Hk;
          [| discriminate].
        rewrite outcome_ret in Hl.
        destruct ((1 <=? k) && (k <=? max_n))%bool eqn:Hb.
        -- apply (Hrest _ Hl). intros x Hx.
           apply List.in_app_or in Hx. destruct Hx as [Hx | [<- | []]];
             [left; exact Hx |].
           right. apply andb_prop in Hb. destruct Hb as [H1 H2].
           split; [lia | auto].
        -- apply (Hrest nums Hl). auto.
      * apply (Hrest nums Hl). auto.
Qed.

(** X19: whatever [parse_selection] returns is a list of distinct numbers
    between 1 and [max_n], so each is a valid row number; unless the input
    is the word all, each number is the value of a comma-separated token
    made of digits only: signs, decimals, words and empty tokens select
    nothing. *)
Theorem parse_selection_valid_rows
    (int_of_str : string -> option Z) (raw : string) (max_n : Z) (l : list Z) :
  outcome (parse_selection int_of_str raw max_n) = inr l ->
  List.NoDup l /\
  (forall n, In n l -> 1 <= n <= max_n) /\
  (Str.lower (strip_char "`" (Str.strip raw)) <> "all" ->
   forall n, In n l ->
     exists part,
       In part (Str.split "," (Str.lower (strip_char "`" (Str.strip raw)))) /\
       isdigit (Str.strip part) = true /\
       int_of_str (Str.strip part) = Some n).
Proof.
  unfold parse_selection.
  destruct (String.eqb_spec (Str.lower (strip_char "`" (Str.strip raw))) "all")
    as [E | N].
  - intros H. injection H as <-. split; [apply NoDup_range_1_to |].
    split; [intros n Hn; apply in_range_1_to; exact Hn | contradiction].
  - rewrite outcome_bind.
    destruct (outcome (parts_loop int_of_str _ max_n [])) as [e | nums] eqn:Hp;
      [discriminate |].
    rewrite outcome_ret. intros H. injection H as <-.
    destruct (unique_ints_spec [] nums (List.NoDup_nil Z)) as [Hnd Hin].
    assert (Hall : forall n, In n (unique_ints [] nums) ->
      1 <= n <= max_n /\
      exists part,
        In part (Str.split "," (Str.lower (strip_char "`" (Str.strip raw)))) /\
        isdigit (Str.strip part) = true /\
        int_of_str (Str.strip part) = Some n).
    { intros n Hn. apply Hin in Hn. destruct Hn as [[] | Hn].
      destruct (parts_loop_spec _ _ _ _ _ Hp n Hn) as [[] | H]. exact H. }
    split; [exact Hnd |]. split.
    + intros n Hn. apply (Hall n Hn).
    + intros _ n Hn. apply (Hall n Hn).
Qed.

Lemma parse_selection_valid_rows_witness :
  outcome (parse_selection SampleInt.int_of_str " `3, 1,,x, -2, 3,2 ,9, 007` " 5)
    = inr [3; 1; 2] /\
  List.NoDup [3; 1; 2] /\ (forall n, In n [3; 1; 2] -> 1 <= n <= 5).
Proof.
  assert (H : outcome (parse_selection SampleInt.int_of_str
                         " `3, 1,,x, -2, 3,2 ,9, 007` " 5) = inr [3; 1; 2])
    by (vm_compute; reflexivity).
  split; [exact H |].
  destruct (parse_selection_valid_rows SampleInt.int_of_str _ 5 _ H)
    as (H1 & H2 & _).
  split; [exact H1 | exact H2].
Defined.

(** X20: when the answer, once outer white space and then outer
    backticks are stripped, is the word all in any letter case,
    [parse_selection] selects every row: the result is 1, 2, ..., [max_n]
    (empty when [max_n] is below 1), whatever [int] would do. *)
Theorem parse_selection_all
    (int_of_str : string -> option Z) (raw : string) (max_n : Z) :
  Str.lower (strip_char "`" (Str.strip raw)) = "all" ->
  exists l,
    parse_selection int_of_str raw max_n = ([], inr l) /\
    (forall n, In n l <-> 1 <= n <= max_n) /\
    List.NoDup l /\
    List.length l = Z.to_nat max_n.
Proof.
  intros H. unfold parse_selection. rewrite H. cbn [String.eqb Ascii.eqb Bool.eqb].
  exists (range_1_to max_n). split; [reflexivity |].
  split; [intros n; apply in_range_1_to |].
  split; [apply NoDup_range_1_to |].
  unfold range_1_to. rewrite List.length_map, List.length_seq. reflexivity.
Qed.

Lemma parse_selection_all_witness :
  exists l,
    parse_selection (fun _ => None) " `ALL` " 3 = ([], inr l) /\
    List.length l = 3%nat.
Proof.
  destruct (parse_selection_all (fun _ => None) " `ALL` " 3 eq_refl)
    as (l & H1 & _ & _ & H4).
  exists l. split; [exact H1 | exact H4].
Defined.

Lemma parts_loop_raises (int_of_str : string -> option Z)
    (parts : list string) (max_n : Z) (nums : list Z) :
  (exists part, In part parts /\ isdigit (Str.strip part) = true /\
                int_of_str (Str.strip part) = None) ->
  outcome (parts_loop int_of_str parts max_n nums)
  = inl (ValueError "invalid literal for int() with base 10").
Proof.
  revert nums. induction parts as [| part rest IH]; intros nums (p & Hp & Hd & Hi);
    [destruct Hp |].
  cbn [parts_loop].
  destruct Hp as [<- | Hp].
  - assert (Ht : Str.truthy (Str.strip part) = true).
    { unfold isdigit in Hd. apply andb_prop in Hd. apply Hd. }
    rewrite Ht, Hd. cbn [negb]. rewrite outcome_bind. unfold py_int.
    rewrite Hi. reflexivity.
  - assert (Hr : forall nums',
      outcome (parts_loop int_of_str rest max_n nums')
      = inl (ValueError "invalid literal for int() with base 10")).
    { intros nums'. apply IH. exists p. auto. }
    destruct (negb (Str.truthy (Str.strip part))); [apply Hr |].
    destruct (isdigit (Str.strip part)); [| apply Hr].
    rewrite outcome_bind. unfold py_int.
    destruct (int_of_str (Str.strip part)); [| reflexivity].
    rewrite outcome_ret. apply Hr.
Qed.

(** X21: a token that passes [isdigit] but that [int] rejects (a
    superscript digit such as the character 178, or more digits than the
    interpreter accepts) is not skipped: [parse_selection] raises
    [ValueError] to its caller. *)
Theorem parse_selection_raises_on_rejected_digits
    (int_of_str : string -> option Z) (raw : string) (max_n : Z) :
  Str.lower (strip_char "`" (Str.strip raw)) <> "all" ->
  (exists part,
     In part (Str.split "," (Str.lower (strip_char "`" (Str.strip raw)))) /\
     isdigit (Str.strip part) = true /\
     int_of_str (Str.strip part) = None) ->
  outcome (parse_selection int_of_str raw max_n)
  = inl (ValueError "invalid literal for int() with base 10").
Proof.
  intros N H. unfold parse_selection.
  destruct (String.eqb_spec (Str.lower (strip_char "`" (Str.strip raw))) "all");
    [contradiction |].
  rewrite outcome_bind, (parts_loop_raises _ _ _ _ H). reflexivity.
Qed.

Lemma parse_selection_raises_on_rejected_digits_witness :
  isdigit (String (ascii_of_N 178) "") = true /\
  outcome (parse_selection SampleInt.int_of_str
             ("1," ++ String (ascii_of_N 178) "") 5)
  = inl (ValueError "invalid literal for int() with base 10").
Proof.
  split; [reflexivity |].
  apply (parse_selection_raises_on_rejected_digits SampleInt.int_of_str
           ("1," ++ String (ascii_of_N 178) "") 5).
  - vm_compute. discriminate.
  - exists (String (ascii_of_N 178) ""). split; [vm_compute; auto |].
    split; reflexivity.
Defined.

(** X22: [choose_int] answers the default for a line that is empty once
    blanks and then backticks are stripped, and for a line [int] rejects;
    otherwise it answers the number clamped to [min_v .. max_v].  So with
    [min_v <= default <= max_v] the answer always lies in that range, and
    with [min_v = 1] and [max_v] the length of a list it is a valid
    one-based position in that list. *)
Theorem choose_int_in_range
    (int_of_str : string -> option Z) (line : string) (default min_v max_v : Z) :
  let raw := strip_char "`" (Str.strip line) in
  (raw = "" -> choose_int int_of_str line default min_v max_v = default) /\
  (int_of_str raw = None ->
   choose_int int_of_str line default min_v max_v = default) /\
  (forall n, raw <> "" -> int_of_str raw = Some n ->
     choose_int int_of_str line default min_v max_v
     = Z.max min_v (Z.min max_v n)) /\
  (min_v <= default <= max_v ->
   min_v <= choose_int int_of_str line default min_v max_v <= max_v) /\
  (forall (A : Type) (l : list A),
     min_v = 1 -> max_v = Z.of_nat (List.length l) ->
     min_v <= default <= max_v ->
     exists x,
       List.nth_error l
         (Z.to_nat (choose_int int_of_str line default min_v max_v - 1))
       = Some x).
Proof.
  intros raw.
  assert (Hr : min_v <= default <= max_v ->
               min_v <= choose_int int_of_str line default min_v max_v <= max_v).
  { intros Hd. unfold choose_int. destruct (negb (Str.truthy _)); [exact Hd |].
    destruct (int_of_str _); [lia | exact Hd]. }
  split; [| split; [| split; [| split]]].
  - intros E. unfold choose_int. fold raw. rewrite E. reflexivity.
  - intros E. unfold choose_int. fold raw. rewrite E.
    destruct (negb (Str.truthy raw)); reflexivity.
  - intros n Hne Hn. unfold choose_int. fold raw. rewrite Hn.
    destruct raw; [contradiction | reflexivity].
  - exact Hr.
  - intros A l Hmin Hmax Hd. specialize (Hr Hd).
    destruct (List.nth_error l
                (Z.to_nat (choose_int int_of_str line default min_v max_v - 1)))
      as [x |] eqn:E; [exists x; reflexivity |].
    apply List.nth_error_None in E. lia.
Qed.

Lemma choose_int_in_range_witness :
  choose_int SampleInt.int_of_str " `7` " 1 1 3 = 3 /\
  choose_int SampleInt.int_of_str " `x` " 2 1 3 = 2 /\
  choose_int SampleInt.int_of_str " `` " 2 1 3 = 2 /\
  1 <= choose_int SampleInt.int_of_str " `7` " 1 1 3 <= 3.
Proof.
  destruct (choose_int_in_range SampleInt.int_of_str " `7` " 1 1 3)
    as (_ & _ & H3 & H4 & _).
  destruct (choose_int_in_range SampleInt.int_of_str " `x` " 2 1 3)
    as (_ & H2 & _).
  destruct (choose_int_in_range SampleInt.int_of_str " `` " 2 1 3)
    as (H1 & _).
  split; [exact (H3 7 ltac:(discriminate) eq_refl) |].
  split; [exact (H2 eq_refl) |].
  split; [exact (H1 eq_refl) |].
  apply H4. lia.
Defined.

Lemma status_for_values (it : SessionItem.t) (tmap : gmap string datetime) :
  status_for it tmap = "MissingInTarget" \/
  status_for it tmap = "NewerInSource" \/
  status_for it tmap = "AlreadyInTarget".
Proof.
  unfold status_for. destruct (tmap !! SessionItem.session_id it) as [t |];
    [destruct (t <? SessionItem.updated it) |]; auto.
Qed.

Lemma default_sel_cons (row : Z * SessionItem.t * string)
    (rows : list (Z * SessionItem.t * string)) :
  default_sel (row :: rows) =
  if Str.mem (snd row) ["MissingInTarget"; "NewerInSource"]
  then fst (fst row) :: default_sel rows
  else default_sel rows.
Proof.
  unfold default_sel. cbn [List.filter].
  destruct (Str.mem (snd row) ["MissingInTarget"; "NewerInSource"]); reflexivity.
Qed.

Lemma default_sel_rows (i : Z) (inv : list SessionItem.t)
    (tmap : gmap string datetime) (n : Z) :
  In n (default_sel (build_rows i inv tmap)) <->
  exists it,
    i <= n /\ List.nth_error inv (Z.to_nat (n - i)) = Some it /\
    status_for it tmap <> "AlreadyInTarget".
Proof.
  revert i. induction inv as [| it0 rest IH]; intros i.
  - cbn. split; [intros [] |]. intros (it & _ & H & _).
    destruct (Z.to_nat (n - i)); discriminate.
  - cbn [build_rows]. rewrite default_sel_cons. cbn [fst snd].
    assert (Hsel : Str.mem (status_for it0 tmap)
                     ["MissingInTarget"; "NewerInSource"] = true <->
                   status_for it0 tmap <> "AlreadyInTarget").
    { rewrite mem_In. cbn [In].
      destruct (status_for_values it0 tmap) as [E | [E | E]]; rewrite E;
        split; intros H;
        first [ discriminate
              | left; reflexivity
              | right; left; reflexivity
              | exfalso; destruct H as [H | [H | []]]; discriminate
              | exfalso; apply H; reflexivity ]. }
    specialize (IH (i + 1)).
    assert (Hlater : In n (default_sel (build_rows (i + 1) rest tmap)) <->
      exists it, i + 1 <= n /\
        List.nth_error (it0 :: rest) (Z.to_nat (n - i)) = Some it /\
        status_for it tmap <> "AlreadyInTarget").
    { rewrite IH. split; intros (it & Hle & Hnth & Hst); exists it;
        (split; [exact Hle |]); (split; [| exact Hst]).
      - replace (Z.to_nat (n - i)) with (S (Z.to_nat (n - (i + 1)))) by lia.
        exact Hnth.
      - replace (Z.to_nat (n - i)) with (S (Z.to_nat (n - (i + 1)))) in Hnth
          by lia.
        exact Hnth. }
    assert (Hhead : forall it, i <= n ->
      List.nth_error (it0 :: rest) (Z.to_nat (n - i)) = Some it ->
      n = i /\ it = it0 \/ i + 1 <= n).
    { intros it Hle Hnth. destruct (Z.eq_dec n i) as [-> | Hne]; [| right; lia].
      left. replace (Z.to_nat (i - i)) with 0%nat in Hnth by lia.
      cbn in Hnth. injection Hnth as <-. auto. }
    destruct (Str.mem (status_for it0 tmap) ["MissingInTarget"; "NewerInSource"])
      eqn:Em.
    + cbn [In]. rewrite Hlater. split.
      * intros [<- | (it & Hle & Hnth & Hst)].
        -- exists it0. split; [lia |]. split; [| apply Hsel; reflexivity].
           replace (Z.to_nat (i - i)) with 0%nat by lia. reflexivity.
        -- exists it. split; [lia | auto].
      * intros (it & Hle & Hnth & Hst).
        destruct (Hhead it Hle Hnth) as [[-> ->] | Hgt]; [left; reflexivity |].
        right. exists it. auto.
    + rewrite Hlater. split.
      * intros (it & Hle & Hnth & Hst). exists it. split; [lia | auto].
      * intros (it & Hle & Hnth & Hst).
        destruct (Hhead it Hle Hnth) as [[-> ->] | Hgt].
        -- apply Hsel in Hst. congruence.
        -- exists it. auto.
Qed.

(** X23: the default selection of the wizard is exactly the row numbers
    (counted from 1) of the inventory items whose decision is not
    "AlreadyInTarget", that is the items missing in the target or newer in
    the source; every number in it is a valid row number. *)
Theorem default_selection_is_missing_or_newer
    (inv : list SessionItem.t) (tmap : gmap string datetime) (n : Z) :
  In n (default_sel (build_rows 1 inv tmap)) <->
  exists it,
    1 <= n <= Z.of_nat (List.length inv) /\
    List.nth_error inv (Z.to_nat (n - 1)) = Some it /\
    (tmap !! SessionItem.session_id it = None \/
     exists t, tmap !! SessionItem.session_id it = Some t /\
               t < SessionItem.updated it).
Proof.
  rewrite default_sel_rows. split.
  - intros (it & Hle & Hnth & Hst). exists it.
    assert (Hlen : (Z.to_nat (n - 1) < List.length inv)%nat).
    { apply List.nth_error_Some. congruence. }
    split; [lia |]. split; [exact Hnth |].
    unfold status_for in Hst. unfold datetime in *.
    destruct (tmap !! SessionItem.session_id it) as [t |]; [| left; reflexivity].
    right. exists t. split; [reflexivity |].
    destruct (Z.ltb_spec t (SessionItem.updated it)); [assumption |].
    destruct Hst. reflexivity.
  - intros (it & Hle & Hnth & Hst). exists it. split; [lia |].
    split; [exact Hnth |]. unfold status_for. unfold datetime in *.
    destruct Hst as [E | (t & E & Hlt)]; rewrite E; [discriminate |].
    destruct (Z.ltb_spec t (SessionItem.updated it)); [discriminate | lia].
Qed.

(** ** The index builder *)

Lemma index_title_nonempty (obj : list (string * json)) (keys : list string)
    (title : string) :
  title <> "" -> index_title obj keys title <> "".
Proof.
  intros Ht. induction keys as [| k r IH]; [exact Ht |].
  cbn [index_title]. destruct (dict_get obj k); try exact IH.
  destruct (Str.truthy (Str.strip s)) eqn:E; [| exact IH].
  intros H. rewrite H in E. discriminate E.
Qed.

Lemma index_json_file_total (json_loads : string -> exn + json)
    (file_mtime_ms : Path.t -> Z) (chat_dir : Path.t) (e : ChatEntry) :
  exists k title is_empty,
    outcome (index_json_file json_loads file_mtime_ms chat_dir e) =
    inr (k, IndexEntry.mk k title
              (file_mtime_ms (Path.child chat_dir (ce_name e)))
              is_empty false) /\
    title <> "".
Proof.
  unfold index_json_file, entry_read_utf8, file_read_utf8, loads.
  io_simpl.
  destruct (ce_file e) as [f |]; io_simpl;
    [destruct (utf8 f) as [text |]; io_simpl;
     [destruct (json_loads text) as [x | [| | | | | | obj]]; io_simpl |] |];
    try (eexists _, _, _; split; [reflexivity | discriminate]).
  eexists _, _, _; split; [reflexivity |].
  apply index_title_nonempty. discriminate.
Qed.

Lemma index_json_loop_outcome (json_loads : string -> exn + json)
    (file_mtime_ms : Path.t -> Z) (chat_dir : Path.t) (es : list ChatEntry)
    (m : gmap string IndexEntry.t) :
  outcome (index_json_loop json_loads file_mtime_ms chat_dir es m) =
  inr (List.fold_left (fun m kv => <[fst kv := snd kv]> m)
         (List.flat_map
            (fun e =>
               match index_json_binding json_loads file_mtime_ms chat_dir e with
               | Some kv => [kv]
               | None => []
               end) es) m).
Proof.
  revert m. induction es as [| e r IH]; intros m; [reflexivity |].
  cbn [index_json_loop List.flat_map]. io_simpl.
  unfold index_json_binding.
  destruct (index_json_file_total json_loads file_mtime_ms chat_dir e)
    as (k & title & is_empty & -> & _).
  rewrite IH. reflexivity.
Qed.

Lemma index_jsonl_loop_lookup (file_mtime_ms : Path.t -> Z) (chat_dir : Path.t)
    (es : list ChatEntry) (m : gmap string IndexEntry.t) (k : string) :
  index_jsonl_loop file_mtime_ms chat_dir es m !! k =
  match m !! k with
  | Some v => Some v
  | None =>
      option_map (index_jsonl_entry file_mtime_ms chat_dir)
        (List.find
           (fun e => String.eqb (Path.stem (Path.child chat_dir (ce_name e))) k)
           es)
  end.
Proof.
  revert m. induction es as [| e r IH]; intros m.
  - cbn. destruct (m !! k); reflexivity.
  - cbn [index_jsonl_loop List.find].
    destruct (m !! Path.stem (Path.child chat_dir (ce_name e))) as [v0 |] eqn:E.
    + rewrite IH.
      destruct (String.eqb_spec (Path.stem (Path.child chat_dir (ce_name e))) k)
        as [<- | Hne].
      * rewrite E. reflexivity.
      * reflexivity.
    + rewrite IH.
      destruct (String.eqb_spec (Path.stem (Path.child chat_dir (ce_name e))) k)
        as [<- | Hne].
      * rewrite lookup_insert_eq, E. reflexivity.
      * rewrite lookup_insert_ne by exact Hne. reflexivity.
Qed.

Lemma build_index_outcome (json_loads : string -> exn + json)
    (file_mtime_ms : Path.t -> Z) (chat_dir : Path.t) (es : list ChatEntry) :
  outcome (build_index json_loads file_mtime_ms chat_dir es) =
  inr {| version := 1;
         entries :=
           index_jsonl_loop file_mtime_ms chat_dir
             (sorted_by_name (glob_suffix ".jsonl" es))
             (List.fold_left (fun m kv => <[fst kv := snd kv]> m)
                (index_json_bindings json_loads file_mtime_ms chat_dir es) ∅) |}.
Proof.
  unfold build_index. io_simpl. rewrite index_json_loop_outcome. reflexivity.
Qed.

Lemma index_json_bindings_shape (json_loads : string -> exn + json)
    (file_mtime_ms : Path.t -> Z) (chat_dir : Path.t) (es : list ChatEntry)
    (k : string) (v : IndexEntry.t) :
  List.In (k, v) (index_json_bindings json_loads file_mtime_ms chat_dir es) ->
  IndexEntry.sessionId v = k /\ IndexEntry.isExternal v = false /\
  IndexEntry.title v <> "".
Proof.
  unfold index_json_bindings. intros Hin.
  apply List.in_flat_map in Hin. destruct Hin as (e & _ & Hin).
  unfold index_json_binding in Hin.
  destruct (index_json_file_total json_loads file_mtime_ms chat_dir e)
    as (k' & title & is_empty & E & Ht).
  rewrite E in Hin. destruct Hin as [Heq | []].
  inversion Heq; subst. cbn. auto.
Qed.

Lemma last_binding_sound {V} (k : string) (v : V) (kvs : list (string * V)) :
  last_binding k kvs = Some v -> List.In (k, v) kvs.
Proof.
  unfold last_binding. intros H.
  destruct (List.find _ (List.rev kvs)) as [[k' v'] |] eqn:E; [| discriminate H].
  cbn in H. inversion H; subst v'.
  apply List.find_some in E. destruct E as [Hin E]. cbn in E.
  apply String.eqb_eq in E. subst k'. apply List.in_rev. exact Hin.
Qed.

(** X24: build_index never raises, whatever the folder holds (unreadable,
    undecodable or malformed files included); the index has version 1, and
    every entry is stored under its own sessionId, is not external and has
    a non-empty title. *)
Theorem build_index_total_and_well_keyed (json_loads : string -> exn + json)
    (file_mtime_ms : Path.t -> Z) (chat_dir : Path.t) (es : list ChatEntry) :
  exists idx,
    outcome (build_index json_loads file_mtime_ms chat_dir es) = inr idx /\
    version idx = 1 /\
    forall k v, entries idx !! k = Some v ->
      IndexEntry.sessionId v = k /\ IndexEntry.isExternal v = false /\
      IndexEntry.title v <> "".
Proof.
  eexists. split; [apply build_index_outcome |]. split; [reflexivity |].
  intros k v. cbn [entries].
  rewrite index_jsonl_loop_lookup, fold_insert_lookup.
  destruct (last_binding k _) as [v' |] eqn:E.
  - intros H. inversion H; subst v'.
    apply last_binding_sound in E.
    exact (index_json_bindings_shape _ _ _ _ _ _ E).
  - rewrite lookup_empty.
    destruct (List.find _ _) as [e |] eqn:F; [| discriminate].
    cbn [option_map]. intros H. inversion H; subst v.
    apply List.find_some in F. destruct F as [_ F].
    apply String.eqb_eq in F.
    unfold index_jsonl_entry. cbn. repeat split; [exact F | discriminate].
Qed.

(** X25: what build_index stores under a key: the entry of the last *.json
    file, in name order, that is indexed under that key; when no *.json
    file is, the default entry of the first *.jsonl file with that stem;
    otherwise nothing.  A *.jsonl file never replaces the entry of a
    *.json file. *)
Theorem build_index_lookup (json_loads : string -> exn + json)
    (file_mtime_ms : Path.t -> Z) (chat_dir : Path.t) (es : list ChatEntry)
    (k : string) :
  exists idx,
    outcome (build_index json_loads file_mtime_ms chat_dir es) = inr idx /\
    entries idx !! k =
    match last_binding k
            (index_json_bindings json_loads file_mtime_ms chat_dir es) with
    | Some v => Some v
    | None =>
        option_map (index_jsonl_entry file_mtime_ms chat_dir)
          (List.find
             (fun e =>
                String.eqb (Path.stem (Path.child chat_dir (ce_name e))) k)
             (sorted_by_name (glob_suffix ".jsonl" es)))
    end.
Proof.
  eexists. split; [apply build_index_outcome |].
  cbn [entries]. rewrite index_jsonl_loop_lookup, fold_insert_lookup.
  destruct (last_binding k _); [reflexivity |].
  rewrite lookup_empty. reflexivity.
Qed.

(** X26: a *.json file is indexed as empty exactly when it is a regular
    file that decodes as UTF-8 and parses to an object whose requests
    field is an empty list; every file that cannot be read or parsed is
    indexed as not empty. *)
Theorem index_entry_empty_iff (json_loads : string -> exn + json)
    (file_mtime_ms : Path.t -> Z) (chat_dir : Path.t) (e : ChatEntry) :
  exists k v,
    index_json_binding json_loads file_mtime_ms chat_dir e = Some (k, v) /\
    (IndexEntry.isEmpty v = true <->
     exists f text obj,
       ce_file e = Some f /\ utf8 f = Some text /\
       json_loads text = inr (JDict obj) /\
       dict_get obj "requests" = JList []).
Proof.
  unfold index_json_binding, index_json_file, entry_read_utf8,
    file_read_utf8, loads.
  io_simpl.
  destruct (ce_file e) as [f |]; io_simpl.
  2: { eexists _, _; split; [reflexivity |]. cbn. split; [discriminate |].
       intros (f & text & obj & H & _). discriminate H. }
  destruct (utf8 f) as [text |] eqn:Eu; io_simpl.
  2: { eexists _, _; split; [reflexivity |]. cbn. split; [discriminate |].
       intros (f' & text & obj & H & H' & _).
       inversion H; subst f'. rewrite Eu in H'. discriminate H'. }
  destruct (json_loads text) as [x | j] eqn:El; io_simpl.
  { eexists _, _; split; [reflexivity |]. cbn. split; [discriminate |].
    intros (f' & text' & obj & H & H' & H'' & _).
    inversion H; subst f'. rewrite Eu in H'. inversion H'; subst text'.
    rewrite El in H''. discriminate H''. }
  destruct j as [| | | | | | obj]; io_simpl;
    try (eexists _, _; split; [reflexivity |]; cbn; split; [discriminate |];
         intros (f' & text' & obj' & H & H' & H'' & _);
         inversion H; subst f'; rewrite Eu in H'; inversion H'; subst text';
         rewrite El in H''; discriminate H'').
  eexists _, _; split; [reflexivity |]. cbn [IndexEntry.isEmpty]. split.
  - intros Hemp. exists f, text, obj. repeat split; try assumption.
    destruct (dict_get obj "requests") as [| | | | | l |]; try discriminate Hemp.
    destruct l; [reflexivity | discriminate Hemp].
  - intros (f' & text' & obj' & H & H' & H'' & Hr).
    inversion H; subst f'. rewrite Eu in H'. inversion H'; subst text'.
    rewrite El in H''. inversion H''; subst obj'. rewrite Hr. reflexivity.
Qed.

(** ** The markdown export *)

Lemma json_nested_ind (P : json -> Prop) :
  P JNull -> (forall b, P (JBool b)) -> (forall n, P (JInt n)) ->
  (forall f, P (JFloat f)) -> (forall s, P (JStr s)) ->
  (forall l, List.Forall P l -> P (JList l)) ->
  (forall d, List.Forall (fun kv => P (snd kv)) d -> P (JDict d)) ->
  forall x, P x.
Proof.
  intros HN HB HI HF HS HL HD. fix IH 1. intros [| b | n | f | s | l | d].
  - exact HN.
  - apply HB.
  - apply HI.
  - apply HF.
  - apply HS.
  - apply HL. induction l as [| y r IHl]; constructor; [apply IH | exact IHl].
  - apply HD. induction d as [| [k v] r IHd]; constructor;
      [apply IH | exact IHd].
Qed.

Lemma walk_dict (d : list (string * json)) (st : walk_state) :
  walk (JDict d) st = List.fold_left (fun st kv => walk_item kv st) d st.
Proof.
  cbn [walk]. revert st.
  induction d as [| [k v] r IH]; intros st; [reflexivity |].
  exact (IH (walk_item (k, v) st)).
Qed.

Lemma walk_list (l : list json) (st : walk_state) :
  walk (JList l) st = List.fold_left (fun st it => walk it st) l st.
Proof.
  cbn [walk]. revert st.
  induction l as [| y r IH]; intros st; [reflexivity |].
  exact (IH (walk y st)).
Qed.

Lemma truthy_nonempty (t : string) : Str.truthy t = true <-> t <> "".
Proof.
  destruct t; cbn; split; intros H; congruence.
Qed.

Lemma add_chunk_spec (s : string) (st : walk_state) :
  walk_inv st ->
  walk_inv (add_chunk s st) /\
  forall t, List.In t (snd (add_chunk s st)) <->
            List.In t (snd st) \/ (t <> "" /\ Str.strip s = t).
Proof.
  intros Hst. pose proof Hst as (Hseen & Hnd & Hok). unfold add_chunk.
  destruct (Str.truthy (Str.strip s)) eqn:Et; cbn [andb].
  - destruct (bool_decide (Str.strip s ∈ fst st)) eqn:Es; cbn [negb].
    + apply bool_decide_eq_true in Es. split; [exact Hst |].
      intros t. split; [auto |]. intros [H | [_ <-]]; [exact H |].
      apply Hseen. exact Es.
    + apply bool_decide_eq_false in Es. unfold walk_inv. cbn [fst snd]. split.
      * split; [| split].
        -- intros t. rewrite elem_of_union, elem_of_singleton, List.in_app_iff.
           cbn [List.In]. rewrite Hseen. split.
           ++ intros [-> | H]; auto.
           ++ intros [H | [<- | []]]; auto.
        -- apply List.NoDup_app; [exact Hnd | repeat constructor; intros [] |].
           intros t Ht [<- | []]. apply Es, Hseen. exact Ht.
        -- intros t Ht. apply List.in_app_iff in Ht.
           destruct Ht as [Ht | [<- | []]]; [apply Hok; exact Ht |].
           split; [apply truthy_nonempty; exact Et | apply strip_idempotent].
      * intros t. rewrite List.in_app_iff. cbn [List.In]. split.
        -- intros [H | [<- | []]]; [auto |]. right.
           split; [apply truthy_nonempty; exact Et | reflexivity].
        -- intros [H | [_ <-]]; auto.
  - split; [exact Hst |].
    intros t. split; [auto |]. intros [H | [Hne <-]]; [exact H |].
    apply truthy_nonempty in Hne. congruence.
Qed.

Lemma walk_spec (x : json) :
  forall st, walk_inv st ->
    walk_inv (walk x st) /\
    forall t, List.In t (snd (walk x st)) <->
              List.In t (snd st) \/
              (t <> "" /\ exists s, text_at x s /\ Str.strip s = t).
Proof.
  induction x as [| b | n | f | s | l IHl | d IHd] using json_nested_ind;
    intros st Hst;
    try (cbn [walk]; split; [exact Hst |];
         intros t; split; [auto |];
         intros [H | (_ & s' & H & _)]; [exact H | inversion H]).
  - rewrite walk_list. revert st Hst.
    induction l as [| y r IHr]; intros st Hst.
    + cbn [List.fold_left]. split; [exact Hst |].
      intros t; split; [auto |].
      intros [H | (_ & s' & H & _)]; [exact H |].
      inversion H; subst. contradiction.
    + cbn [List.fold_left]. inversion IHl as [| ? ? Hy Hr]; subst.
      destruct (Hy st Hst) as [Hinv Hin].
      destruct (IHr Hr _ Hinv) as [Hinv' Hin'].
      split; [exact Hinv' |]. intros t. rewrite Hin', Hin. split.
      * intros [[H | (Hne & s & Hs & E)] | (Hne & s & Hs & E)]; [auto | |].
        -- right. split; [exact Hne |]. exists s. split; [| exact E].
           eapply text_at_list; [left; reflexivity | exact Hs].
        -- right. split; [exact Hne |]. exists s. split; [| exact E].
           inversion Hs; subst.
           eapply text_at_list; [right; eassumption | assumption].
      * intros [H | (Hne & s & Hs & E)]; [auto |].
        inversion Hs as [| | ? it ? Hit Hat]; subst.
        destruct Hit as [-> | Hit].
        -- left. right. split; [exact Hne |]. exists s. auto.
        -- right. split; [exact Hne |]. exists s. split; [| reflexivity].
           eapply text_at_list; eassumption.
  - rewrite walk_dict. revert st Hst.
    induction d as [| [k v] r IHr]; intros st Hst.
    + cbn [List.fold_left]. split; [exact Hst |].
      intros t; split; [auto |].
      intros [H | (_ & s' & H & _)]; [exact H |].
      inversion H; subst; contradiction.
    + cbn [List.fold_left]. inversion IHd as [| ? ? Hv Hr]; subst.
      cbn [snd] in Hv.
      assert (Hitem : walk_inv (walk_item (k, v) st) /\
                forall t, List.In t (snd (walk_item (k, v) st)) <->
                          List.In t (snd st) \/
                          (t <> "" /\ exists s,
                             text_at (JDict [(k, v)]) s /\ Str.strip s = t)).
      { unfold walk_item. cbn [fst snd].
        destruct (Str.mem k export_keys) eqn:Ek.
        - destruct v as [| b | n | f | s | l | d];
            try (destruct (Hv st Hst) as [Hinv Hin]; split; [exact Hinv |];
                 intros t; rewrite Hin; split;
                 [ intros [H | (Hne & s' & Hs & E)]; [auto |];
                   right; split; [exact Hne |]; exists s'; split; [| exact E];
                   eapply text_at_dict; [left; reflexivity | exact Hs]
                 | intros [H | (Hne & s' & Hs & E)]; [auto |];
                   inversion Hs as [? ? ? Hi | ? ? ? ? Hi Hat |]; subst;
                   (destruct Hi as [Hi | []]); inversion Hi; subst;
                   right; split; [exact Hne |]; exists s'; auto ]).
          destruct (add_chunk_spec s st Hst) as [Hinv Hin].
          split; [exact Hinv |]. intros t. rewrite Hin. split.
          + intros [H | (Hne & E)]; [auto |]. right. split; [exact Hne |].
            exists s. split; [| exact E].
            eapply text_at_key; [left; reflexivity | exact Ek].
          + intros [H | (Hne & s' & Hs & E)]; [auto |].
            inversion Hs as [? ? ? Hi | ? ? ? ? Hi Hat |]; subst.
            * destruct Hi as [Hi | []]. inversion Hi; subst. auto.
            * destruct Hi as [Hi | []]. inversion Hi; subst. inversion Hat.
        - destruct (Hv st Hst) as [Hinv Hin]. split; [exact Hinv |].
          intros t; rewrite Hin; split.
          + intros [H | (Hne & s' & Hs & E)]; [auto |].
            right; split; [exact Hne |]; exists s'; split; [| exact E].
            eapply text_at_dict; [left; reflexivity | exact Hs].
          + intros [H | (Hne & s' & Hs & E)]; [auto |].
            inversion Hs as [? ? ? Hi Hm | ? ? ? ? Hi Hat |]; subst;
              (destruct Hi as [Hi | []]); inversion Hi; subst.
            * congruence.
            * right; split; [exact Hne |]; exists s'; auto. }
      destruct Hitem as [Hinv Hin].
      destruct (IHr Hr _ Hinv) as [Hinv' Hin'].
      split; [exact Hinv' |]. intros t. rewrite Hin', Hin. split.
      * intros [[H | (Hne & s & Hs & E)] | (Hne & s & Hs & E)]; [auto | |].
        -- right. split; [exact Hne |]. exists s. split; [| exact E].
           inversion Hs as [? ? ? Hi Hm | ? ? ? ? Hi Hat |]; subst;
             (destruct Hi as [Hi | []]); inversion Hi; subst.
           ++ eapply text_at_key; [left; reflexivity | exact Hm].
           ++ eapply text_at_dict; [left; reflexivity | exact Hat].
        -- right. split; [exact Hne |]. exists s. split; [| exact E].
           inversion Hs as [? ? ? Hi Hm | ? ? ? ? Hi Hat |]; subst.
           ++ eapply text_at_key; [right; exact Hi | exact Hm].
           ++ eapply text_at_dict; [right; exact Hi | exact Hat].
      * intros [H | (Hne & s & Hs & E)]; [auto |].
        inversion Hs as [? ? ? Hi Hm | ? ? ? ? Hi Hat |]; subst.
        -- destruct Hi as [Hi | Hi].
           ++ inversion Hi; subst. left. right. split; [exact Hne |].
              exists s. split; [| reflexivity].
              eapply text_at_key; [left; reflexivity | exact Hm].
           ++ right. split; [exact Hne |]. exists s. split; [| reflexivity].
              eapply text_at_key; eassumption.
        -- destruct Hi as [Hi | Hi].
           ++ inversion Hi; subst. left. right. split; [exact Hne |].
              exists s. split; [| reflexivity].
              eapply text_at_dict; [left; reflexivity | exact Hat].
           ++ right. split; [exact Hne |]. exists s. split; [| reflexivity].
              eapply text_at_dict; eassumption.
Qed.

Lemma walk_inv_start : walk_inv (∅, []).
Proof.
  split; [| split].
  - intros t. cbn. split; [intros H; apply elem_of_empty in H; exact H | tauto].
  - constructor.
  - intros t [].
Qed.

(** X27: the chunks the markdown export collects hold no duplicate, and
    each one is non-empty and already stripped of surrounding white space,
    whatever the session document is. *)
Theorem export_chunks_distinct_stripped (obj : json) :
  List.NoDup (export_chunks obj) /\
  forall t, List.In t (export_chunks obj) -> t <> "" /\ Str.strip t = t.
Proof.
  destruct (walk_spec obj _ walk_inv_start) as [(_ & Hnd & Hok) _].
  split; assumption.
Qed.

(** X28: the markdown export loses and invents nothing: a text is a chunk
    exactly when it is non-empty and is the stripped form of a string
    value stored, at any depth of objects and arrays, under one of the
    keys text, value, content, message, prompt, response. *)
Theorem export_chunks_exactly_keyed_texts (obj : json) (t : string) :
  List.In t (export_chunks obj) <->
  t <> "" /\ exists s, text_at obj s /\ Str.strip s = t.
Proof.
  destruct (walk_spec obj _ walk_inv_start) as [_ Hin].
  unfold export_chunks. rewrite Hin. cbn [snd List.In]. tauto.
Qed.

(** The sample folder and the sample document, evaluated. *)
Example build_index_sample :
  option_map
    (fun idx => (entries idx !! "abc", entries idx !! "log", entries idx !! "s1"))
    (match outcome (build_index SampleIndex.json_loads SampleIndex.mtime_ms
                      (Path.of_str "/c") SampleIndex.folder) with
     | inr idx => Some idx
     | inl _ => None
     end) =
  Some (Some (IndexEntry.mk "abc" "New Chat" 7 true false),
        Some (IndexEntry.mk "log" "New Chat" 9 false false),
        None).
Proof. vm_compute. reflexivity. Qed.

Example export_chunks_sample :
  export_chunks SampleExport.doc = ["hi"; "ok"].
Proof. vm_compute. reflexivity. Qed.
